(** * PlasmaTrader core: paper trader, risk controller and signal fusion

    A shallow embedding of [plasmatrader_core/paper_trader.py],
    [plasmatrader_core/risk_controller.py], the fusion step of
    [plasmatrader_core/chronos_predictor.py] and the message handling and
    reconnection policy of [plasmatrader_core/market_feed.py].

    Python's [float] is IEEE 754 binary64.  The embedding is written once,
    over an interface [Arith] of the arithmetic the source uses, and read at
    two instances:
    - [binary64]: Rocq's primitive floats, bit for bit what CPython computes;
    - [exact]: rationals extended with infinities and NaN, that is the same
      arithmetic without rounding, overflow or signed zeros.
    Statements that only follow the control flow are proved for every
    instance.  Statements about the numbers the code computes are proved on
    [binary64], for all inputs through the specification of the primitive
    floats ([SpecFloat]) and on concrete inputs by evaluation.  The few
    statements read at [exact] say so: they describe the arithmetic before
    rounding and are no statement about the floats. *)

From Stdlib Require Import ZArith QArith Qcanon Lqa Floats.
From stdpp Require Import gmap strings list.

Set Default Proof Using "Type".
Local Open Scope Z_scope.

(** ** Outcomes of a call *)

(** The exceptions the modelled code can raise. *)
Inductive exn : Type :=
| ZeroDivisionError.

(** A call returns, raises, or (for the fuelled recursion below) runs out of
    fuel. *)
Inductive result (A : Type) : Type :=
| Ok (a : A)
| Raise (e : exn)
| OutOfFuel.
Arguments Ok {A} a.
Arguments Raise {A} e.
Arguments OutOfFuel {A}.

Definition bind {A B : Type} (r : result A) (k : A -> result B) : result B :=
  match r with
  | Ok a => k a
  | Raise e => Raise e
  | OutOfFuel => OutOfFuel
  end.

(** ** The arithmetic interface *)

Class Arith (F : Type) : Type := {
  (** a decimal literal of the source, [0.0004] as [lit (4 # 10000)] *)
  lit : Q -> F;
  (** an [int] used in float arithmetic *)
  of_int : Z -> F;
  (** [float('inf')] *)
  inf : F;
  add : F -> F -> F;
  sub : F -> F -> F;
  mul : F -> F -> F;
  (** [a / b] for a divisor the source has tested; Python raises
      [ZeroDivisionError] on a zero divisor, see [pydiv] *)
  div : F -> F -> F;
  (** [abs(x)] *)
  fabs : F -> F;
  (** [a < b], [a <= b], [a == b]; [a > b] is [ltb b a] *)
  ltb : F -> F -> bool;
  leb : F -> F -> bool;
  eqb : F -> F -> bool;
  (** [np.isfinite(x)] *)
  is_finite : F -> bool;
  (** [int(x)], truncation toward zero, for a finite [x] *)
  trunc : F -> Z
}.

Declare Scope num_scope.
Delimit Scope num_scope with num.
Notation "x + y" := (add x y) : num_scope.
Notation "x - y" := (sub x y) : num_scope.
Notation "x * y" := (mul x y) : num_scope.
Notation "x / y" := (div x y) : num_scope.
Notation "x <? y" := (ltb x y) : num_scope.
Notation "x <=? y" := (leb x y) : num_scope.
Notation "x >? y" := (ltb y x) : num_scope.
Notation "x >=? y" := (leb y x) : num_scope.
Notation "x =? y" := (eqb x y) : num_scope.

(** *** binary64 *)

Module Binary64.

(** The float nearest to an integer (ties to even). *)
Definition of_Z (z : Z) : float := SF2Prim (binary_normalize prec emax z 0 false).

(** The float nearest to a fraction of two integers below 2^53: both convert
    exactly and IEEE division rounds the quotient once, which is how a decimal
    literal is read. *)
Definition of_Q (q : Q) : float := (of_Z (Qnum q) / of_Z (Zpos (Qden q)))%float.

(** [int(x)]: the integer part of m * 2^e, toward zero. *)
Definition to_Z (x : float) : Z :=
  match Prim2SF x with
  | S754_finite s m e =>
      let v := if (0 <=? e)%Z then Z.shiftl (Zpos m) e else Z.shiftr (Zpos m) (- e) in
      if s then - v else v
  | _ => 0
  end.

End Binary64.

#[export] Instance binary64 : Arith float := {|
  lit := Binary64.of_Q;
  of_int := Binary64.of_Z;
  inf := PrimFloat.infinity;
  add := PrimFloat.add;
  sub := PrimFloat.sub;
  mul := PrimFloat.mul;
  div := PrimFloat.div;
  fabs := PrimFloat.abs;
  ltb := PrimFloat.ltb;
  leb := PrimFloat.leb;
  eqb := PrimFloat.eqb;
  is_finite := PrimFloat.is_finite;
  trunc := Binary64.to_Z
|}.

(** *** Exact arithmetic *)

(** A rational, an infinity or NaN. *)
Inductive xq : Type :=
| Fin (q : Qc)
| PInf
| NInf
| NaN.

Module Exact.

Definition of_Z (z : Z) : xq := Fin (Q2Qc (inject_Z z)).

(** -1, 0 or 1; NaN has no sign. *)
Definition sgn (x : xq) : Z :=
  match x with
  | Fin q => if bool_decide (0 < q)%Qc then 1 else if bool_decide (q < 0)%Qc then -1 else 0
  | PInf => 1
  | NInf => -1
  | NaN => 0
  end.

(** The infinity of a sign, NaN for sign 0 (the invalid operations). *)
Definition of_sgn (s : Z) : xq :=
  match s with
  | Zpos _ => PInf
  | Zneg _ => NInf
  | Z0 => NaN
  end.

Definition opp (x : xq) : xq :=
  match x with
  | Fin q => Fin (- q)%Qc
  | PInf => NInf
  | NInf => PInf
  | NaN => NaN
  end.

Definition add (x y : xq) : xq :=
  match x, y with
  | NaN, _ | _, NaN => NaN
  | Fin a, Fin b => Fin (a + b)%Qc
  | PInf, NInf | NInf, PInf => NaN
  | PInf, _ | _, PInf => PInf
  | NInf, _ | _, NInf => NInf
  end.

Definition sub (x y : xq) : xq := add x (opp y).

Definition mul (x y : xq) : xq :=
  match x, y with
  | NaN, _ | _, NaN => NaN
  | Fin a, Fin b => Fin (a * b)%Qc
  | _, _ => of_sgn (sgn x * sgn y)
  end.

(** IEEE division; the quotient by a finite zero is the infinity of the
    dividend's sign (NaN for 0/0). *)
Definition div (x y : xq) : xq :=
  match x, y with
  | NaN, _ | _, NaN => NaN
  | Fin a, Fin b => if bool_decide (b = 0%Qc) then of_sgn (sgn x) else Fin (a / b)%Qc
  | Fin _, _ => Fin 0%Qc
  | _, Fin b => of_sgn (sgn x * (if bool_decide (b < 0)%Qc then -1 else 1))
  | _, _ => NaN
  end.

Definition abs (x : xq) : xq :=
  match x with
  | Fin q => if bool_decide (q < 0)%Qc then Fin (- q)%Qc else Fin q
  | PInf | NInf => PInf
  | NaN => NaN
  end.

Definition ltb (x y : xq) : bool :=
  match x, y with
  | NaN, _ | _, NaN => false
  | Fin a, Fin b => bool_decide (a < b)%Qc
  | NInf, NInf | PInf, _ | _, NInf => false
  | _, _ => true
  end.

Definition eqb (x y : xq) : bool :=
  match x, y with
  | Fin a, Fin b => bool_decide (a = b)
  | PInf, PInf | NInf, NInf => true
  | _, _ => false
  end.

Definition leb (x y : xq) : bool :=
  match x, y with
  | NaN, _ | _, NaN => false
  | Fin a, Fin b => bool_decide (a <= b)%Qc
  | NInf, _ | _, PInf => true
  | _, _ => false
  end.

Definition is_finite (x : xq) : bool :=
  match x with
  | Fin _ => true
  | _ => false
  end.

Definition to_Z (x : xq) : Z :=
  match x with
  | Fin q => Z.quot (Qnum q) (Zpos (Qden q))
  | _ => 0
  end.

End Exact.

#[export] Instance exact : Arith xq := {|
  lit := fun q => Fin (Q2Qc q);
  of_int := Exact.of_Z;
  inf := PInf;
  add := Exact.add;
  sub := Exact.sub;
  mul := Exact.mul;
  div := Exact.div;
  fabs := Exact.abs;
  ltb := Exact.ltb;
  leb := Exact.leb;
  eqb := Exact.eqb;
  is_finite := Exact.is_finite;
  trunc := Exact.to_Z
|}.

(** ** The embedding, for any arithmetic *)

Section Core.
Context {F : Type} {A : Arith F}.
Local Open Scope num_scope.

Definition zero : F := lit 0.

(** [max(a, b)] and [min(a, b)] of Python: the first argument unless the
    second is strictly greater (smaller); with a NaN the comparison is false. *)
Definition pymax (a b : F) : F := if a <? b then b else a.
Definition pymin (a b : F) : F := if b <? a then b else a.

(** [a / b] of Python floats. *)
Definition pydiv (a b : F) : result F :=
  if b =? zero then Raise ZeroDivisionError else Ok (a / b).

(** *** Data model *)

Inductive OrderSide : Type := BUY | SELL.
Inductive PositionSide : Type := LONG | SHORT.

(** [paper_trader.Order]; [order_type] defaults to ['MARKET']. *)
Record Order : Type := {
  order_timestamp : Z;
  order_symbol : string;
  order_side : OrderSide;
  order_size : F;
  order_type : string
}.

(** Modelled from the spec: [core_engine.Position], whose declaration is not
    among the sources; the fields are those the constructor call
    [Position(symbol, side, size, entry_price)] and the spec's data model
    give. *)
Record Position : Type := {
  pos_symbol : string;
  pos_side : PositionSide;
  pos_size : F;
  pos_entry_price : F
}.

(** Modelled from the spec: [core_engine.Trade], built as
    [Trade(timestamp, symbol, side, exec_price, size, pnl, commission)]. *)
Record Trade : Type := {
  trade_timestamp : Z;
  trade_symbol : string;
  trade_side : OrderSide;
  trade_exec_price : F;
  trade_size : F;
  trade_pnl : F;
  trade_commission : F
}.

(** Modelled from the spec: [core_engine.MarketData], the fields the paper
    trader reads; a book level is a pair (price, quantity), [md_spread] is the
    relative spread the feed computes. *)
Record MarketData : Type := {
  md_price : F;
  md_bid : F;
  md_ask : F;
  md_spread : F;
  md_top_5_bids : list (F * F);
  md_top_5_asks : list (F * F)
}.

(** Modelled from the spec: [core_engine.RiskMetrics]. *)
Record RiskMetrics : Type := {
  high_water_mark : F;
  current_drawdown : F
}.

(** Modelled from the spec: [core_engine.TradingState].  A data frame of
    [historical_data] is kept as its ['close'] column. *)
Record TradingState : Type := {
  timestamp : Z;
  wallet_balance : F;
  total_pnl : F;
  positions : gmap string Position;
  trades : list Trade;
  risk_metrics : RiskMetrics;
  historical_data : gmap string (list F)
}.

Definition set_wallet_balance (w : F) (s : TradingState) : TradingState :=
  {| timestamp := timestamp s; wallet_balance := w; total_pnl := total_pnl s;
     positions := positions s; trades := trades s; risk_metrics := risk_metrics s;
     historical_data := historical_data s |}.

Definition set_total_pnl (p : F) (s : TradingState) : TradingState :=
  {| timestamp := timestamp s; wallet_balance := wallet_balance s; total_pnl := p;
     positions := positions s; trades := trades s; risk_metrics := risk_metrics s;
     historical_data := historical_data s |}.

Definition set_positions (m : gmap string Position) (s : TradingState) : TradingState :=
  {| timestamp := timestamp s; wallet_balance := wallet_balance s; total_pnl := total_pnl s;
     positions := m; trades := trades s; risk_metrics := risk_metrics s;
     historical_data := historical_data s |}.

Definition set_trades (l : list Trade) (s : TradingState) : TradingState :=
  {| timestamp := timestamp s; wallet_balance := wallet_balance s; total_pnl := total_pnl s;
     positions := positions s; trades := l; risk_metrics := risk_metrics s;
     historical_data := historical_data s |}.

Definition set_timestamp (t : Z) (s : TradingState) : TradingState :=
  {| timestamp := t; wallet_balance := wallet_balance s; total_pnl := total_pnl s;
     positions := positions s; trades := trades s; risk_metrics := risk_metrics s;
     historical_data := historical_data s |}.

Definition set_risk_metrics (r : RiskMetrics) (s : TradingState) : TradingState :=
  {| timestamp := timestamp s; wallet_balance := wallet_balance s; total_pnl := total_pnl s;
     positions := positions s; trades := trades s; risk_metrics := r;
     historical_data := historical_data s |}.

(** *** paper_trader.py *)

Definition TAKER_FEE : F := lit (4 # 10000).
Definition SLIPPAGE_FACTOR : F := lit (1 # 10).

(** [PaperTradingEngine._calculate_slippage] *)
Definition _calculate_slippage (order_size : F) (market_data : MarketData) : F :=
  if (md_spread market_data <=? zero) || bool_decide (md_top_5_asks market_data = [])
  then lit 0
  else
    let top_level_qty :=
      match md_top_5_asks market_data with
      | (_, qty) :: _ => qty
      | [] => lit 1
      end in
    if top_level_qty =? zero then md_spread market_data * SLIPPAGE_FACTOR
    else
      let size_ratio := pymin (order_size / top_level_qty) (lit 1) in
      let spread_price := md_ask market_data - md_bid market_data in
      spread_price * SLIPPAGE_FACTOR * size_ratio.

(** [PaperTradingEngine._update_risk_metrics] *)
Definition _update_risk_metrics (state : TradingState) : TradingState :=
  let new_hwm := pymax (high_water_mark (risk_metrics state)) (wallet_balance state) in
  let drawdown :=
    if new_hwm >? zero then (new_hwm - wallet_balance state) / new_hwm else lit 0 in
  set_risk_metrics {| high_water_mark := new_hwm; current_drawdown := drawdown |} state.

(** The price an order is filled at (execute_order, line 67). *)
Definition exec_price_of (order : Order) (market_data : MarketData) : F :=
  let slippage := _calculate_slippage (order_size order) market_data in
  match order_side order with
  | BUY => md_ask market_data + slippage
  | SELL => md_bid market_data - slippage
  end.

(** The two readings of [datetime.now] a fill makes, for the trade and for
    the state. *)
Record Clock : Type := {
  now_trade : Z;
  now_state : Z
}.

(** Lines 111-117 of execute_order: append the trade, stamp the state,
    recompute the risk metrics. *)
Definition record_fill (clock : Clock) (order : Order) (exec_price pnl commission : F)
    (new_state : TradingState) : TradingState :=
  let trade :=
    {| trade_timestamp := now_trade clock; trade_symbol := order_symbol order;
       trade_side := order_side order; trade_exec_price := exec_price;
       trade_size := order_size order; trade_pnl := pnl;
       trade_commission := commission |} in
  let new_state := set_trades (trades new_state ++ [trade]) new_state in
  let new_state := set_timestamp (now_state clock) new_state in
  _update_risk_metrics new_state.

(** The realized profit of closing [size] units of a position. *)
Definition realized_pnl (existing_pos : Position) (size exec_price : F) : F :=
  let entry_cost := size * pos_entry_price existing_pos in
  let exit_cost := size * exec_price in
  match pos_side existing_pos with
  | LONG => exit_cost - entry_cost
  | SHORT => entry_cost - exit_cost
  end.

(** One activation of [PaperTradingEngine.execute_order]; [self_execute_order]
    stands for the recursive call of line 100.  The deep copy of line 63 is
    the functional update; the simulated latency and the log line do not
    touch the returned state. *)
Definition execute_order_body
    (self_execute_order : Order -> TradingState -> MarketData -> result TradingState)
    (clock : Clock) (order : Order) (state : TradingState) (market_data : MarketData)
    : result TradingState :=
  let new_state := state in
  let exec_price := exec_price_of order market_data in
  let order_cost := order_size order * exec_price in
  let commission := order_cost * TAKER_FEE in
  let pnl := lit 0 in
  match positions new_state !! order_symbol order with
  | None =>
      let new_pos :=
        {| pos_symbol := order_symbol order;
           pos_side := match order_side order with BUY => LONG | SELL => SHORT end;
           pos_size := order_size order; pos_entry_price := exec_price |} in
      let new_state :=
        set_positions (<[order_symbol order := new_pos]> (positions new_state)) new_state in
      let new_state :=
        set_wallet_balance (wallet_balance new_state - (order_cost + commission)) new_state in
      Ok (record_fill clock order exec_price pnl commission new_state)
  | Some existing_pos =>
      let is_same_side :=
        match pos_side existing_pos, order_side order with
        | LONG, BUY | SHORT, SELL => true
        | _, _ => false
        end in
      if is_same_side then
        let new_total_size := pos_size existing_pos + order_size order in
        bind (pydiv (pos_entry_price existing_pos * pos_size existing_pos
                     + exec_price * order_size order) new_total_size)
          (fun new_entry_price =>
        let existing_pos :=
          {| pos_symbol := pos_symbol existing_pos; pos_side := pos_side existing_pos;
             pos_size := new_total_size; pos_entry_price := new_entry_price |} in
        let new_state :=
          set_positions (<[order_symbol order := existing_pos]> (positions new_state))
            new_state in
        let new_state :=
          set_wallet_balance (wallet_balance new_state - (order_cost + commission))
            new_state in
        Ok (record_fill clock order exec_price pnl commission new_state))
      else if order_size order >=? pos_size existing_pos then
        let closed_size := pos_size existing_pos in
        let pnl := realized_pnl existing_pos closed_size exec_price in
        let new_state :=
          set_wallet_balance (wallet_balance new_state + (pnl - commission)) new_state in
        let new_state := set_total_pnl (total_pnl new_state + pnl) new_state in
        let new_state :=
          set_positions (delete (order_symbol order) (positions new_state)) new_state in
        if order_size order >? closed_size then
          let rem_order :=
            {| order_timestamp := order_timestamp order; order_symbol := order_symbol order;
               order_side := order_side order; order_size := order_size order - closed_size;
               order_type := "MARKET" |} in
          self_execute_order rem_order new_state market_data
        else Ok (record_fill clock order exec_price pnl commission new_state)
      else
        let reduced_size := order_size order in
        let pnl := realized_pnl existing_pos reduced_size exec_price in
        let existing_pos :=
          {| pos_symbol := pos_symbol existing_pos; pos_side := pos_side existing_pos;
             pos_size := pos_size existing_pos - reduced_size;
             pos_entry_price := pos_entry_price existing_pos |} in
        let new_state :=
          set_positions (<[order_symbol order := existing_pos]> (positions new_state))
            new_state in
        let new_state :=
          set_wallet_balance (wallet_balance new_state + (pnl - commission)) new_state in
        let new_state := set_total_pnl (total_pnl new_state + pnl) new_state in
        Ok (record_fill clock order exec_price pnl commission new_state)
  end.

(** [execute_order] with a bound on the depth of the recursion. *)
Fixpoint execute_order_fuel (fuel : nat) (clock : Clock) (order : Order)
    (state : TradingState) (market_data : MarketData) : result TradingState :=
  match fuel with
  | O => OutOfFuel
  | S fuel' =>
      execute_order_body (execute_order_fuel fuel' clock) clock order state market_data
  end.

(** [PaperTradingEngine.execute_order]: two activations always suffice
    ([execute_order_fuel_enough] below). *)
Definition execute_order : Clock -> Order -> TradingState -> MarketData -> result TradingState :=
  execute_order_fuel 2.

(** A run of the engine: each order is executed on the state the previous
    execution returned; the states returned, in order. *)
Fixpoint execute_orders (steps : list (Clock * Order * MarketData)) (state : TradingState)
    : result (list TradingState) :=
  match steps with
  | [] => Ok []
  | (clock, order, market_data) :: steps' =>
      bind (execute_order clock order state market_data) (fun state' =>
      bind (execute_orders steps' state') (fun trace => Ok (state' :: trace)))
  end.

(** Along a run, each high-water mark is at least the one before it. *)
Fixpoint hwm_non_decreasing (previous : TradingState) (trace : list TradingState) : Prop :=
  match trace with
  | [] => True
  | state :: trace' =>
      (high_water_mark (risk_metrics previous) <=? high_water_mark (risk_metrics state)) = true
      /\ hwm_non_decreasing state trace'
  end.

End Core.

(** *** risk_controller.py *)

Section RiskController.
Context {F : Type} {A : Arith F}.
Local Open Scope num_scope.

(** What pandas computes for the risk controller, left uninterpreted:
    [df['close'].pct_change().dropna()] and
    [returns.rolling(window=w).std().iloc[-1]]. *)
Context (pct_change_dropna : list F -> list F).
Context (rolling_std_last : nat -> list F -> F).

Definition KELLY_HISTORY : nat := 50.
Definition MAX_RISK_PER_TRADE : F := lit (15 # 1000).
Definition RECOVERY_MODE_RISK : F := lit (5 # 1000).
Definition VOLATILITY_PERIODS : nat := 20.
Definition VOLATILITY_TARGET : F := lit (2 # 100).
Definition DRAWDOWN_HARD_STOP : F := lit (8 # 100).
Definition DRAWDOWN_LEVEL_1 : F := lit (5 # 100).
Definition DRAWDOWN_REDUCTION_STEP : F := lit (25 # 100).
Definition MIN_ORDER_USD : F := lit 10.
Definition MAX_ORDER_USD : F := lit 1000.

(** [sum(xs)]: Python starts from the integer 0. *)
Definition pysum (xs : list F) : F := fold_left add xs (of_int 0).

(** [len(xs)] as a number. *)
Definition len (B : Type) (xs : list B) : F := of_int (Z.of_nat (length xs)).
Arguments len {B} xs.

(** [RiskManager._calculate_win_rate_and_odds] *)
Definition _calculate_win_rate_and_odds (trades : list (@Trade F)) : F * F :=
  let recent_trades := drop (length trades - KELLY_HISTORY)%nat trades in
  if (length recent_trades <? 20)%nat then (lit (5 # 10), lit 1)
  else
    let wins := map trade_pnl (List.filter (fun t => trade_pnl t >? of_int 0) recent_trades) in
    let losses :=
      map (fun t => fabs (trade_pnl t))
        (List.filter (fun t => trade_pnl t <=? of_int 0) recent_trades) in
    if bool_decide (wins = []) || bool_decide (losses = []) then (lit (5 # 10), lit 1)
    else
      let win_rate := len wins / len recent_trades in
      let avg_win := pysum wins / len wins in
      let avg_loss := pysum losses / len losses in
      let odds := if avg_loss >? of_int 0 then avg_win / avg_loss else inf in
      (win_rate, odds).

(** [RiskManager._calculate_realized_volatility] *)
Definition _calculate_realized_volatility (historical_data : gmap string (list F)) : F :=
  match historical_data !! "1h" with
  | None => VOLATILITY_TARGET
  | Some df =>
      if bool_decide (df = []) then VOLATILITY_TARGET
      else
        let returns := pct_change_dropna df in
        if (length returns <? VOLATILITY_PERIODS)%nat then VOLATILITY_TARGET
        else
          let vol := rolling_std_last VOLATILITY_PERIODS returns in
          if is_finite vol && (vol >? of_int 0) then vol else VOLATILITY_TARGET
  end.

(** [RiskManager.check_drawdown]: the adjustment factor and the hard-stop
    flag.  The argument of [int] is finite: 0.05 <= drawdown < 0.08 there. *)
Definition check_drawdown (state : @TradingState F) : F * bool :=
  let drawdown := current_drawdown (risk_metrics state) in
  if drawdown >=? DRAWDOWN_HARD_STOP then (lit 0, true)
  else if drawdown >=? DRAWDOWN_LEVEL_1 then
    let dd_steps := trunc ((drawdown - DRAWDOWN_LEVEL_1) / lit (1 # 100)) in
    let reduction := of_int (dd_steps + 1) * DRAWDOWN_REDUCTION_STEP in
    let factor := pymax (of_int 0) (lit 1 - reduction) in
    (factor, false)
  else (lit 1, false).

(** The decisions a signal carries: 'WAITING', 'LONG_ENTRY', 'SHORT_ENTRY'. *)
Inductive Decision : Type := WAITING | LONG_ENTRY | SHORT_ENTRY.

(** Modelled from the spec: [core_engine.PredictionSignal], built with the
    keywords of [predict_multi_timeframe]'s return statement; [details] keeps
    the insertion order of the dictionary. *)
Record PredictionSignal : Type := {
  signal_timestamp : Z;
  signal_symbol : string;
  fused_prediction_pct : F;
  confidence : F;
  decision : Decision;
  details : list (string * F)
}.

(** [RiskManager.calculate_position_size] *)
Definition calculate_position_size (state : @TradingState F) (signal : PredictionSignal)
    (price : F) : F :=
  let '(dd_factor, hard_stop) := check_drawdown state in
  if hard_stop then lit 0
  else
    let in_recovery_mode :=
      wallet_balance state <? high_water_mark (risk_metrics state) in
    let max_risk := if in_recovery_mode then RECOVERY_MODE_RISK else MAX_RISK_PER_TRADE in
    let '(win_rate, odds) := _calculate_win_rate_and_odds (trades state) in
    let kelly_fraction :=
      if odds >? of_int 0 then (win_rate * odds - (of_int 1 - win_rate)) / odds
      else lit 0 in
    let target_risk_pct := pymax (of_int 0) (kelly_fraction * lit (5 # 10)) in
    let final_risk_pct := pymin target_risk_pct max_risk in
    let volatility := _calculate_realized_volatility (historical_data state) in
    let vol_adj_factor := pymin (lit 1) (VOLATILITY_TARGET / volatility) in
    let final_risk_pct := final_risk_pct * (dd_factor * vol_adj_factor) in
    if final_risk_pct <=? of_int 0 then lit 0
    else
      let position_size_usd := wallet_balance state * final_risk_pct in
      let position_size_usd :=
        pymax MIN_ORDER_USD (pymin position_size_usd MAX_ORDER_USD) in
      let position_size_usd :=
        if position_size_usd >? wallet_balance state then wallet_balance state
        else position_size_usd in
      if price <=? of_int 0 then lit 0
      else position_size_usd / price.

End RiskController.

(** *** chronos_predictor.py: the fusion of the per-timeframe results *)

Section Fusion.
Context {F : Type} {A : Arith F}.
Local Open Scope num_scope.

Definition TIME_FRAMES : list string := ["1m"; "3m"; "5m"; "15m"; "30m"; "1h"].
Definition TIME_FRAME_WEIGHTS : list (string * F) :=
  [("1m", lit (10 # 100)); ("3m", lit (15 # 100)); ("5m", lit (20 # 100));
   ("15m", lit (25 # 100)); ("30m", lit (15 # 100)); ("1h", lit (15 # 100))].
Definition HISTORICAL_WINDOW : nat := 200.
Definition CONFIDENCE_THRESHOLD : F := lit (7 # 10).

(** A dict that keeps insertion order: [d[k] = v] and [d.get(k, default)]. *)
Fixpoint dict_set {B : Type} (k : string) (v : B) (d : list (string * B)) : list (string * B) :=
  match d with
  | [] => [(k, v)]
  | (k', v') :: d' => if bool_decide (k' = k) then (k, v) :: d' else (k', v') :: dict_set k v d'
  end.

Fixpoint dict_get {B : Type} (k : string) (default : B) (d : list (string * B)) : B :=
  match d with
  | [] => default
  | (k', v') :: d' => if bool_decide (k' = k) then v' else dict_get k default d'
  end.

(** What lines 117-142 of [_predict_single_timeframe] compute from the last
    [HISTORICAL_WINDOW] closes with the forecasting model, left uninterpreted:
    [Some (pred_change_pct, adj_confidence)], or [None] when the block raises
    or the last price is 0. *)
Context (forecast : string -> list F -> option (F * F)).

(** [_predict_single_timeframe]: (timeframe, prediction, confidence). *)
Definition _predict_single_timeframe (timeframe : string) (price_series : list F)
    : string * F * F :=
  if (length price_series <? HISTORICAL_WINDOW)%nat then (timeframe, lit 0, lit 0)
  else
    let context_series := drop (length price_series - HISTORICAL_WINDOW)%nat price_series in
    match forecast timeframe context_series with
    | Some (pred_change_pct, adj_confidence) => (timeframe, pred_change_pct, adj_confidence)
    | None => (timeframe, lit 0, lit 0)
    end.

(** The tasks [predict_multi_timeframe] submits (lines 155-160), with their
    results, in submission order. *)
Definition submitted (state : @TradingState F) : list (string * F * F) :=
  omap (fun timeframe =>
          match historical_data state !! timeframe with
          | Some df =>
              if bool_decide (df = []) then None
              else Some (_predict_single_timeframe timeframe df)
          | None => None
          end) TIME_FRAMES.

(** Lines 162-166: keep the results above the confidence threshold, in the
    order the futures complete. *)
Definition retained (completed : list (string * F * F)) : list (string * (F * F)) :=
  fold_left
    (fun results '(timeframe, prediction, confidence) =>
       if confidence >? CONFIDENCE_THRESHOLD
       then dict_set timeframe (prediction, confidence) results
       else results)
    completed [].

(** Lines 168-193 of [predict_multi_timeframe], on the results of the futures
    in the order [as_completed] yields them. *)
Definition predict_multi_timeframe (now : Z) (symbol : string)
    (completed : list (string * F * F)) : PredictionSignal :=
  let results := retained completed in
  let '(fused_prediction, total_weight) :=
    if bool_decide (results = []) then (lit 0, lit 0)
    else
      let '(fused_prediction, total_weight) :=
        fold_left
          (fun '(fused_prediction, total_weight) '(timeframe, (prediction, confidence)) =>
             let weight := dict_get timeframe (of_int 0) TIME_FRAME_WEIGHTS in
             (fused_prediction + prediction * confidence * weight,
              total_weight + confidence * weight))
          results (lit 0, lit 0) in
      if total_weight >? of_int 0 then (fused_prediction / total_weight, total_weight)
      else (fused_prediction, total_weight) in
  let decision :=
    if fused_prediction >? lit (5 # 10000) then LONG_ENTRY
    else if fused_prediction <? lit (- 5 # 10000) then SHORT_ENTRY
    else WAITING in
  {| signal_timestamp := now;
     signal_symbol := symbol;
     fused_prediction_pct := fused_prediction * of_int 100;
     confidence :=
       if bool_decide (results = []) then lit 0
       else total_weight / pysum (map snd TIME_FRAME_WEIGHTS);
     decision := decision;
     details := map (fun '(tf, (prediction, _)) => (tf, prediction * of_int 100)) results |}.

End Fusion.

(** *** chronos_predictor.py: the confidence of one timeframe *)

Section Confidence.
Context {F : Type} {A : Arith F}.
Local Open Scope num_scope.

(** Lines 136-140 of [_predict_single_timeframe]: the confidence reported
    for a timeframe, from the mean width of the forecast interval, the last
    close (not 0, line 130) and the rolling volatility (finite, line 122). *)
Definition adjusted_confidence (ci_width last_price volatility : F) : F :=
  let confidence := lit 1 - ci_width / last_price in
  let confidence := pymax (lit 0) (pymin (lit 1) confidence) in
  let vol_adj_factor := lit 1 - pymin (volatility * of_int 5) (lit (5 # 10)) in
  confidence * vol_adj_factor.

End Confidence.

(** *** paper_trader.py: mark-to-market *)

Section MarkToMarket.
Context {F : Type} {A : Arith F}.
Local Open Scope num_scope.

(** [PaperTradingEngine.calculate_unrealized_pnl]: the dictionary symbol ->
    pnl over the open positions, every one valued at [market_data.price]. *)
Definition calculate_unrealized_pnl (state : @TradingState F) (market_data : MarketData)
    : gmap string F :=
  (fun position =>
     let entry_cost := pos_size position * pos_entry_price position in
     let current_value := pos_size position * md_price market_data in
     match pos_side position with
     | LONG => current_value - entry_cost
     | SHORT => entry_cost - current_value
     end) <$> positions state.

End MarkToMarket.

(** *** market_feed.py *)

(** The exceptions reading a message can raise: [json.loads] on text that is
    not JSON, [data.get] on JSON that is not an object, [payload[key]] on a
    missing key or on a payload that cannot be indexed, [float] on a value of
    another type or on a string that is no number, a book level that is not
    a pair. *)
Inductive FeedError : Type :=
| JSONDecodeError
| KeyError
| TypeError
| ValueError
| AttributeError.

(** The clause of line 216 catches three of them; the others leave
    [_handle_message]. *)
Definition caught (e : FeedError) : bool :=
  match e with
  | JSONDecodeError | KeyError | TypeError => true
  | ValueError | AttributeError => false
  end.

(** What reading one value of a payload gives, [float(payload['c'])] or the
    comprehension of line 194: the value, or the exception raised. *)
Inductive Parse (T : Type) : Type :=
| Parsed (v : T)
| Fails (e : FeedError).
Arguments Parsed {T} v.
Arguments Fails {T} e.

Section MarketFeed.
Context {F : Type} {A : Arith F}.
Local Open Scope num_scope.

(** [MarketMicrostructure.calculate_relative_spread], in basis points. *)
Definition calculate_relative_spread (ask bid : F) : F :=
  if (ask <=? of_int 0) || (bid <=? of_int 0) then lit 0
  else
    let mid_price := (ask + bid) / of_int 2 in
    if mid_price =? of_int 0 then lit 0
    else (ask - bid) / mid_price * of_int 10000.

(** [MarketMicrostructure.calculate_buy_sell_pressure] *)
Definition calculate_buy_sell_pressure (bids asks : list (F * F)) : F :=
  let total_bid_volume := pysum (map snd bids) in
  let total_ask_volume := pysum (map snd asks) in
  if total_ask_volume =? of_int 0
  then (if total_bid_volume >? of_int 0 then inf else lit 1)
  else total_bid_volume / total_ask_volume.

(** [MarketMicrostructure.calculate_instant_liquidity] *)
Definition calculate_instant_liquidity (bids asks : list (F * F)) : F :=
  let total_bid_value := pysum (map (fun '(price, qty) => price * qty) bids) in
  let total_ask_value := pysum (map (fun '(price, qty) => price * qty) asks) in
  total_bid_value + total_ask_value.

(** [BinanceWebSocketManager._data_cache]: the keys are written only by
    [_handle_message], each with a value of one type. *)
Record DataCache : Type := {
  cache_price : option F;
  cache_bid : option F;
  cache_ask : option F;
  cache_timestamp : option Z;
  cache_top_5_bids : option (list (F * F));
  cache_top_5_asks : option (list (F * F));
  cache_trade_volume : option F
}.

Definition empty_cache : DataCache :=
  {| cache_price := None; cache_bid := None; cache_ask := None; cache_timestamp := None;
     cache_top_5_bids := None; cache_top_5_asks := None; cache_trade_volume := None |}.

(** A message of the combined stream as lines 178-197 read it: text that
    raises before the cache is touched (lines 178-187), no stream name or no
    payload (line 182), a ticker with what its fields 'c', 'b', 'a' give, a
    depth update with its two sides, a trade with its quantity 'q', or a
    stream of another name. *)
Inductive StreamMessage : Type :=
| Unreadable (e : FeedError)
| NoStreamOrPayload
| TickerMessage (c b a : Parse F)
| DepthMessage (bids asks : Parse (list (F * F)))
| TradeMessage (q : Parse F)
| OtherStream.

(** Modelled from the spec: what [_handle_message] passes to the callback,
    [core_engine.MarketData] with the keywords of lines 202-214; the fields
    the paper trader reads are those of [MarketData]. *)
Record FeedSnapshot : Type := {
  snap_timestamp : Z;
  snap_symbol : string;
  snap_market : @MarketData F;
  snap_trade_volume : F
}.

(** The assignments to the keys of the cache. *)
Definition set_cache_price (v : F) (cache : DataCache) : DataCache :=
  {| cache_price := Some v; cache_bid := cache_bid cache; cache_ask := cache_ask cache;
     cache_timestamp := cache_timestamp cache;
     cache_top_5_bids := cache_top_5_bids cache;
     cache_top_5_asks := cache_top_5_asks cache;
     cache_trade_volume := cache_trade_volume cache |}.

Definition set_cache_bid (v : F) (cache : DataCache) : DataCache :=
  {| cache_price := cache_price cache; cache_bid := Some v; cache_ask := cache_ask cache;
     cache_timestamp := cache_timestamp cache;
     cache_top_5_bids := cache_top_5_bids cache;
     cache_top_5_asks := cache_top_5_asks cache;
     cache_trade_volume := cache_trade_volume cache |}.

Definition set_cache_ask (v : F) (cache : DataCache) : DataCache :=
  {| cache_price := cache_price cache; cache_bid := cache_bid cache; cache_ask := Some v;
     cache_timestamp := cache_timestamp cache;
     cache_top_5_bids := cache_top_5_bids cache;
     cache_top_5_asks := cache_top_5_asks cache;
     cache_trade_volume := cache_trade_volume cache |}.

Definition set_cache_timestamp (now : Z) (cache : DataCache) : DataCache :=
  {| cache_price := cache_price cache; cache_bid := cache_bid cache;
     cache_ask := cache_ask cache; cache_timestamp := Some now;
     cache_top_5_bids := cache_top_5_bids cache;
     cache_top_5_asks := cache_top_5_asks cache;
     cache_trade_volume := cache_trade_volume cache |}.

Definition set_cache_top_5_bids (v : list (F * F)) (cache : DataCache) : DataCache :=
  {| cache_price := cache_price cache; cache_bid := cache_bid cache;
     cache_ask := cache_ask cache; cache_timestamp := cache_timestamp cache;
     cache_top_5_bids := Some v;
     cache_top_5_asks := cache_top_5_asks cache;
     cache_trade_volume := cache_trade_volume cache |}.

Definition set_cache_top_5_asks (v : list (F * F)) (cache : DataCache) : DataCache :=
  {| cache_price := cache_price cache; cache_bid := cache_bid cache;
     cache_ask := cache_ask cache; cache_timestamp := cache_timestamp cache;
     cache_top_5_bids := cache_top_5_bids cache;
     cache_top_5_asks := Some v;
     cache_trade_volume := cache_trade_volume cache |}.

Definition set_cache_trade_volume (v : F) (cache : DataCache) : DataCache :=
  {| cache_price := cache_price cache; cache_bid := cache_bid cache;
     cache_ask := cache_ask cache; cache_timestamp := cache_timestamp cache;
     cache_top_5_bids := cache_top_5_bids cache;
     cache_top_5_asks := cache_top_5_asks cache;
     cache_trade_volume := Some v |}.

(** One assignment [self._data_cache[key] = value]: the right-hand side is
    evaluated first, and when it raises the key keeps its value and the
    statements after it do not run. *)
Definition assign {T : Type} (set : T -> DataCache -> DataCache) (value : Parse T)
    (rest : DataCache -> DataCache * option FeedError) (cache : DataCache)
    : DataCache * option FeedError :=
  match value with
  | Parsed v => rest (set v cache)
  | Fails e => (cache, Some e)
  end.

(** Lines 188-197 of [_handle_message]: the cache after the assignments of
    the branch of the message, read at time [now], and the exception that
    ended them, if any. *)
Definition update_cache (now : Z) (message : StreamMessage) (cache : DataCache)
    : DataCache * option FeedError :=
  match message with
  | TickerMessage c b a =>
      assign set_cache_price c
        (assign set_cache_bid b
           (assign set_cache_ask a
              (fun cache => (set_cache_timestamp now cache, None)))) cache
  | DepthMessage bids asks =>
      assign set_cache_top_5_bids bids
        (assign set_cache_top_5_asks asks (fun cache => (cache, None))) cache
  | TradeMessage q =>
      assign set_cache_trade_volume q (fun cache => (cache, None)) cache
  | Unreadable _ | NoStreamOrPayload | OtherStream => (cache, None)
  end.

(** Lines 200-214 of [_handle_message]: the snapshot formed from the cache
    once it holds a price and a timestamp; [symbol] is [self.symbol.upper()]. *)
Definition snapshot_of_cache (symbol : string) (cache : DataCache) : option FeedSnapshot :=
  match cache_price cache, cache_timestamp cache with
  | Some price, Some timestamp =>
      Some {| snap_timestamp := timestamp;
              snap_symbol := symbol;
              snap_market :=
                {| md_price := price;
                   md_bid := default (lit 0) (cache_bid cache);
                   md_ask := default (lit 0) (cache_ask cache);
                   md_spread :=
                     calculate_relative_spread (default (lit 0) (cache_ask cache))
                       (default (lit 0) (cache_bid cache));
                   md_top_5_bids := default [] (cache_top_5_bids cache);
                   md_top_5_asks := default [] (cache_top_5_asks cache) |};
              snap_trade_volume := default (lit 0) (cache_trade_volume cache) |}
  | _, _ => None
  end.

(** How a call of [_handle_message] ends: it returns, having handed a
    snapshot to the callback or not, or an exception leaves it. *)
Inductive Handled : Type :=
| Returned (emitted : option FeedSnapshot)
| Raised (e : FeedError).

(** The [except] clause of lines 216-217: the exceptions it names are logged
    and the call returns without calling the callback. *)
Definition handle_exception (e : FeedError) : Handled :=
  if caught e then Returned None else Raised e.

(** [BinanceWebSocketManager._handle_message]: the cache it leaves and how it
    ends. *)
Definition _handle_message (symbol : string) (now : Z) (message : StreamMessage)
    (cache : DataCache) : DataCache * Handled :=
  match message with
  | Unreadable e => (cache, handle_exception e)
  | NoStreamOrPayload => (cache, Returned None)
  | _ =>
      match update_cache now message cache with
      | (cache, Some e) => (cache, handle_exception e)
      | (cache, None) => (cache, Returned (snapshot_of_cache symbol cache))
      end
  end.

(** The snapshot a call handed to the callback, as a list. *)
Definition handed (outcome : Handled) : list FeedSnapshot :=
  match outcome with
  | Returned (Some snapshot) => [snapshot]
  | _ => []
  end.

(** The messages the manager reads, each with the time it is read: the final
    cache and the snapshots handed to the callback, in order.  The cache is
    the manager's (line 106): an exception that leaves [_handle_message] ends
    the connection (line 166), and the messages after it are read on the
    next connection with the cache as it was left. *)
Fixpoint handle_messages (symbol : string) (messages : list (Z * StreamMessage))
    (cache : DataCache) : DataCache * list FeedSnapshot :=
  match messages with
  | [] => (cache, [])
  | (now, message) :: messages' =>
      let '(cache, outcome) := _handle_message symbol now message cache in
      let '(cache, snapshots) := handle_messages symbol messages' cache in
      (cache, handed outcome ++ snapshots)
  end.

End MarketFeed.

(** The reconnection policy of [BinanceWebSocketManager._run_websocket]
    (lines 133-173), over integers. *)

Definition MAX_RECONNECT_DELAY : Z := 60.

(** [len(self._urls)]: one address per entry of [BINANCE_WS_URLS]. *)
Definition URL_COUNT : Z := 2.

(** How one pass of the outer loop ends: with an exception that is logged and
    followed by the wait (lines 152-157 and 164), or with one that restarts
    the loop at once (lines 158-163). *)
Inductive PassEnd : Type := Reconnect | Restart.

(** One pass of the outer loop: whether [create_connection] returned, and how
    the pass ended. *)
Record Pass : Type := {
  pass_connected : bool;
  pass_end : PassEnd
}.

(** The loop variables. *)
Record Backoff : Type := {
  reconnect_delay : Z;
  url_index : Z
}.

Definition initial_backoff : Backoff := {| reconnect_delay := 1; url_index := 0 |}.

(** One pass: the seconds slept, if any, and the loop variables after it. *)
Definition run_pass (pass : Pass) (vars : Backoff) : option Z * Backoff :=
  let reconnect_delay := if pass_connected pass then 1 else reconnect_delay vars in
  match pass_end pass with
  | Restart => (None, {| reconnect_delay := reconnect_delay; url_index := url_index vars |})
  | Reconnect =>
      (Some reconnect_delay,
       {| reconnect_delay := Z.min (reconnect_delay * 2) MAX_RECONNECT_DELAY;
          url_index := (url_index vars + 1) mod URL_COUNT |})
  end.

(** [_run_websocket] over the passes made before the stop event: the address
    tried and the seconds slept in each pass, and the loop variables at the
    end. *)
Fixpoint _run_websocket (passes : list Pass) (vars : Backoff)
    : list (Z * option Z) * Backoff :=
  match passes with
  | [] => ([], vars)
  | pass :: passes' =>
      let '(slept, vars') := run_pass pass vars in
      let '(log, final) := _run_websocket passes' vars' in
      ((url_index vars, slept) :: log, final)
  end.

(** A pass whose connection attempt fails. *)
Definition failed_attempt : Pass := {| pass_connected := false; pass_end := Reconnect |}.

(** ** Notions the statements use *)

Section Statements.
Context {F : Type} {A : Arith F}.
Local Open Scope num_scope.

(** The state an order leaves behind when its symbol has no position
    (lines 76-78). *)
Definition opened (order : @Order F) (market_data : MarketData) (state : TradingState)
    : TradingState :=
  let exec_price := exec_price_of order market_data in
  let order_cost := order_size order * exec_price in
  let new_pos :=
    {| pos_symbol := order_symbol order;
       pos_side := match order_side order with BUY => LONG | SELL => SHORT end;
       pos_size := order_size order; pos_entry_price := exec_price |} in
  set_wallet_balance (wallet_balance state - (order_cost + order_cost * TAKER_FEE))
    (set_positions (<[order_symbol order := new_pos]> (positions state)) state).

(** The state after the full close of [existing_pos], before the residual is
    re-submitted (lines 89-96). *)
Definition closed (order : @Order F) (market_data : MarketData) (existing_pos : Position)
    (state : TradingState) : TradingState :=
  let exec_price := exec_price_of order market_data in
  let pnl := realized_pnl existing_pos (pos_size existing_pos) exec_price in
  set_positions (delete (order_symbol order) (positions state))
    (set_total_pnl (total_pnl state + pnl)
       (set_wallet_balance
          (wallet_balance state + (pnl - order_size order * exec_price * TAKER_FEE)) state)).

(** The residual order of line 99. *)
Definition residual (order : @Order F) (existing_pos : Position) : Order :=
  {| order_timestamp := order_timestamp order; order_symbol := order_symbol order;
     order_side := order_side order;
     order_size := order_size order - pos_size existing_pos;
     order_type := "MARKET" |}.

Definition same_side (existing_pos : @Position F) (order : @Order F) : bool :=
  match pos_side existing_pos, order_side order with
  | LONG, BUY | SHORT, SELL => true
  | _, _ => false
  end.

(** The order whose residual is re-submitted, with the position it closes. *)
Definition needs_residual (order : @Order F) (state : TradingState) : option Position :=
  match positions state !! order_symbol order with
  | Some existing_pos =>
      if negb (same_side existing_pos order)
         && (order_size order >=? pos_size existing_pos)
         && (order_size order >? pos_size existing_pos)
      then Some existing_pos else None
  | None => None
  end.

(** What the comparisons of an arithmetic must satisfy for the high-water
    mark to be monotone: a number below another is at most it, and whatever
    was compared with success is a number, equal to itself. *)
Class OrderLaws : Prop := {
  ltb_leb : forall a b : F, (a <? b) = true -> (a <=? b) = true;
  leb_refl_right : forall a b : F, (a <=? b) = true -> (b <=? b) = true;
  ltb_refl_right : forall a b : F, (a <? b) = true -> (b <=? b) = true
}.

(** A result fails the acceptance test of line 165. *)
Definition rejected (r : string * F * F) : Prop :=
  (snd r >? CONFIDENCE_THRESHOLD) = false.

End Statements.

(** Equality of two numbers of the exact arithmetic, decided on the
    fractions. *)
Definition xq_same (x y : xq) : bool :=
  match x, y with
  | Fin a, Fin b => Qeq_bool a b
  | PInf, PInf | NInf, NInf | NaN, NaN => true
  | _, _ => false
  end.

(** The opposite order side. *)
Definition opposite (side : OrderSide) : OrderSide :=
  match side with BUY => SELL | SELL => BUY end.

(** ** Notions of the further statements *)

Section LedgerNotions.
Context {F : Type} {A : Arith F}.
Local Open Scope num_scope.

(** The state after an order has been added to a position of its side, with
    the averaged entry price (lines 83-86). *)
Definition added (order : @Order F) (market_data : MarketData) (existing_pos : Position)
    (new_entry_price : F) (state : TradingState) : TradingState :=
  let order_cost := order_size order * exec_price_of order market_data in
  set_wallet_balance (wallet_balance state - (order_cost + order_cost * TAKER_FEE))
    (set_positions
       (<[order_symbol order :=
            {| pos_symbol := pos_symbol existing_pos; pos_side := pos_side existing_pos;
               pos_size := pos_size existing_pos + order_size order;
               pos_entry_price := new_entry_price |}]> (positions state)) state).

(** The state after a partial close (lines 102-109). *)
Definition reduced (order : @Order F) (market_data : MarketData) (existing_pos : Position)
    (state : TradingState) : TradingState :=
  let exec_price := exec_price_of order market_data in
  let pnl := realized_pnl existing_pos (order_size order) exec_price in
  set_total_pnl (total_pnl state + pnl)
    (set_wallet_balance
       (wallet_balance state + (pnl - order_size order * exec_price * TAKER_FEE))
       (set_positions
          (<[order_symbol order :=
               {| pos_symbol := pos_symbol existing_pos; pos_side := pos_side existing_pos;
                  pos_size := pos_size existing_pos - order_size order;
                  pos_entry_price := pos_entry_price existing_pos |}]> (positions state))
          state)).

(** The order meets a position of the other side. *)
Definition is_closing (order : @Order F) (state : TradingState) : bool :=
  match positions state !! order_symbol order with
  | Some existing_pos => negb (same_side existing_pos order)
  | None => false
  end.

(** The trade a fill appends accounts for what the fill did to the ledger:
    it carries the order's size, the execution price and the commission on
    their product; a closing fill moves the balance by pnl - commission and
    [total_pnl] by pnl, any other fill has pnl 0 and takes notional +
    commission from the balance. *)
Definition fill_explained (order : @Order F) (market_data : MarketData)
    (state state' : TradingState) : Prop :=
  exists trade,
    trades state' = trades state ++ [trade]
    /\ trade_size trade = order_size order
    /\ trade_exec_price trade = exec_price_of order market_data
    /\ trade_commission trade = order_size order * exec_price_of order market_data * TAKER_FEE
    /\ if is_closing order state
       then total_pnl state' = total_pnl state + trade_pnl trade
            /\ wallet_balance state'
               = wallet_balance state + (trade_pnl trade - trade_commission trade)
       else trade_pnl trade = lit 0
            /\ total_pnl state' = total_pnl state
            /\ wallet_balance state'
               = wallet_balance state
                 - (trade_size trade * trade_exec_price trade + trade_commission trade).

(** The risk metrics agree with the balance: the drawdown is
    (HWM - balance) / HWM under a positive high-water mark and 0 otherwise. *)
Definition risk_metrics_consistent (state : @TradingState F) : Prop :=
  current_drawdown (risk_metrics state)
  = if high_water_mark (risk_metrics state) >? zero
    then (high_water_mark (risk_metrics state) - wallet_balance state)
         / high_water_mark (risk_metrics state)
    else lit 0.

(** The drawdown of a ledger whose balance and high-water mark are finite:
    not negative, and at most 1 when the balance is not negative. *)
Definition drawdown_bounded (state : @TradingState F) : Prop :=
  is_finite (wallet_balance state) = true ->
  is_finite (high_water_mark (risk_metrics state)) = true ->
  (zero <=? current_drawdown (risk_metrics state)) = true
  /\ ((zero <=? wallet_balance state) = true ->
      (current_drawdown (risk_metrics state) <=? lit 1) = true).

End LedgerNotions.

(** ** Notions of the statements about the feed *)

Section FeedNotions.
Context {F : Type} {A : Arith F}.

Definition is_ticker (message : @StreamMessage F) : bool :=
  match message with TickerMessage _ _ _ => true | _ => false end.

Definition is_depth (message : @StreamMessage F) : bool :=
  match message with DepthMessage _ _ => true | _ => false end.

(** The message passes the test of line 182 and every value of its payload
    is read without an exception. *)
Definition parses (message : @StreamMessage F) : bool :=
  match message with
  | TickerMessage (Parsed _) (Parsed _) (Parsed _)
  | DepthMessage (Parsed _) (Parsed _)
  | TradeMessage (Parsed _)
  | OtherStream => true
  | _ => false
  end.

(** The cache holds the values of a ticker read at [now]. *)
Definition cache_holds (now : Z) (c b a : F) (cache : @DataCache F) : Prop :=
  cache_price cache = Some c /\ cache_bid cache = Some b /\ cache_ask cache = Some a
  /\ cache_timestamp cache = Some now.

Definition repeats_ticker (now : Z) (c b a : F) (snapshot : @FeedSnapshot F) : Prop :=
  snap_timestamp snapshot = now
  /\ md_price (snap_market snapshot) = c
  /\ md_bid (snap_market snapshot) = b
  /\ md_ask (snap_market snapshot) = a
  /\ md_spread (snap_market snapshot) = calculate_relative_spread a b.

End FeedNotions.

(** ** Sample inputs *)

Section Scenarios.
Context {F : Type} {A : Arith F}.

(** A snapshot with bid = ask = price, zero spread and an empty book. *)
Definition flat_market (price : Q) : MarketData :=
  {| md_price := lit price; md_bid := lit price; md_ask := lit price;
     md_spread := lit 0; md_top_5_bids := []; md_top_5_asks := [] |}.

(** A snapshot with a positive spread whose best ask holds no quantity. *)
Definition hollow_market : MarketData :=
  {| md_price := lit 100; md_bid := lit 100; md_ask := lit 101;
     md_spread := lit 10; md_top_5_bids := [(lit 100, lit 1)];
     md_top_5_asks := [(lit 101, lit 0); (lit 102, lit 3)] |}.

(** A ledger with a balance, no position and no trade. *)
Definition fresh_state (balance : Q) : TradingState :=
  {| timestamp := 0; wallet_balance := lit balance; total_pnl := lit 0;
     positions := ∅; trades := [];
     risk_metrics := {| high_water_mark := lit balance; current_drawdown := lit 0 |};
     historical_data := ∅ |}.

Definition market_order (side : OrderSide) (size : Q) : Order :=
  {| order_timestamp := 0; order_symbol := "BTCUSDT"; order_side := side;
     order_size := lit size; order_type := "MARKET" |}.

Definition tick (n : Z) : Clock := {| now_trade := n; now_state := n |}.

(** The ledger after buying one unit at 100 from a balance of 1000. *)
Definition long_one : result TradingState :=
  execute_order (tick 1) (market_order BUY 1) (fresh_state 1000) (flat_market 100).

(** The round trip of C1 on that ledger, and the balance the claim promises:
    the initial one minus two commissions. *)
Definition round_trip : result TradingState :=
  bind long_one (fun state1 =>
    execute_order (tick 2) (market_order SELL 1) state1 (flat_market 100)).

Definition round_trip_promised : F :=
  let commission := mul (mul (lit 1) (lit 100)) TAKER_FEE in
  sub (lit 1000) (add commission commission).

Definition round_trip_keeps_notional : Prop :=
  exists state2, round_trip = Ok state2
                 /\ eqb (wallet_balance state2) round_trip_promised = true.

Definition round_trip_loses_notional : Prop :=
  exists state2, round_trip = Ok state2
                 /\ eqb (wallet_balance state2) round_trip_promised = false
                 /\ ltb (wallet_balance state2) (lit 900) = true.

(** The oversized close of C4 and C5: long 1 unit entered at 100, then a
    SELL of 3 units at 110. *)
Definition oversized_sell : result TradingState :=
  bind long_one (fun state1 =>
    execute_order (tick 2) (market_order SELL 3) state1 (flat_market 110)).

(** The balance C4 promises after [oversized_sell] from the balance [w] before
    it: the closing leg of size 1 pays commission on 1 * 110, the opening leg
    of size 2 pays its notional and commission on 2 * 110. *)
Definition two_legs_promised (w : F) : F :=
  let pnl := sub (mul (lit 1) (lit 110)) (mul (lit 1) (lit 100)) in
  let closing := sub pnl (mul (mul (lit 1) (lit 110)) TAKER_FEE) in
  let notional := mul (lit 2) (lit 110) in
  sub (add w closing) (add notional (mul notional TAKER_FEE)).

(** What the code does on [oversized_sell], against C5: one trade is
    appended, the residual's, of size 2 and pnl 0; the pnl of 10 realized by
    the closing leg is in [total_pnl] and in no trade. *)
Definition oversized_close_one_trade : Prop :=
  exists state1 state2 trade,
    long_one = Ok state1 /\ oversized_sell = Ok state2
    /\ trades state2 = trades state1 ++ [trade]
    /\ length (trades state2) = 2%nat
    /\ eqb (trade_size trade) (lit 2) = true
    /\ eqb (trade_pnl trade) zero = true
    /\ eqb (total_pnl state2) (lit 10) = true.

(** What the code does on [oversized_sell], against C4: the long position is
    replaced by a short one of size 2, and the balance ends below the one the
    two legs computed independently give. *)
Definition oversized_close_overcharged : Prop :=
  exists state1 state2 short,
    long_one = Ok state1 /\ oversized_sell = Ok state2
    /\ positions state2 !! "BTCUSDT" = Some short
    /\ pos_side short = SHORT
    /\ eqb (pos_size short) (lit 2) = true
    /\ ltb (wallet_balance state2) (two_legs_promised (wallet_balance state1)) = true.

(** What C3 excludes: after an execution from a ledger whose high-water
    mark is not negative, a drawdown above 1. *)
Definition drawdown_above_one : Prop :=
  exists state',
    leb zero (high_water_mark (risk_metrics (fresh_state 1000))) = true
    /\ execute_order (tick 1) (market_order BUY 20) (fresh_state 1000) (flat_market 100)
       = Ok state'
    /\ ltb (wallet_balance state') zero = true
    /\ ltb (lit 1) (current_drawdown (risk_metrics state')) = true.

(** What C7 excludes: a best ask of quantity zero with a slippage that is not
    zero and a BUY price that is not the ask. *)
Definition hollow_book_slips : Prop :=
  match md_top_5_asks hollow_market with
  | (_, qty) :: _ => eqb qty zero = true
  | [] => False
  end
  /\ eqb (_calculate_slippage (lit 1) hollow_market) zero = false
  /\ eqb (_calculate_slippage (lit 1) hollow_market) (lit 1) = true
  /\ eqb (exec_price_of (market_order BUY 1) hollow_market) (md_ask hollow_market) = false.

(** A run that overdraws the ledger and then closes the position. *)
Definition overdrawn_steps : list (Clock * Order * MarketData) :=
  [(tick 1, market_order BUY 20, flat_market 100);
   (tick 2, market_order SELL 20, flat_market 100)].

Definition overdrawn_trace : list TradingState :=
  match execute_orders overdrawn_steps (fresh_state 1000) with
  | Ok trace => trace
  | _ => []
  end.

(** A ledger 6% below its high-water mark of 1000. *)
Definition six_percent_down : TradingState :=
  {| timestamp := 0; wallet_balance := lit 940; total_pnl := lit (-60);
     positions := ∅; trades := [];
     risk_metrics := {| high_water_mark := lit 1000; current_drawdown := lit (6 # 100) |};
     historical_data := ∅ |}.

(** Two results that do not pass the threshold: a failed computation and a
    confidence of exactly 0.7. *)
Definition weak_results : list (string * F * F) :=
  [("1m", lit 0, lit 0); ("5m", lit (2 # 100), lit (7 # 10))].

(** The ledger [long_one] returns. *)
Definition long_one_state : TradingState :=
  match long_one with
  | Ok state => state
  | _ => fresh_state 1000
  end.

(** A ledger that also holds a position in another symbol. *)
Definition two_symbol_state : TradingState :=
  set_positions
    {[ "ETHUSDT" := {| pos_symbol := "ETHUSDT"; pos_side := SHORT; pos_size := lit 2;
                       pos_entry_price := lit 50 |} ]}
    (fresh_state 1000).

Definition two_symbol_bought : TradingState :=
  match execute_order (tick 1) (market_order BUY 1) two_symbol_state (flat_market 100) with
  | Ok state => state
  | _ => two_symbol_state
  end.

(** The ledger after [long_one] is sold back at 100. *)
Definition long_one_closed : TradingState :=
  match execute_order (tick 2) (market_order SELL 1) long_one_state (flat_market 100) with
  | Ok state => state
  | _ => long_one_state
  end.

End Scenarios.

(** ** Further sample inputs *)

Section FurtherScenarios.
Context {F : Type} {A : Arith F}.

(** A ledger with two closes in its one-minute history. *)
Definition short_history_state : TradingState :=
  {| timestamp := 0; wallet_balance := lit 1000; total_pnl := lit 0;
     positions := ∅; trades := [];
     risk_metrics := {| high_water_mark := lit 1000; current_drawdown := lit 0 |};
     historical_data := {[ "1m" := [lit 100; lit 101] ]} |}.

(** A ledger whose history holds twenty-five fills that broke even and one
    winner, no fill that lost. *)
Definition unbeaten_state : TradingState :=
  let fill pnl :=
    {| trade_timestamp := 0; trade_symbol := "BTCUSDT"; trade_side := BUY;
       trade_exec_price := lit 100; trade_size := lit 1; trade_pnl := lit pnl;
       trade_commission := lit (4 # 100) |} in
  set_trades (replicate 25 (fill 0%Q) ++ [fill 10%Q]) (fresh_state 1000).

End FurtherScenarios.

(** ** Notions of the rounding of binary64 *)

Section RoundingNotions.
Local Open Scope num_scope.

(** Something was lost on the way to this record. *)
Definition inexact (mrs : shr_record) : bool := shr_r mrs || shr_s mrs.

(** Shifting keeps the mantissa under a bound [X] counted in units of the
    first exponent, strictly so once anything was lost. *)
Definition below (k : Z) (X : Z) (mrs : shr_record) : Prop :=
  shr_m mrs * 2 ^ k <= X /\ (inexact mrs = true -> shr_m mrs * 2 ^ k < X).

(** The value is zero or has at most [K] binary digits before the point:
    it is below 2^K in absolute value, and finite. *)
Definition SFmag_le (K : Z) (x : spec_float) : Prop :=
  match x with
  | S754_zero _ => True
  | S754_finite _ m e => Zpos (digits2_pos m) + e <= K
  | _ => False
  end.

(** Zero, finite or infinite with the given sign. *)
Definition SFsigned (sx : bool) (x : spec_float) : Prop :=
  match x with
  | S754_zero s | S754_finite s _ _ | S754_infinity s => s = sx
  | S754_nan => False
  end.

Definition SFmag_ge (L : Z) (y : spec_float) : Prop :=
  match y with
  | S754_finite _ m e => L <= Zpos (digits2_pos m) + e
  | _ => False
  end.

(** A float that is zero or finite with at most [K] binary digits before the
    point. *)
Definition mag_le (K : Z) (x : float) : Prop := SFmag_le K (Prim2SF x).

Definition mag_leb (K : Z) (x : float) : bool :=
  match Prim2SF x with
  | S754_zero _ => true
  | S754_finite _ m e => (Zpos (digits2_pos m) + e <=? K)%Z
  | _ => false
  end.

(** The factor of the tier branch of [check_drawdown], for a number of steps
    plus one between -127 and 128. *)
Definition tier_factor (z : Z) : float :=
  pymax (of_int 0) (lit 1 - of_int z * DRAWDOWN_REDUCTION_STEP).

End RoundingNotions.

(** ** What holds for every arithmetic *)

Section CoreFacts.
Context {F : Type} {A : Arith F}.
Local Open Scope num_scope.

(** What [record_fill], [opened] and [closed] change. *)
Lemma record_fill_positions clock order exec_price pnl commission state :
  positions (record_fill clock order exec_price pnl commission state) = positions state.
Proof. reflexivity. Qed.

Lemma record_fill_wallet_balance clock order exec_price pnl commission state :
  wallet_balance (record_fill clock order exec_price pnl commission state)
  = wallet_balance state.
Proof. reflexivity. Qed.

Lemma record_fill_total_pnl clock order exec_price pnl commission state :
  total_pnl (record_fill clock order exec_price pnl commission state) = total_pnl state.
Proof. reflexivity. Qed.

Lemma record_fill_trades clock order exec_price pnl commission state :
  trades (record_fill clock order exec_price pnl commission state)
  = trades state
    ++ [{| trade_timestamp := now_trade clock; trade_symbol := order_symbol order;
           trade_side := order_side order; trade_exec_price := exec_price;
           trade_size := order_size order; trade_pnl := pnl;
           trade_commission := commission |}].
Proof. reflexivity. Qed.

Lemma record_fill_risk_metrics clock order exec_price pnl commission state :
  risk_metrics (record_fill clock order exec_price pnl commission state)
  = risk_metrics (_update_risk_metrics state).
Proof. reflexivity. Qed.

Lemma opened_positions order market_data state :
  positions (opened order market_data state)
  = <[order_symbol order :=
        {| pos_symbol := order_symbol order;
           pos_side := match order_side order with BUY => LONG | SELL => SHORT end;
           pos_size := order_size order;
           pos_entry_price := exec_price_of order market_data |}]> (positions state).
Proof. reflexivity. Qed.

Lemma opened_wallet_balance order market_data state :
  wallet_balance (opened order market_data state)
  = wallet_balance state
    - (order_size order * exec_price_of order market_data
       + order_size order * exec_price_of order market_data * TAKER_FEE).
Proof. reflexivity. Qed.

Lemma opened_trades order market_data state :
  trades (opened order market_data state) = trades state.
Proof. reflexivity. Qed.

Lemma closed_positions order market_data existing_pos state :
  positions (closed order market_data existing_pos state)
  = delete (order_symbol order) (positions state).
Proof. reflexivity. Qed.

Lemma closed_wallet_balance order market_data existing_pos state :
  wallet_balance (closed order market_data existing_pos state)
  = wallet_balance state
    + (realized_pnl existing_pos (pos_size existing_pos) (exec_price_of order market_data)
       - order_size order * exec_price_of order market_data * TAKER_FEE).
Proof. reflexivity. Qed.

Lemma closed_total_pnl order market_data existing_pos state :
  total_pnl (closed order market_data existing_pos state)
  = total_pnl state
    + realized_pnl existing_pos (pos_size existing_pos) (exec_price_of order market_data).
Proof. reflexivity. Qed.

Lemma closed_trades order market_data existing_pos state :
  trades (closed order market_data existing_pos state) = trades state.
Proof. reflexivity. Qed.

(** An order on a symbol with no position opens one, whatever the callee of
    the recursive call is: that call is not reached. *)
Lemma execute_order_body_open rec clock order state market_data :
  positions state !! order_symbol order = None ->
  execute_order_body rec clock order state market_data
  = Ok (record_fill clock order (exec_price_of order market_data) (lit 0)
          (order_size order * exec_price_of order market_data * TAKER_FEE)
          (opened order market_data state)).
Proof.
  intros Hnone. unfold execute_order_body. rewrite Hnone. reflexivity.
Qed.

(** The recursive call is made only on a state that holds no position for the
    order's symbol: two callees that agree there give the same activation. *)
Lemma execute_order_body_ext rec rec' clock order state market_data :
  (forall o s, positions s !! order_symbol o = None ->
               rec o s market_data = rec' o s market_data) ->
  execute_order_body rec clock order state market_data
  = execute_order_body rec' clock order state market_data.
Proof.
  intros Hagree. unfold execute_order_body.
  destruct (positions state !! order_symbol order) as [existing_pos|]; [|reflexivity].
  destruct (match pos_side existing_pos, order_side order with
            | LONG, BUY | SHORT, SELL => true | _, _ => false end); [reflexivity|].
  destruct (order_size order >=? pos_size existing_pos); [|reflexivity].
  destruct (order_size order >? pos_size existing_pos); [|reflexivity].
  apply Hagree. cbn. apply lookup_delete_eq.
Qed.

(** With fuel for one activation, an order on a symbol with no position is
    executed. *)
Lemma execute_order_fuel_open fuel clock order state market_data :
  positions state !! order_symbol order = None ->
  execute_order_fuel (S fuel) clock order state market_data
  = Ok (record_fill clock order (exec_price_of order market_data) (lit 0)
          (order_size order * exec_price_of order market_data * TAKER_FEE)
          (opened order market_data state)).
Proof. intros Hnone. cbn [execute_order_fuel]. by apply execute_order_body_open. Qed.

(** More fuel than two activations changes nothing. *)
Lemma execute_order_fuel_enough fuel clock order state market_data :
  execute_order_fuel (S (S fuel)) clock order state market_data
  = execute_order clock order state market_data.
Proof.
  unfold execute_order.
  change (execute_order_body (execute_order_fuel (S fuel) clock) clock order state market_data
          = execute_order_body (execute_order_fuel 1 clock) clock order state market_data).
  apply execute_order_body_ext. intros o s Hnone.
  by rewrite !execute_order_fuel_open.
Qed.

(** An oversized order against a position of the other side: the position is
    closed and the residual opens a fresh one.  The fill that is recorded is
    the residual's. *)
Lemma execute_order_oversized clock order state market_data existing_pos :
  positions state !! order_symbol order = Some existing_pos ->
  same_side existing_pos order = false ->
  (order_size order >=? pos_size existing_pos) = true ->
  (order_size order >? pos_size existing_pos) = true ->
  execute_order clock order state market_data
  = let rem_order := residual order existing_pos in
    Ok (record_fill clock rem_order (exec_price_of rem_order market_data) (lit 0)
          (order_size rem_order * exec_price_of rem_order market_data * TAKER_FEE)
          (opened rem_order market_data (closed order market_data existing_pos state))).
Proof.
  intros Hpos Hside Hge Hgt. unfold execute_order.
  cbn [execute_order_fuel]. unfold execute_order_body at 1.
  rewrite Hpos. unfold same_side in Hside. rewrite Hside, Hge, Hgt.
  rewrite execute_order_body_open; [reflexivity|].
  cbn. apply lookup_delete_eq.
Qed.

(** An order of exactly the size of a position of the other side closes it
    (lines 88-96, then 111-117). *)
Lemma execute_order_full_close clock order state market_data existing_pos :
  positions state !! order_symbol order = Some existing_pos ->
  same_side existing_pos order = false ->
  (order_size order >=? pos_size existing_pos) = true ->
  (order_size order >? pos_size existing_pos) = false ->
  execute_order clock order state market_data
  = Ok (record_fill clock order (exec_price_of order market_data)
          (realized_pnl existing_pos (pos_size existing_pos) (exec_price_of order market_data))
          (order_size order * exec_price_of order market_data * TAKER_FEE)
          (closed order market_data existing_pos state)).
Proof.
  intros Hpos Hside Hge Hgt. unfold execute_order.
  cbn [execute_order_fuel]. unfold execute_order_body at 1.
  rewrite Hpos. unfold same_side in Hside. rewrite Hside, Hge, Hgt.
  reflexivity.
Qed.

(** Every execution that returns has appended exactly one trade, the
    oversized close included: its closing leg returns through the recursive
    call of line 100 and never reaches line 112. *)
Lemma execute_order_appends_one_trade clock order state market_data state' :
  execute_order clock order state market_data = Ok state' ->
  exists trade, trades state' = trades state ++ [trade].
Proof.
  unfold execute_order. cbn [execute_order_fuel]. unfold execute_order_body at 1.
  destruct (positions state !! order_symbol order) as [existing_pos|] eqn:Hpos.
  - destruct (match pos_side existing_pos, order_side order with
              | LONG, BUY | SHORT, SELL => true | _, _ => false end).
    + unfold pydiv, bind.
      destruct (_ =? zero); [discriminate|].
      intros [= <-]. eexists. reflexivity.
    + destruct (order_size order >=? pos_size existing_pos).
      * destruct (order_size order >? pos_size existing_pos).
        -- rewrite execute_order_body_open by (cbn; apply lookup_delete_eq).
           intros [= <-]. eexists. reflexivity.
        -- intros [= <-]. eexists. reflexivity.
      * intros [= <-]. eexists. reflexivity.
  - intros [= <-]. eexists. reflexivity.
Qed.

(** Every execution that returns has recomputed the risk metrics last, from
    the high-water mark the call started with. *)
Lemma execute_order_updates_risk clock order state market_data state' :
  execute_order clock order state market_data = Ok state' ->
  exists pre, state' = _update_risk_metrics pre /\ risk_metrics pre = risk_metrics state.
Proof.
  unfold execute_order. cbn [execute_order_fuel]. unfold execute_order_body at 1.
  destruct (positions state !! order_symbol order) as [existing_pos|] eqn:Hpos.
  - destruct (match pos_side existing_pos, order_side order with
              | LONG, BUY | SHORT, SELL => true | _, _ => false end).
    + unfold pydiv, bind.
      destruct (_ =? zero); [discriminate|].
      intros [= <-]. eexists; split; [reflexivity|reflexivity].
    + destruct (order_size order >=? pos_size existing_pos).
      * destruct (order_size order >? pos_size existing_pos).
        -- rewrite execute_order_body_open by (cbn; apply lookup_delete_eq).
           intros [= <-]. eexists; split; [reflexivity|reflexivity].
        -- intros [= <-]. eexists; split; [reflexivity|reflexivity].
      * intros [= <-]. eexists; split; [reflexivity|reflexivity].
  - intros [= <-]. eexists; split; [reflexivity|reflexivity].
Qed.

(** An activation that needs no residual returns or raises without calling
    itself. *)
Lemma execute_order_body_settles clock order state market_data :
  needs_residual order state = None ->
  exists outcome,
    outcome <> OutOfFuel
    /\ forall rec, execute_order_body rec clock order state market_data = outcome.
Proof.
  unfold needs_residual, same_side, execute_order_body.
  destruct (positions state !! order_symbol order) as [existing_pos|];
    [|intros _; eexists; split; [|intros rec; reflexivity]; discriminate].
  destruct (match pos_side existing_pos, order_side order with
            | LONG, BUY | SHORT, SELL => true | _, _ => false end); cbn [negb andb].
  { intros _. unfold pydiv, bind. destruct (_ =? zero);
      (eexists; split; [|intros rec; reflexivity]; discriminate). }
  destruct (order_size order >=? pos_size existing_pos); cbn [andb];
    [|intros _; eexists; split; [|intros rec; reflexivity]; discriminate].
  destruct (order_size order >? pos_size existing_pos); [discriminate|].
  intros _; eexists; split; [|intros rec; reflexivity]; discriminate.
Qed.

(** The other activations close the position and hand the residual to the
    recursive call. *)
Lemma execute_order_body_residual rec clock order state market_data existing_pos :
  needs_residual order state = Some existing_pos ->
  execute_order_body rec clock order state market_data
  = rec (residual order existing_pos) (closed order market_data existing_pos state)
      market_data.
Proof.
  unfold needs_residual, same_side, execute_order_body.
  destruct (positions state !! order_symbol order) as [pos|]; [|discriminate].
  destruct (match pos_side pos, order_side order with
            | LONG, BUY | SHORT, SELL => true | _, _ => false end); cbn [negb andb];
    [discriminate|].
  destruct (order_size order >=? pos_size pos); cbn [andb]; [|discriminate].
  destruct (order_size order >? pos_size pos); [|discriminate].
  intros [= <-]. reflexivity.
Qed.

(** C9: the recursion of [execute_order] has depth at most one.  Fuel beyond
    two activations changes nothing and two never run out, so the call is
    total.  An order that needs no residual is settled by one activation; the
    other orders are settled by one activation on the residual, started on a
    state that holds no position for the symbol, where it opens a fresh
    position. *)
Theorem execute_order_depth_at_most_one (clock : Clock) (order : Order)
    (state : TradingState) (market_data : MarketData) :
  (forall fuel, execute_order_fuel (S (S fuel)) clock order state market_data
                = execute_order clock order state market_data)
  /\ execute_order clock order state market_data <> OutOfFuel
  /\ match needs_residual order state with
     | None =>
         execute_order clock order state market_data
         = execute_order_fuel 1 clock order state market_data
     | Some existing_pos =>
         let rem_order := residual order existing_pos in
         let new_state := closed order market_data existing_pos state in
         positions new_state !! order_symbol rem_order = None
         /\ execute_order clock order state market_data
            = execute_order_fuel 1 clock rem_order new_state market_data
         /\ execute_order_fuel 1 clock rem_order new_state market_data
            = Ok (record_fill clock rem_order (exec_price_of rem_order market_data) (lit 0)
                    (order_size rem_order * exec_price_of rem_order market_data * TAKER_FEE)
                    (opened rem_order market_data new_state))
     end.
Proof.
  split; [intros fuel; apply execute_order_fuel_enough|].
  unfold execute_order.
  change (execute_order_fuel 2 clock order state market_data)
    with (execute_order_body (execute_order_fuel 1 clock) clock order state market_data).
  change (execute_order_fuel 1 clock order state market_data)
    with (execute_order_body (execute_order_fuel 0 clock) clock order state market_data).
  destruct (needs_residual order state) as [existing_pos|] eqn:Hres.
  - rewrite (execute_order_body_residual _ _ _ _ _ _ Hres).
    assert (Hnone : positions (closed order market_data existing_pos state)
                    !! order_symbol (residual order existing_pos) = None)
      by (cbn; apply lookup_delete_eq).
    cbn zeta. rewrite (execute_order_fuel_open 0 _ _ _ _ Hnone).
    split; [discriminate|]. split; [exact Hnone|]. split; reflexivity.
  - destruct (execute_order_body_settles clock _ _ market_data Hres)
      as (outcome & Hout & Hsame).
    rewrite !Hsame. split; [exact Hout|reflexivity].
Qed.

(** C2, as the code has it: the size of an order is not validated.  An order
    of non-positive size on a symbol with no position is executed like any
    other: it returns a state with a position of that size, the balance
    reduced by size * price * (1 + fee), and one more trade. *)
Theorem nonpositive_order_is_executed (clock : Clock) (order : Order)
    (state : TradingState) (market_data : MarketData) :
  (order_size order <=? zero) = true ->
  positions state !! order_symbol order = None ->
  exists state',
    execute_order clock order state market_data = Ok state'
    /\ positions state' !! order_symbol order
       = Some {| pos_symbol := order_symbol order;
                 pos_side := match order_side order with BUY => LONG | SELL => SHORT end;
                 pos_size := order_size order;
                 pos_entry_price := exec_price_of order market_data |}
    /\ wallet_balance state'
       = wallet_balance state
         - (order_size order * exec_price_of order market_data
            + order_size order * exec_price_of order market_data * TAKER_FEE)
    /\ trades state'
       = trades state
         ++ [{| trade_timestamp := now_trade clock; trade_symbol := order_symbol order;
                trade_side := order_side order;
                trade_exec_price := exec_price_of order market_data;
                trade_size := order_size order; trade_pnl := lit 0;
                trade_commission :=
                  order_size order * exec_price_of order market_data * TAKER_FEE |}].
Proof.
  intros _ Hnone. eexists. split.
  { unfold execute_order. by apply execute_order_fuel_open. }
  rewrite record_fill_positions, opened_positions, record_fill_wallet_balance,
    opened_wallet_balance, record_fill_trades, opened_trades.
  split; [apply lookup_insert_eq|]. split; reflexivity.
Qed.

(** The two degenerate cases of [_calculate_slippage]: no spread or no ask
    level gives 0 (line 43); a best ask of quantity zero gives a tenth of the
    relative spread (line 46). *)
Lemma slippage_no_spread_or_book (order_size : F) (market_data : MarketData) :
  (md_spread market_data <=? zero) = true \/ md_top_5_asks market_data = [] ->
  _calculate_slippage order_size market_data = lit 0.
Proof.
  intros Hcase. unfold _calculate_slippage.
  destruct Hcase as [-> | ->]; [reflexivity|].
  by rewrite orb_true_r.
Qed.

(** Along a run that starts with a high-water mark that is a number, the mark
    never decreases. *)
Lemma hwm_non_decreasing_run `{!OrderLaws} (steps : list (Clock * Order * MarketData))
    (state : TradingState) (trace : list TradingState) :
  (high_water_mark (risk_metrics state) <=? high_water_mark (risk_metrics state)) = true ->
  execute_orders steps state = Ok trace ->
  hwm_non_decreasing state trace.
Proof.
  revert state trace.
  induction steps as [|[[clock order] market_data] steps IH]; intros state trace Hnum.
  - by intros [= <-].
  - cbn [execute_orders]. unfold bind at 1.
    destruct (execute_order clock order state market_data) as [state'| |] eqn:Hexec;
      try discriminate.
    unfold bind.
    destruct (execute_orders steps state') as [trace'| |] eqn:Hrest; try discriminate.
    intros [= <-].
    destruct (execute_order_updates_risk _ _ _ _ _ Hexec) as (pre & -> & Hrisk).
    assert (Hstep :
      (high_water_mark (risk_metrics state)
       <=? high_water_mark (risk_metrics (_update_risk_metrics pre))) = true
      /\ (high_water_mark (risk_metrics (_update_risk_metrics pre))
          <=? high_water_mark (risk_metrics (_update_risk_metrics pre))) = true).
    { unfold _update_risk_metrics. cbn [risk_metrics set_risk_metrics high_water_mark].
      rewrite Hrisk. unfold pymax.
      destruct (high_water_mark (risk_metrics state) <? wallet_balance pre) eqn:Hlt.
      - split; [by apply ltb_leb|by apply ltb_refl_right in Hlt].
      - by split. }
    destruct Hstep as [Hstep Hnum'].
    split; [exact Hstep|]. by apply IH.
Qed.

End CoreFacts.

(** ** Facts of the fusion step, for every arithmetic *)

Section FusionFacts.
Context {F : Type} {A : Arith F}.
Local Open Scope num_scope.

Lemma retained_rejected (completed : list (string * F * F)) :
  Forall rejected completed -> retained completed = [].
Proof.
  unfold retained. generalize (@nil (string * (F * F))) as results.
  induction completed as [|[[timeframe prediction] conf] completed IH];
    intros results Hall; [reflexivity|].
  inversion Hall as [|? ? Hrej Hrest]; subst.
  cbn [fold_left]. unfold rejected in Hrej. cbn [snd] in Hrej. rewrite Hrej.
  apply IH, Hrest.
Qed.

End FusionFacts.

(** ** Facts of the risk controller, for every arithmetic *)

Section RiskFacts.
Context {F : Type} {A : Arith F}.

(** With fewer than 20 trades in the ledger the statistics are the defaults. *)
Lemma win_rate_and_odds_default (trades : list (@Trade F)) :
  (length trades < 20)%nat ->
  _calculate_win_rate_and_odds trades = (lit (5 # 10), lit 1).
Proof.
  intros Hlen. unfold _calculate_win_rate_and_odds.
  assert (Hrecent : (length (drop (length trades - KELLY_HISTORY) trades) <? 20)%nat = true).
  { apply Nat.ltb_lt. rewrite length_drop. lia. }
  by rewrite Hrecent.
Qed.

End RiskFacts.

(** ** binary64: what CPython computes *)

Section Binary64Facts.
Local Open Scope num_scope.

(** The literals are read as the interpreter reads them. *)
Lemma literals_binary64 :
  (lit (6 # 100) : float) = 0x1.eb851eb851eb8p-5%float /\
  (lit (5 # 100) : float) = 0x1.999999999999ap-5%float /\
  (lit (1 # 100) : float) = 0x1.47ae147ae147bp-7%float /\
  (lit (4 # 10000) : float) = 0x1.a36e2eb1c432dp-12%float /\
  (lit (75 # 100) : float) = 0.75%float.
Proof. repeat split; vm_compute; reflexivity. Qed.

(** C6: with [current_drawdown] the float 0.06, the quotient
    (0.06 - 0.05) / 0.01 is rounded to 0.99999999999999944, [int] gives 0
    steps, the reduction is 0.25 and the factor [check_drawdown] returns is
    0.75, with no hard stop. *)
Theorem check_drawdown_six_percent (state : @TradingState float) :
  current_drawdown (risk_metrics state) = lit (6 # 100) ->
  trunc ((current_drawdown (risk_metrics state) - DRAWDOWN_LEVEL_1) / lit (1 # 100)) = 0%Z
  /\ of_int (0 + 1) * DRAWDOWN_REDUCTION_STEP = (lit (25 # 100) : float)
  /\ check_drawdown state = (lit (75 # 100), false).
Proof.
  intros Hdd. unfold check_drawdown. rewrite Hdd.
  repeat split; vm_compute; reflexivity.
Qed.

(** C8: when no result passes the 0.7 threshold, the signal is WAITING with
    confidence 0 and fused prediction 0; in particular when every
    per-timeframe computation fails, in whatever order the futures
    complete. *)
Theorem fusion_nothing_retained (now : Z) (symbol : string)
    (completed : list (string * float * float)) :
  Forall rejected completed ->
  decision (predict_multi_timeframe now symbol completed) = WAITING
  /\ confidence (predict_multi_timeframe now symbol completed) = lit 0
  /\ fused_prediction_pct (predict_multi_timeframe now symbol completed) = lit 0.
Proof.
  intros Hall. unfold predict_multi_timeframe.
  rewrite (retained_rejected completed Hall).
  repeat split; vm_compute; reflexivity.
Qed.

(** The comparisons of binary64, read off their specification. *)
Lemma SFcompare_refl (x : spec_float) : x <> S754_nan -> SFcompare x x = Some Eq.
Proof.
  destruct x as [[|]|[|]| |[|] m e]; cbn; try done;
    intros _; by rewrite Z.compare_refl, Pos.compare_cont_refl.
Qed.

Lemma SFcompare_right_number (x y : spec_float) :
  SFcompare x y <> None -> y <> S754_nan.
Proof. intros Hcmp ->. by destruct x. Qed.

Lemma binary64_leb_refl (a : float) : Prim2SF a <> S754_nan -> (a <=? a) = true.
Proof.
  intros Hnum. cbn [leb binary64]. rewrite FloatAxioms.leb_spec. unfold SFleb.
  by rewrite SFcompare_refl.
Qed.

#[export] Instance binary64_order : @OrderLaws float binary64.
Proof.
  split; cbn [ltb leb binary64]; intros a b.
  - rewrite FloatAxioms.ltb_spec, FloatAxioms.leb_spec. unfold SFltb, SFleb.
    by destruct (SFcompare (Prim2SF a) (Prim2SF b)) as [[]|].
  - rewrite FloatAxioms.leb_spec. unfold SFleb. intros Hle.
    apply binary64_leb_refl, (SFcompare_right_number (Prim2SF a)).
    by destruct (SFcompare (Prim2SF a) (Prim2SF b)).
  - rewrite FloatAxioms.ltb_spec. unfold SFltb. intros Hlt.
    apply binary64_leb_refl, (SFcompare_right_number (Prim2SF a)).
    by destruct (SFcompare (Prim2SF a) (Prim2SF b)).
Qed.

Lemma binary64_sub_0_r (x : float) : x - lit 0 = x.
Proof.
  apply Prim2SF_inj. cbn [sub binary64]. rewrite FloatAxioms.sub_spec.
  change (Prim2SF (lit 0)) with (S754_zero false).
  by destruct (Prim2SF x) as [[|]|[|]| |[|] m e].
Qed.

Lemma binary64_add_0_r (x : float) : (x =? x) = true -> (x + lit 0 =? x) = true.
Proof.
  cbn [add eqb binary64]. rewrite !FloatAxioms.eqb_spec, FloatAxioms.add_spec.
  change (Prim2SF (lit 0)) with (S754_zero false).
  by destruct (Prim2SF x) as [[|]|[|]| |[|] m e].
Qed.

(** C7, as the code has it: with a spread that is not positive or an empty
    ask side the slippage is 0 and the order is filled at the quote, the bid
    for a SELL and the ask (when it is a number) for a BUY. *)
Theorem slippage_degenerate_cases (order : @Order float) (market_data : MarketData) :
  (md_spread market_data <=? zero) = true \/ md_top_5_asks market_data = [] ->
  _calculate_slippage (order_size order) market_data = lit 0
  /\ match order_side order with
     | SELL => exec_price_of order market_data = md_bid market_data
     | BUY =>
         (md_ask market_data =? md_ask market_data) = true ->
         (exec_price_of order market_data =? md_ask market_data) = true
     end.
Proof.
  intros Hcase. pose proof (slippage_no_spread_or_book (order_size order) _ Hcase) as H0.
  split; [exact H0|]. unfold exec_price_of. rewrite H0.
  destruct (order_side order); [apply binary64_add_0_r|apply binary64_sub_0_r].
Qed.

(** A SELL on a snapshot without spread is filled at the bid. *)
Lemma slippage_degenerate_cases_witness :
  _calculate_slippage (order_size (@market_order float _ SELL 1)) (flat_market 100) = lit 0
  /\ exec_price_of (@market_order float _ SELL 1) (flat_market 100)
     = md_bid (flat_market 100).
Proof.
  apply (slippage_degenerate_cases (market_order SELL 1) (flat_market 100)).
  left. reflexivity.
Defined.

(** X23: in binary64, along every run of executions that starts from a
    high-water mark that is a number and not negative, the high-water mark
    never decreases, whatever the orders do to the balance. *)
Lemma hwm_non_decreasing_binary64 (steps : list (Clock * Order * MarketData))
    (state : @TradingState float) (trace : list TradingState) :
  (zero <=? high_water_mark (risk_metrics state)) = true ->
  execute_orders steps state = Ok trace ->
  hwm_non_decreasing state trace.
Proof.
  intros Hpos. apply hwm_non_decreasing_run. by apply leb_refl_right in Hpos.
Qed.

(** The ledger 6% below its high-water mark. *)
Lemma check_drawdown_six_percent_witness :
  trunc ((current_drawdown (risk_metrics (@six_percent_down float _)) - DRAWDOWN_LEVEL_1)
         / lit (1 # 100)) = 0%Z
  /\ of_int (0 + 1) * DRAWDOWN_REDUCTION_STEP = (lit (25 # 100) : float)
  /\ check_drawdown (@six_percent_down float _) = (lit (75 # 100), false).
Proof. apply (check_drawdown_six_percent six_percent_down). reflexivity. Defined.

(** A timeframe whose computation fails, or whose history is short, reports
    prediction 0 and confidence 0 (lines 115 and 146). *)
Lemma predict_single_timeframe_failed (forecast : string -> list float -> option (float * float))
    (timeframe : string) (price_series : list float) :
  (forall tf window, forecast tf window = None) ->
  _predict_single_timeframe forecast timeframe price_series = (timeframe, lit 0, lit 0).
Proof.
  intros Hfail. unfold _predict_single_timeframe.
  destruct (_ <? HISTORICAL_WINDOW)%nat; [reflexivity|]. by rewrite Hfail.
Qed.

(** When every computation fails, every submitted task is rejected, in
    whatever order the futures complete. *)
Lemma all_failed_rejected (forecast : string -> list float -> option (float * float))
    (state : @TradingState float) (completed : list (string * float * float)) :
  (forall tf window, forecast tf window = None) ->
  completed ≡ₚ submitted forecast state ->
  Forall rejected completed.
Proof.
  intros Hfail ->. unfold submitted. generalize TIME_FRAMES as timeframes.
  induction timeframes as [|timeframe timeframes IH]; [constructor|].
  csimpl. destruct (historical_data state !! timeframe) as [df|]; [|exact IH].
  destruct (bool_decide (df = [])); [exact IH|].
  constructor; [|exact IH].
  by rewrite predict_single_timeframe_failed.
Qed.

(** A failed computation and a confidence of exactly 0.7. *)
Lemma fusion_nothing_retained_witness :
  decision (predict_multi_timeframe 0 "BTCUSDT" (@weak_results float _)) = WAITING
  /\ confidence (predict_multi_timeframe 0 "BTCUSDT" (@weak_results float _)) = lit 0
  /\ fused_prediction_pct (predict_multi_timeframe 0 "BTCUSDT" (@weak_results float _))
     = lit 0.
Proof.
  apply (fusion_nothing_retained 0 "BTCUSDT" weak_results).
  repeat constructor.
Defined.

End Binary64Facts.

(** ** The rounding of binary64

    What the specification of the primitive floats gives on the size, the
    sign and the order of sums, products and quotients; enough to follow
    the sizer and the ledger on every input. *)

Section Binary64Rounding.

(** [fexp] and the format constants, spelled out. *)
Lemma fexp_binary64 (e : Z) : fexp prec emax e = Z.max (e - 53) (-1074).
Proof. reflexivity. Qed.

Lemma digits2_pos_size (p : positive) : digits2_pos p = Pos.size p.
Proof. induction p as [p IH|p IH|]; cbn; congruence. Qed.

Lemma Zdigits2_log2 (m : Z) : 0 < m -> Zdigits2 m = Z.log2 m + 1.
Proof.
  destruct m as [|p|p]; try lia. intros _. cbn [Zdigits2]. rewrite digits2_pos_size.
  destruct p; cbn [Z.log2 Pos.size]; lia.
Qed.

Lemma Zdigits2_nonneg (m : Z) : 0 <= Zdigits2 m.
Proof. destruct m; cbn; lia. Qed.

(** 2^(d-1) <= m < 2^d for the number of digits d of a positive m. *)
Lemma Zdigits2_bounds (m : Z) :
  0 < m -> 2 ^ (Zdigits2 m - 1) <= m < 2 ^ Zdigits2 m.
Proof.
  intros Hm. rewrite (Zdigits2_log2 m Hm).
  replace (Z.log2 m + 1 - 1) with (Z.log2 m) by lia.
  replace (Z.log2 m + 1) with (Z.succ (Z.log2 m)) by lia.
  apply Z.log2_spec, Hm.
Qed.

(** A number below 2^k has at most k digits. *)
Lemma Zdigits2_le (m k : Z) : 0 <= k -> 0 <= m < 2 ^ k -> Zdigits2 m <= k.
Proof.
  intros Hk [Hm Hlt].
  destruct (Z.eq_dec m 0) as [->|Hne]; [change (Zdigits2 0) with 0; lia|].
  rewrite Zdigits2_log2 by lia.
  assert (Z.log2 m < k); [|lia]. apply Z.log2_lt_pow2; lia.
Qed.

Lemma Zdigits2_mono (a b : Z) : 0 <= a <= b -> Zdigits2 a <= Zdigits2 b.
Proof.
  intros [Ha Hab]. destruct (Z.eq_dec a 0) as [->|Hne]; [apply Zdigits2_nonneg|].
  rewrite !Zdigits2_log2 by lia. pose proof (Z.log2_le_mono a b Hab). lia.
Qed.

Lemma Zdigits2_succ (m : Z) : 0 <= m -> Zdigits2 (m + 1) <= Zdigits2 m + 1.
Proof.
  intros Hm. destruct (Z.eq_dec m 0) as [->|Hne]; [by apply Z.leb_le|].
  apply Zdigits2_le; [pose proof (Zdigits2_nonneg m); lia|].
  pose proof (Zdigits2_bounds m ltac:(lia)) as [_ Hlt].
  rewrite Z.pow_add_r by (pose proof (Zdigits2_nonneg m); lia). lia.
Qed.

Lemma Zdigits2_mul (a b : Z) :
  0 <= a -> 0 <= b -> Zdigits2 (a * b) <= Zdigits2 a + Zdigits2 b.
Proof.
  intros Ha Hb.
  destruct (Z.eq_dec a 0) as [->|Hna]; [cbn; apply Zdigits2_nonneg|].
  destruct (Z.eq_dec b 0) as [->|Hnb];
    [rewrite Z.mul_0_r; cbn; pose proof (Zdigits2_nonneg a); lia|].
  pose proof (Zdigits2_nonneg a). pose proof (Zdigits2_nonneg b).
  apply Zdigits2_le; [lia|]. split; [nia|].
  pose proof (Zdigits2_bounds a ltac:(lia)) as [_ Hla].
  pose proof (Zdigits2_bounds b ltac:(lia)) as [_ Hlb].
  rewrite Z.pow_add_r by lia. nia.
Qed.

(** When something is left of a positive number after a shift, the shift lost
    exactly [n] digits. *)
Lemma Zdigits2_shiftr_pos (m n : Z) :
  0 <= m -> 0 <= n -> 0 < Z.shiftr m n -> Zdigits2 (Z.shiftr m n) + n = Zdigits2 m.
Proof.
  intros Hm Hn Hpos.
  assert (0 < m) by (destruct (Z.eq_dec m 0) as [->|]; [rewrite Z.shiftr_0_l in *; lia|lia]).
  rewrite !Zdigits2_log2 by lia. rewrite Z.log2_shiftr by lia.
  assert (n <= Z.log2 m); [|lia].
  destruct (Z_le_gt_dec n (Z.log2 m)) as [|Hgt]; [assumption|].
  rewrite Z.shiftr_eq_0 in Hpos by lia. lia.
Qed.

Lemma Zdigits2_shiftr (m n : Z) :
  0 <= m -> 0 <= n -> Zdigits2 (Z.shiftr m n) + n <= Z.max (Zdigits2 m) n.
Proof.
  intros Hm Hn.
  destruct (Z.eq_dec (Z.shiftr m n) 0) as [->|Hne]; [change (Zdigits2 0) with 0; lia|].
  assert (0 < Z.shiftr m n) by (pose proof (proj2 (Z.shiftr_nonneg m n) Hm); lia).
  rewrite Zdigits2_shiftr_pos by lia. lia.
Qed.

(** *** The shifts of the rounding function *)

Lemma shr_1_spec (mrs : shr_record) :
  0 <= shr_m mrs ->
  shr_m (shr_1 mrs) = Z.shiftr (shr_m mrs) 1
  /\ inexact (shr_1 mrs) = Z.odd (shr_m mrs) || inexact mrs.
Proof.
  destruct mrs as [m r s]. cbn [shr_m]. intros Hm. rewrite <- Z.div2_spec.
  destruct m as [|[p|p|]|p]; try lia; cbn; split; try reflexivity;
    destruct r, s; reflexivity.
Qed.

Lemma iter_pos_shr_1_m (p : positive) (mrs : shr_record) :
  0 <= shr_m mrs -> shr_m (SpecFloat.iter_pos shr_1 p mrs) = Z.shiftr (shr_m mrs) (Zpos p).
Proof.
  revert mrs. induction p as [p IH|p IH|]; intros mrs Hm; cbn [SpecFloat.iter_pos].
  - pose proof (proj1 (shr_1_spec mrs Hm)) as H1.
    assert (0 <= shr_m (shr_1 mrs)) by (rewrite H1; by apply Z.shiftr_nonneg).
    assert (0 <= shr_m (SpecFloat.iter_pos shr_1 p (shr_1 mrs)))
      by (rewrite IH by assumption; by apply Z.shiftr_nonneg).
    rewrite IH, IH, H1 by assumption. rewrite !Z.shiftr_shiftr by lia. f_equal. lia.
  - assert (0 <= shr_m (SpecFloat.iter_pos shr_1 p mrs))
      by (rewrite IH by assumption; by apply Z.shiftr_nonneg).
    rewrite IH, IH by assumption. rewrite Z.shiftr_shiftr by lia. f_equal. lia.
  - apply shr_1_spec, Hm.
Qed.

Lemma shr_1_below (k X : Z) (mrs : shr_record) :
  0 <= k -> 0 <= shr_m mrs -> below k X mrs -> below (k + 1) X (shr_1 mrs).
Proof.
  intros Hk Hm [Hle Hlt]. destruct (shr_1_spec mrs Hm) as [Hm1 Hin]. unfold below.
  rewrite Hm1, Hin, Z.pow_add_r, Z.shiftr_div_pow2 by lia. change (2 ^ 1) with 2.
  pose proof (Z.pow_pos_nonneg 2 k ltac:(lia) Hk) as Hpow.
  pose proof (Z.div_mod (shr_m mrs) 2 ltac:(lia)) as Hdiv.
  pose proof (Z.mod_pos_bound (shr_m mrs) 2 ltac:(lia)) as Hmod.
  split; [nia|]. intros Hor. apply orb_true_iff in Hor as [Hodd|Hin'].
  - apply Z.odd_spec in Hodd as [q Hq]. nia.
  - specialize (Hlt Hin'). nia.
Qed.

Lemma iter_pos_shr_1_below (p : positive) (k X : Z) (mrs : shr_record) :
  0 <= k -> 0 <= shr_m mrs -> below k X mrs ->
  below (k + Zpos p) X (SpecFloat.iter_pos shr_1 p mrs).
Proof.
  revert k mrs. induction p as [p IH|p IH|]; intros k mrs Hk Hm Hbelow; cbn [SpecFloat.iter_pos].
  - pose proof (shr_1_below k X mrs Hk Hm Hbelow) as H1.
    assert (Hm1 : 0 <= shr_m (shr_1 mrs))
      by (rewrite (proj1 (shr_1_spec mrs Hm)); by apply Z.shiftr_nonneg).
    assert (Hk1 : 0 <= k + 1) by lia.
    pose proof (IH (k + 1) (shr_1 mrs) Hk1 Hm1 H1) as H2.
    assert (Hm2 : 0 <= shr_m (SpecFloat.iter_pos shr_1 p (shr_1 mrs)))
      by (rewrite iter_pos_shr_1_m by assumption; by apply Z.shiftr_nonneg).
    assert (Hk2 : 0 <= k + 1 + Zpos p) by lia.
    pose proof (IH (k + 1 + Zpos p) _ Hk2 Hm2 H2) as H3.
    replace (k + Zpos p~1) with (k + 1 + Zpos p + Zpos p) by lia. exact H3.
  - pose proof (IH k mrs Hk Hm Hbelow) as H2.
    assert (Hm2 : 0 <= shr_m (SpecFloat.iter_pos shr_1 p mrs))
      by (rewrite iter_pos_shr_1_m by assumption; by apply Z.shiftr_nonneg).
    assert (Hk2 : 0 <= k + Zpos p) by lia.
    pose proof (IH (k + Zpos p) _ Hk2 Hm2 H2) as H3.
    replace (k + Zpos p~0) with (k + Zpos p + Zpos p) by lia. exact H3.
  - by apply shr_1_below.
Qed.

Lemma shr_fexp_spec (m e : Z) (l : location) :
  0 <= m ->
  let e1 := Z.max e (fexp prec emax (Zdigits2 m + e)) in
  snd (shr_fexp prec emax m e l) = e1
  /\ shr_m (fst (shr_fexp prec emax m e l)) = Z.shiftr m (e1 - e)
  /\ forall X, m <= X -> (l <> loc_Exact -> m < X) ->
               below (e1 - e) X (fst (shr_fexp prec emax m e l)).
Proof.
  intros Hm e1. unfold shr_fexp, shr.
  assert (Hstart : forall X, m <= X -> (l <> loc_Exact -> m < X) ->
                             below 0 X (shr_record_of_loc m l)).
  { intros X Hle Hlt. unfold below.
    assert (shr_m (shr_record_of_loc m l) = m) as -> by (by destruct l as [|[| |]]).
    rewrite Z.mul_1_r. split; [exact Hle|]. intros Hin. apply Hlt.
    intros ->. discriminate Hin. }
  assert (Hm0 : shr_m (shr_record_of_loc m l) = m) by (by destruct l as [|[| |]]).
  destruct (fexp prec emax (Zdigits2 m + e) - e) as [|p|p] eqn:Hn; cbn [fst snd].
  - assert (e1 = e) as -> by (subst e1; lia). rewrite Z.sub_diag, Z.shiftr_0_r.
    split; [reflexivity|]. split; [exact Hm0|exact Hstart].
  - assert (e1 - e = Zpos p) as Hp by (subst e1; lia). rewrite Hp.
    split; [subst e1; lia|]. split.
    + rewrite iter_pos_shr_1_m by (rewrite Hm0; exact Hm). by rewrite Hm0.
    + intros X Hle Hlt.
      apply (iter_pos_shr_1_below p 0 X); [lia|rewrite Hm0; exact Hm|by apply Hstart].
  - assert (e1 = e) as -> by (subst e1; lia). rewrite Z.sub_diag, Z.shiftr_0_r.
    split; [reflexivity|]. split; [exact Hm0|exact Hstart].
Qed.

(** The rounded mantissa is the truncated one, or one more when something
    was lost. *)
Lemma round_nearest_even_spec (mrs : shr_record) :
  let m2 := round_nearest_even (shr_m mrs) (loc_of_shr_record mrs) in
  m2 = shr_m mrs \/ (m2 = shr_m mrs + 1 /\ inexact mrs = true).
Proof.
  destruct mrs as [m [|] [|]]; cbn; auto. destruct (Z.even m); auto.
Qed.

(** What [binary_round_aux] returns for a mantissa that is not negative: the
    two exponents and the three mantissas on the way. *)
Lemma binary_round_aux_inv (sx : bool) (m e : Z) (l : location) :
  0 <= m ->
  let e1 := Z.max e (fexp prec emax (Zdigits2 m + e)) in
  let m1 := Z.shiftr m (e1 - e) in
  exists m2 (inex : bool),
    (m2 = m1 \/ (m2 = m1 + 1 /\ inex = true))
    /\ (forall X, m <= X -> (l <> loc_Exact -> m < X) ->
                  m1 * 2 ^ (e1 - e) <= X /\ (inex = true -> m1 * 2 ^ (e1 - e) < X))
    /\ let e3 := Z.max e1 (fexp prec emax (Zdigits2 m2 + e1)) in
       let m3 := Z.shiftr m2 (e3 - e1) in
       binary_round_aux prec emax sx m e l
       = match m3 with
         | Z0 => S754_zero sx
         | Zpos p => if e3 <=? emax - prec then S754_finite sx p e3 else S754_infinity sx
         | Zneg _ => S754_nan
         end.
Proof.
  intros Hm e1 m1. unfold binary_round_aux.
  destruct (shr_fexp_spec m e l Hm) as (He1 & Hm1 & Hbelow).
  destruct (shr_fexp prec emax m e l) as [mrs' e'] eqn:Hfirst. cbn [fst snd] in *.
  fold e1 in He1, Hm1, Hbelow. subst e'. fold m1 in Hm1.
  set (m2 := round_nearest_even (shr_m mrs') (loc_of_shr_record mrs')).
  exists m2, (inexact mrs').
  assert (Hm1pos : 0 <= m1) by (by apply Z.shiftr_nonneg).
  assert (Hm2 : m2 = m1 \/ (m2 = m1 + 1 /\ inexact mrs' = true)).
  { rewrite <- Hm1. apply round_nearest_even_spec. }
  split; [exact Hm2|]. split.
  { intros X Hle Hlt. destruct (Hbelow X Hle Hlt) as [H1 H2]. rewrite Hm1 in *. by split. }
  assert (Hm2pos : 0 <= m2) by (destruct Hm2 as [->|[-> _]]; lia).
  destruct (shr_fexp_spec m2 e1 loc_Exact Hm2pos) as (He3 & Hm3 & _).
  destruct (shr_fexp prec emax m2 e1 loc_Exact) as [mrs'' e''] eqn:Hsecond.
  cbn [fst snd] in *. cbn zeta. rewrite <- Hm3, <- He3. reflexivity.
Qed.

Lemma shiftr_mul_le (a n : Z) : 0 <= a -> 0 <= n -> Z.shiftr a n * 2 ^ n <= a.
Proof.
  intros Ha Hn. rewrite Z.shiftr_div_pow2 by exact Hn.
  pose proof (Z.pow_pos_nonneg 2 n ltac:(lia) Hn) as Hpow.
  rewrite Z.mul_comm. apply Z.mul_div_le. exact Hpow.
Qed.

Lemma binary_round_aux_signed (sx : bool) (m e : Z) (l : location) :
  0 <= m -> SFsigned sx (binary_round_aux prec emax sx m e l).
Proof.
  intros Hm. destruct (binary_round_aux_inv sx m e l Hm) as (m2 & inex & Hm2 & _ & ->).
  cbn zeta.
  set (e1 := Z.max e (fexp prec emax (Zdigits2 m + e))) in *.
  assert (0 <= Z.shiftr m (e1 - e)) by (by apply Z.shiftr_nonneg).
  assert (0 <= m2) by (destruct Hm2 as [->|[-> _]]; lia).
  match goal with |- context [Z.shiftr m2 ?n] =>
    pose proof (proj2 (Z.shiftr_nonneg m2 n) ltac:(assumption)) as Hm3;
    destruct (Z.shiftr m2 n) as [|p|p] end.
  - reflexivity.
  - by destruct (_ <=? _).
  - lia.
Qed.

Lemma binary_round_aux_mag (sx : bool) (m e : Z) (l : location) (K : Z) :
  0 <= m -> Zdigits2 m + e <= K -> e <= 971 -> -1074 <= K -> K + 1 <= 1024 ->
  SFmag_le (K + 1) (binary_round_aux prec emax sx m e l).
Proof.
  intros Hm HK He HKlo HKhi.
  destruct (binary_round_aux_inv sx m e l Hm) as (m2 & inex & Hm2 & _ & ->).
  cbn zeta. rewrite !fexp_binary64. rewrite !fexp_binary64 in Hm2.
  set (e1 := Z.max e (Z.max (Zdigits2 m + e - 53) (-1074))) in *.
  set (m1 := Z.shiftr m (e1 - e)) in *.
  assert (Hm1 : 0 <= m1) by (by apply Z.shiftr_nonneg).
  assert (He1 : e <= e1) by (unfold e1; lia).
  assert (He1K : e1 <= K) by (pose proof (Zdigits2_nonneg m); unfold e1; lia).
  assert (Hd1 : Zdigits2 m1 + e1 <= K).
  { pose proof (Zdigits2_shiftr m (e1 - e) Hm ltac:(lia)) as Hs. fold m1 in Hs. lia. }
  assert (Hm2pos : 0 <= m2) by (destruct Hm2 as [->|[-> _]]; lia).
  assert (Hd2 : Zdigits2 m2 + e1 <= K + 1).
  { destruct Hm2 as [->|[-> _]]; [lia|]. pose proof (Zdigits2_succ m1 Hm1). lia. }
  set (e3 := Z.max e1 (Z.max (Zdigits2 m2 + e1 - 53) (-1074))) in *.
  assert (He3 : e1 <= e3) by (unfold e3; lia).
  destruct (Z.shiftr m2 (e3 - e1)) as [|p|p] eqn:Hm3; [exact I| |].
  - assert (He1hi : e1 <= 971) by (unfold e1; lia).
    assert (He3hi : e3 <= 971) by (unfold e3; lia).
    change (emax - prec) with 971. rewrite (proj2 (Z.leb_le e3 971) He3hi).
    cbn [SFmag_le].
    pose proof (Zdigits2_shiftr_pos m2 (e3 - e1) Hm2pos ltac:(lia) ltac:(lia)) as Hs.
    rewrite Hm3 in Hs. cbn [Zdigits2] in Hs. lia.
  - pose proof (proj2 (Z.shiftr_nonneg m2 (e3 - e1)) Hm2pos). lia.
Qed.

(** Rounding does not cross a bound that lies on the grid of the result:
    the mantissa and the exponent [binary_round_aux] ends with. *)
Lemma binary_round_aux_le_core (sx : bool) (m e : Z) (l : location) (X : Z) :
  0 <= m -> m <= X -> (l <> loc_Exact -> m < X) ->
  (2 ^ (Z.max e (fexp prec emax (Zdigits2 m + e)) - e) | X) ->
  exists m3 e3,
    0 <= m3 /\ e <= e3 /\ m3 * 2 ^ (e3 - e) <= X
    /\ binary_round_aux prec emax sx m e l
       = match m3 with
         | Z0 => S754_zero sx
         | Zpos p => if e3 <=? emax - prec then S754_finite sx p e3 else S754_infinity sx
         | Zneg _ => S754_nan
         end
    /\ (e <= fexp prec emax (Zdigits2 m + e) -> 0 < m3 ->
        e3 = fexp prec emax (Zdigits2 m3 + e3)).
Proof.
  intros Hm Hle Hlt Hdiv.
  destruct (binary_round_aux_inv sx m e l Hm) as (m2 & inex & Hm2 & Hbelow & ->).
  cbn zeta. destruct (Hbelow X Hle Hlt) as [Hb1 Hb2]. clear Hbelow.
  rewrite !fexp_binary64 in *.
  set (e1 := Z.max e (Z.max (Zdigits2 m + e - 53) (-1074))) in *.
  set (m1 := Z.shiftr m (e1 - e)) in *.
  assert (He1 : e <= e1) by (unfold e1; lia).
  assert (Hm1 : 0 <= m1) by (by apply Z.shiftr_nonneg).
  assert (Hm2pos : 0 <= m2) by (destruct Hm2 as [->|[-> _]]; lia).
  pose proof (Z.pow_pos_nonneg 2 (e1 - e) ltac:(lia) ltac:(lia)) as Hpow1.
  destruct Hdiv as [B1 HX].
  assert (Hm2le : m2 * 2 ^ (e1 - e) <= X).
  { destruct Hm2 as [->|[-> Hin]]; [exact Hb1|]. specialize (Hb2 Hin).
    rewrite HX in Hb2 |- *. apply Z.mul_lt_mono_pos_r in Hb2; [|exact Hpow1].
    apply Z.mul_le_mono_nonneg_r; lia. }
  set (e3 := Z.max e1 (Z.max (Zdigits2 m2 + e1 - 53) (-1074))) in *.
  assert (He3 : e1 <= e3) by (unfold e3; lia).
  set (m3 := Z.shiftr m2 (e3 - e1)).
  assert (Hm3 : 0 <= m3) by (by apply Z.shiftr_nonneg).
  exists m3, e3. split; [exact Hm3|]. split; [lia|]. split.
  { pose proof (shiftr_mul_le m2 (e3 - e1) Hm2pos ltac:(lia)) as Hs. fold m3 in Hs.
    replace (e3 - e) with ((e3 - e1) + (e1 - e)) by lia.
    rewrite Z.pow_add_r by lia. nia. }
  split; [reflexivity|].
  intros Haligned Hm3pos. rewrite fexp_binary64.
  pose proof (Zdigits2_shiftr_pos m2 (e3 - e1) Hm2pos ltac:(lia) Hm3pos) as Hd3.
  fold m3 in Hd3.
  assert (Hd3pos : 1 <= Zdigits2 m3).
  { destruct m3; try lia. cbn. pose proof (Pos2Z.is_pos (digits2_pos p)). lia. }
  assert (Hd12 : Zdigits2 m1 <= Zdigits2 m2).
  { destruct Hm2 as [->|[-> _]]; [lia|]. apply Zdigits2_mono. lia. }
  destruct (Z.eq_dec m1 0) as [Hzero|Hnz].
  - (* everything was shifted out: the exponent is the least one *)
    assert (Hbig : Zdigits2 m <= e1 - e).
    { destruct (Z_le_gt_dec (Zdigits2 m) (e1 - e)) as [|Hgt]; [assumption|].
      destruct (Z.eq_dec m 0) as [->|Hmnz]; [change (Zdigits2 0) with 0 in Hgt; lia|].
      pose proof (Zdigits2_bounds m ltac:(lia)) as [Hlo _].
      assert (2 ^ (e1 - e) <= m).
      { apply Z.le_trans with (2 ^ (Zdigits2 m - 1)); [|exact Hlo].
        apply Z.pow_le_mono_r; lia. }
      assert (0 < m1); [|lia]. unfold m1. rewrite Z.shiftr_div_pow2 by lia.
      apply Z.div_str_pos. lia. }
    assert (m2 = 1) as Hm2one.
    { destruct Hm2 as [Hm2|[Hm2 _]]; [|lia]. unfold m3 in Hm3pos.
      rewrite Hm2, Hzero, Z.shiftr_0_l in Hm3pos. lia. }
    rewrite Hm2one in Hd3. change (Zdigits2 1) with 1 in Hd3.
    unfold e3 in *. rewrite Hm2one. change (Zdigits2 1) with 1.
    rewrite Hm2one in Hd3. change (Zdigits2 1) with 1 in Hd3.
    unfold e1 in *. lia.
  - pose proof (Zdigits2_shiftr_pos m (e1 - e) Hm ltac:(lia) ltac:(fold m1; lia)) as Hd1.
    fold m1 in Hd1. unfold e3 in *. unfold e1 in *. lia.
Qed.

(** Under a bound of at most 2^971 the result is not an infinity. *)
Lemma binary_round_aux_le_small (sx : bool) (m e : Z) (l : location) (X : Z) :
  0 <= m -> m <= X -> (l <> loc_Exact -> m < X) ->
  (2 ^ (Z.max e (fexp prec emax (Zdigits2 m + e)) - e) | X) ->
  e <= 971 -> X <= 2 ^ (971 - e) ->
  match binary_round_aux prec emax sx m e l with
  | S754_zero _ => True
  | S754_finite _ p e3 => e <= e3 /\ Zpos p * 2 ^ (e3 - e) <= X
  | _ => False
  end.
Proof.
  intros Hm Hle Hlt Hdiv He HX.
  destruct (binary_round_aux_le_core sx m e l X Hm Hle Hlt Hdiv)
    as (m3 & e3 & Hm3 & He3 & Hbound & -> & _).
  destruct m3 as [|p|p]; [exact I| |lia].
  assert (e3 <= 971).
  { destruct (Z_le_gt_dec e3 971) as [|Hgt]; [assumption|].
    pose proof (Z.pow_lt_mono_r 2 (971 - e) (e3 - e) ltac:(lia) ltac:(lia) ltac:(lia)).
    pose proof (Z.pow_pos_nonneg 2 (e3 - e) ltac:(lia) ltac:(lia)). nia. }
  change (emax - prec) with 971. rewrite (proj2 (Z.leb_le e3 971)) by assumption.
  by split.
Qed.

(** For an aligned mantissa and a bound below 2^1024 the result is not an
    infinity either. *)
Lemma binary_round_aux_le_finite (sx : bool) (m e : Z) (l : location) (X : Z) :
  0 <= m -> m <= X -> (l <> loc_Exact -> m < X) ->
  (2 ^ (Z.max e (fexp prec emax (Zdigits2 m + e)) - e) | X) ->
  e <= fexp prec emax (Zdigits2 m + e) -> e <= 1024 -> X < 2 ^ (1024 - e) ->
  match binary_round_aux prec emax sx m e l with
  | S754_zero _ => True
  | S754_finite _ p e3 => e <= e3 /\ Zpos p * 2 ^ (e3 - e) <= X
  | _ => False
  end.
Proof.
  intros Hm Hle Hlt Hdiv Haligned He HX.
  destruct (binary_round_aux_le_core sx m e l X Hm Hle Hlt Hdiv)
    as (m3 & e3 & Hm3 & He3 & Hbound & -> & Hcanon).
  destruct m3 as [|p|p]; [exact I| |lia].
  specialize (Hcanon Haligned ltac:(lia)). rewrite fexp_binary64 in Hcanon.
  assert (e3 <= 971).
  { destruct (Z_le_gt_dec e3 971) as [|Hgt]; [assumption|].
    assert (Hd : Zdigits2 (Zpos p) = 53) by lia.
    pose proof (Zdigits2_bounds (Zpos p) ltac:(lia)) as [Hlo _]. rewrite Hd in Hlo.
    change (2 ^ (53 - 1)) with (2 ^ 52) in Hlo.
    assert (Hp : 2 ^ 52 * 2 ^ (e3 - e) < 2 ^ (1024 - e)).
    { pose proof (Z.pow_pos_nonneg 2 (e3 - e) ltac:(lia) ltac:(lia)). nia. }
    rewrite <- Z.pow_add_r in Hp by lia.
    apply Z.pow_lt_mono_r_iff in Hp; lia. }
  change (emax - prec) with 971. rewrite (proj2 (Z.leb_le e3 971)) by assumption.
  by split.
Qed.

(** *** Valid binary64 values and their order *)

(** A valid finite value has at most 53 digits, exactly 53 above the least
    exponent. *)
Lemma valid_finite (s : bool) (m : positive) (e : Z) :
  valid_binary (S754_finite s m e) = true ->
  Z.max (Zpos (digits2_pos m) + e - 53) (-1074) = e /\ e <= 971.
Proof.
  cbn [SpecFloat.valid_binary]. unfold bounded, canonical_mantissa.
  rewrite fexp_binary64. intros H. apply andb_true_iff in H as [H1 H2].
  apply Z.eqb_eq in H1. apply Z.leb_le in H2. change (emax - prec) with 971 in H2. by split.
Qed.

Lemma digits2_pos_bounds (m : positive) :
  2 ^ (Zpos (digits2_pos m) - 1) <= Zpos m < 2 ^ Zpos (digits2_pos m).
Proof. apply (Zdigits2_bounds (Zpos m)). lia. Qed.

(** The order of two valid positive values is the order of their mantissas
    brought to a common exponent. *)
Lemma compare_valid (m1 m2 : positive) (e1 e2 e0 : Z) :
  valid_binary (S754_finite false m1 e1) = true ->
  valid_binary (S754_finite false m2 e2) = true ->
  e0 <= e1 -> e0 <= e2 ->
  match Z.compare e1 e2 with
  | Lt => Lt
  | Gt => Gt
  | Eq => Pos.compare_cont Eq m1 m2
  end
  = Z.compare (Zpos m1 * 2 ^ (e1 - e0)) (Zpos m2 * 2 ^ (e2 - e0)).
Proof.
  intros Hv1 Hv2 H1 H2.
  destruct (valid_finite _ _ _ Hv1) as [Hc1 _].
  destruct (valid_finite _ _ _ Hv2) as [Hc2 _].
  pose proof (digits2_pos_bounds m1) as [Hlo1 Hhi1].
  pose proof (digits2_pos_bounds m2) as [Hlo2 Hhi2].
  set (d1 := Zpos (digits2_pos m1)) in *. set (d2 := Zpos (digits2_pos m2)) in *.
  assert (Hd1 : 1 <= d1 <= 53) by (unfold d1 in *; lia).
  assert (Hd2 : 1 <= d2 <= 53) by (unfold d2 in *; lia).
  assert (Hp53 : forall d, 1 <= d <= 53 -> 2 ^ d <= 2 ^ 53)
    by (intros d Hd; apply Z.pow_le_mono_r; lia).
  pose proof (Hp53 d1 Hd1). pose proof (Hp53 d2 Hd2).
  symmetry. destruct (Z.compare_spec e1 e2) as [Heq|Hlt|Hgt].
  - subst e2. rewrite Pos.compare_cont_spec.
    rewrite <- Zmult_compare_compat_r
      by (pose proof (Z.pow_pos_nonneg 2 (e1 - e0) ltac:(lia) ltac:(lia)); lia).
    cbn [Z.compare]. by destruct (m1 ?= m2)%positive.
  - apply Z.compare_lt_iff.
    assert (d2 = 53) as Hd53 by lia. rewrite Hd53 in Hlo2. change (2 ^ (53 - 1)) with (2 ^ 52) in Hlo2.
    replace (e2 - e0) with ((e2 - e1) + (e1 - e0)) by lia.
    rewrite Z.pow_add_r, Z.mul_assoc by lia.
    apply Z.mul_lt_mono_pos_r; [apply Z.pow_pos_nonneg; lia|].
    assert (2 ^ 1 <= 2 ^ (e2 - e1)) by (apply Z.pow_le_mono_r; lia).
    change (2 ^ 1) with 2 in *. change (2 ^ 52) with 4503599627370496 in *.
    change (2 ^ 53) with 9007199254740992 in *. nia.
  - apply Z.compare_gt_iff.
    assert (d1 = 53) as Hd53 by lia. rewrite Hd53 in Hlo1. change (2 ^ (53 - 1)) with (2 ^ 52) in Hlo1.
    replace (e1 - e0) with ((e1 - e2) + (e2 - e0)) by lia.
    rewrite Z.pow_add_r, Z.mul_assoc by lia.
    apply Z.mul_lt_mono_pos_r; [apply Z.pow_pos_nonneg; lia|].
    assert (2 ^ 1 <= 2 ^ (e1 - e2)) by (apply Z.pow_le_mono_r; lia).
    change (2 ^ 1) with 2 in *. change (2 ^ 52) with 4503599627370496 in *.
    change (2 ^ 53) with 9007199254740992 in *. nia.
Qed.

Lemma iter_xO (m d : positive) : Zpos (Pos.iter xO m d) = Zpos m * 2 ^ Zpos d.
Proof.
  induction d as [|d IH] using Pos.peano_ind.
  - change (2 ^ 1) with 2. cbn [Pos.iter]. lia.
  - rewrite Pos.iter_succ, Pos2Z.inj_xO, IH, Pos2Z.inj_succ, Z.pow_succ_r by lia. lia.
Qed.

Lemma shl_align_spec (mx : positive) (ex ex' : Z) :
  ex' <= ex ->
  Zpos (fst (shl_align mx ex ex')) = Zpos mx * 2 ^ (ex - ex')
  /\ snd (shl_align mx ex ex') = ex'.
Proof.
  intros Hle. unfold shl_align. destruct (ex' - ex) as [|d|d] eqn:Hd; try lia; cbn [fst snd].
  - replace (ex - ex') with 0 by lia. split; lia.
  - rewrite iter_xO. replace (ex - ex') with (Zpos d) by lia. by split.
Qed.

Lemma Zdigits2_mul_pow2 (m k : Z) : 0 < m -> 0 <= k -> Zdigits2 (m * 2 ^ k) = Zdigits2 m + k.
Proof.
  intros Hm Hk. pose proof (Z.pow_pos_nonneg 2 k ltac:(lia) Hk).
  rewrite !Zdigits2_log2 by nia. rewrite Z.log2_mul_pow2 by lia. lia.
Qed.

Lemma shl_align_min (mx : positive) (ex ex' : Z) :
  Zpos (fst (shl_align mx ex ex')) = Zpos mx * 2 ^ (ex - Z.min ex ex')
  /\ snd (shl_align mx ex ex') = Z.min ex ex'.
Proof.
  destruct (Z_le_gt_dec ex' ex) as [Hle|Hgt].
  - rewrite Z.min_r by lia. by apply shl_align_spec.
  - rewrite Z.min_l by lia. unfold shl_align.
    destruct (ex' - ex) as [|d|d] eqn:Hd; try lia; cbn [fst snd];
      rewrite Z.sub_diag; split; lia.
Qed.

(** *** [binary_round] *)

Lemma binary_round_signed (sx : bool) (mx : positive) (ex : Z) :
  SFsigned sx (binary_round prec emax sx mx ex).
Proof.
  unfold binary_round. destruct (shl_align _ _ _) as [mz ez].
  apply binary_round_aux_signed. lia.
Qed.

Lemma binary_round_mag (sx : bool) (mx : positive) (ex K : Z) :
  Zpos (digits2_pos mx) + ex <= K -> -1074 <= K -> K + 1 <= 1024 ->
  SFmag_le (K + 1) (binary_round prec emax sx mx ex).
Proof.
  intros HK Hlo Hhi. unfold binary_round. rewrite fexp_binary64.
  destruct (shl_align_min mx ex (Z.max (Zpos (digits2_pos mx) + ex - 53) (-1074)))
    as [Hmz Hez].
  destruct (shl_align _ _ _) as [mz ez]. cbn [fst snd] in Hmz, Hez.
  apply binary_round_aux_mag; try lia.
  rewrite Hmz, Zdigits2_mul_pow2 by lia. cbn [Zdigits2]. lia.
Qed.

Lemma binary_normalize_mag (m e K : Z) (szero : bool) :
  Zdigits2 m + e <= K -> -1074 <= K -> K + 1 <= 1024 ->
  SFmag_le (K + 1) (binary_normalize prec emax m e szero).
Proof.
  intros HK Hlo Hhi. destruct m as [|p|p]; [exact I| |];
    cbn [binary_normalize]; apply binary_round_mag; assumption.
Qed.

(** *** Sizes of sums, products and quotients *)

(** The sum and the difference of two values below 2^K are below 2^(K+2). *)
Lemma Zdigits2_abs (m : Z) : Zdigits2 m = Zdigits2 (Z.abs m).
Proof. by destruct m. Qed.

Lemma aligned_sum_mag (sx sy : bool) (mx my : positive) (ex ey K : Z) (z : Z) :
  Zpos (digits2_pos mx) + ex <= K -> Zpos (digits2_pos my) + ey <= K ->
  let ez := Z.min ex ey in
  Z.abs z <= Zpos (fst (shl_align mx ex ez)) + Zpos (fst (shl_align my ey ez)) ->
  Zdigits2 z + ez <= K + 1.
Proof.
  intros Hx Hy ez Hz.
  destruct (shl_align_spec mx ex ez ltac:(unfold ez; lia)) as [Hmx _].
  destruct (shl_align_spec my ey ez ltac:(unfold ez; lia)) as [Hmy _].
  rewrite Hmx, Hmy in Hz. rewrite Zdigits2_abs.
  pose proof (digits2_pos_bounds mx) as [_ Hbx]. pose proof (digits2_pos_bounds my) as [_ Hby].
  assert (Hk : 0 <= K + 1 - ez) by (unfold ez; lia).
  assert (Zdigits2 (Z.abs z) <= K + 1 - ez); [|lia].
  apply Zdigits2_le; [exact Hk|]. split; [lia|].
  assert (Hpx : Zpos mx * 2 ^ (ex - ez) < 2 ^ (K - ez)).
  { apply Z.lt_le_trans with (2 ^ Zpos (digits2_pos mx) * 2 ^ (ex - ez)).
    - apply Z.mul_lt_mono_pos_r; [apply Z.pow_pos_nonneg; unfold ez; lia|exact Hbx].
    - rewrite <- Z.pow_add_r by (unfold ez; lia). apply Z.pow_le_mono_r; lia. }
  assert (Hpy : Zpos my * 2 ^ (ey - ez) < 2 ^ (K - ez)).
  { apply Z.lt_le_trans with (2 ^ Zpos (digits2_pos my) * 2 ^ (ey - ez)).
    - apply Z.mul_lt_mono_pos_r; [apply Z.pow_pos_nonneg; unfold ez; lia|exact Hby].
    - rewrite <- Z.pow_add_r by (unfold ez; lia). apply Z.pow_le_mono_r; lia. }
  replace (K + 1 - ez) with (Z.succ (K - ez)) by lia.
  rewrite Z.pow_succ_r by (unfold ez; lia). lia.
Qed.

Lemma SFsub_mag (x y : spec_float) (K : Z) :
  SFmag_le K x -> SFmag_le K y -> -1074 <= K + 1 -> K + 2 <= 1024 ->
  SFmag_le (K + 2) (SFsub prec emax x y).
Proof.
  intros Hx Hy Hlo Hhi.
  destruct x as [sx|sx| |sx mx ex], y as [sy|sy| |sy my ey]; cbn [SFmag_le] in *;
    try contradiction; cbn [SFsub].
  - by destruct sx, sy.
  - cbn [SFmag_le]. lia.
  - cbn [SFmag_le]. lia.
  - replace (K + 2) with (K + 1 + 1) by lia. apply binary_normalize_mag; try lia.
    apply (aligned_sum_mag sx sy mx my ex ey K); try assumption.
    cbn zeta.
    generalize (fst (shl_align mx ex (Z.min ex ey))) (fst (shl_align my ey (Z.min ex ey))).
    intros p1 p2. destruct sx, sy; cbn [cond_Zopp]; lia.
Qed.

Lemma SFmul_mag (x y : spec_float) (Kx Ky : Z) :
  valid_binary x = true -> valid_binary y = true ->
  SFmag_le Kx x -> SFmag_le Ky y -> -1074 <= Kx + Ky -> Kx + Ky + 1 <= 1024 ->
  SFmag_le (Kx + Ky + 1) (SFmul prec emax x y).
Proof.
  intros Hvx Hvy Hx Hy Hlo Hhi.
  destruct x as [sx|sx| |sx mx ex], y as [sy|sy| |sy my ey]; cbn [SFmag_le] in *;
    try contradiction; cbn [SFmul]; try exact I.
  destruct (valid_finite _ _ _ Hvx) as [Hcx Hex].
  destruct (valid_finite _ _ _ Hvy) as [Hcy Hey].
  pose proof (Pos2Z.is_pos (digits2_pos mx)). pose proof (Pos2Z.is_pos (digits2_pos my)).
  apply binary_round_aux_mag; try lia.
  pose proof (Zdigits2_mul (Zpos mx) (Zpos my) ltac:(lia) ltac:(lia)) as Hd.
  change (Zpos mx * Zpos my) with (Zpos (mx * my)) in Hd.
  cbn [Zdigits2] in Hd |- *. lia.
Qed.

(** *** Division *)

(** The quotient the division rounds: its exponent, and the integer
    quotient with what is known of the remainder. *)
Lemma SFdiv_core_spec (mx my : positive) (ex ey : Z) :
  let d1 := Zpos (digits2_pos mx) in
  let d2 := Zpos (digits2_pos my) in
  let e' := Z.min (fexp prec emax (d1 + ex - (d2 + ey))) (ex - ey) in
  exists q l,
    SFdiv_core_binary prec emax (Zpos mx) ex (Zpos my) ey = (q, e', l)
    /\ 0 <= q
    /\ q * Zpos my <= Zpos mx * 2 ^ (ex - ey - e')
    /\ (l <> loc_Exact -> q * Zpos my < Zpos mx * 2 ^ (ex - ey - e')).
Proof.
  intros d1 d2 e'. unfold SFdiv_core_binary. cbn [Zdigits2]. fold d1 d2. fold e'.
  set (s := ex - ey - e').
  assert (Hs : 0 <= s) by (unfold s, e'; lia).
  set (m' := match s with Zpos _ => Z.shiftl (Zpos mx) s | 0 => Zpos mx | Zneg _ => 0 end).
  assert (Hm' : m' = Zpos mx * 2 ^ s).
  { unfold m'. destruct s as [|p|p] eqn:Hsp; [change (2 ^ 0) with 1; lia| |lia].
    by rewrite Z.shiftl_mul_pow2. }
  pose proof (Z.div_eucl_eq m' (Zpos my) ltac:(lia)) as Heq.
  pose proof (Z.mod_pos_bound m' (Zpos my) ltac:(lia)) as Hmod.
  unfold Z.modulo in Hmod.
  destruct (Z.div_eucl m' (Zpos my)) as [q r] eqn:Hdiv.
  exists q, (new_location (Zpos my) r). split; [reflexivity|].
  pose proof (Z.pow_pos_nonneg 2 s ltac:(lia) Hs) as Hpow.
  rewrite <- Hm'. split; [nia|]. split; [nia|].
  intros Hl. assert (r <> 0) by (intros ->; apply Hl; unfold new_location,
    new_location_even, new_location_odd; by destruct (Z.even _)). nia.
Qed.

(** The quotient of a value below 2^Kx by one of at least 2^(Ly-1) stays
    below 2^(Kx-Ly+2). *)
Lemma SFdiv_mag (x y : spec_float) (Kx Ly : Z) :
  SFmag_le Kx x -> SFmag_ge Ly y -> -1074 <= Kx - Ly + 1 -> Kx - Ly + 2 <= 1024 ->
  SFmag_le (Kx - Ly + 2) (SFdiv prec emax x y).
Proof.
  intros Hx Hy Hlo Hhi.
  destruct x as [sx|sx| |sx mx ex], y as [sy|sy| |sy my ey];
    cbn [SFmag_le SFmag_ge] in *; try contradiction; cbn [SFdiv]; [exact I|].
  destruct (SFdiv_core_spec mx my ex ey) as (q & l & -> & Hq & Hle & _).
  rewrite fexp_binary64 in Hle |- *.
  set (d1 := Zpos (digits2_pos mx)) in *. set (d2 := Zpos (digits2_pos my)) in *.
  set (e' := Z.min (Z.max (d1 + ex - (d2 + ey) - 53) (-1074)) (ex - ey)) in *.
  replace (Kx - Ly + 2) with (Kx - Ly + 1 + 1) by lia.
  assert (Hs : 0 <= ex - ey - e') by (unfold e'; lia).
  assert (He' : e' <= 971) by (unfold e'; lia).
  apply (binary_round_aux_mag _ q e' l (Kx - Ly + 1) Hq); [|exact He'|lia|lia].
  pose proof (digits2_pos_bounds mx) as [_ Hbx]. pose proof (digits2_pos_bounds my) as [Hby _].
  fold d1 in Hbx. fold d2 in Hby.
  assert (Hd1 : 1 <= d1) by (unfold d1; lia). assert (Hd2 : 1 <= d2) by (unfold d2; lia).
  destruct (Z_lt_ge_dec (d1 + (ex - ey - e') - d2 + 1) 0) as [Hneg|Hpos].
  - (* the quotient is 0 *)
    assert (q = 0) as ->; [|cbn [Zdigits2]; unfold e'; lia].
    assert (Hlt : Zpos mx * 2 ^ (ex - ey - e') < 2 ^ (d2 - 1)).
    { apply Z.lt_le_trans with (2 ^ d1 * 2 ^ (ex - ey - e')).
      - apply Z.mul_lt_mono_pos_r; [apply Z.pow_pos_nonneg; lia|exact Hbx].
      - rewrite <- Z.pow_add_r by lia. apply Z.pow_le_mono_r; lia. }
    nia.
  - assert (Zdigits2 q <= d1 + (ex - ey - e') - d2 + 1); [|lia].
    apply Zdigits2_le; [lia|]. split; [exact Hq|].
    assert (Hlt : Zpos mx * 2 ^ (ex - ey - e') < 2 ^ (d1 + (ex - ey - e'))).
    { rewrite Z.pow_add_r by lia.
      apply Z.mul_lt_mono_pos_r; [apply Z.pow_pos_nonneg; lia|exact Hbx]. }
    assert (Hsplit : 2 ^ (d1 + (ex - ey - e')) = 2 ^ (d1 + (ex - ey - e') - d2 + 1) * 2 ^ (d2 - 1)).
    { rewrite <- Z.pow_add_r by lia. f_equal. lia. }
    pose proof (Z.pow_pos_nonneg 2 (d2 - 1) ltac:(lia) ltac:(lia)).
    pose proof (Z.pow_pos_nonneg 2 (d1 + (ex - ey - e') - d2 + 1) ltac:(lia) ltac:(lia)).
    nia.
Qed.

(** *** Integer parts *)

Lemma shiftr_lt_pow2 (m n K : Z) : 0 <= m -> 0 <= n -> 0 <= K -> m < 2 ^ (K + n) -> Z.shiftr m n < 2 ^ K.
Proof.
  intros Hm Hn HK Hlt. rewrite Z.shiftr_div_pow2 by exact Hn.
  apply Z.div_lt_upper_bound; [apply Z.pow_pos_nonneg; lia|].
  rewrite <- Z.pow_add_r by lia. by rewrite Z.add_comm.
Qed.

(** *** With a constant on either side *)

(** A valid value between two positive constants is positive, finite and no
    larger in size than the upper one. *)
Lemma SFbetween_mag (ma mc : positive) (ea ec : Z) (x : spec_float) :
  valid_binary x = true ->
  valid_binary (S754_finite false mc ec) = true ->
  SFleb (S754_finite false ma ea) x = true ->
  SFleb (S754_finite false mc ec) x = false ->
  SFsigned false x /\ SFmag_le (Zpos (digits2_pos mc) + ec) x.
Proof.
  intros Hvx Hvc Hlo Hhi. unfold SFleb in *.
  destruct x as [s|[|]| |[|] m e]; cbn in Hlo, Hhi; try discriminate.
  split; [reflexivity|]. cbn [SFmag_le].
  rewrite (compare_valid mc m ec e (Z.min ec e) Hvc Hvx) in Hhi by lia.
  destruct (Z.compare_spec (Zpos mc * 2 ^ (ec - Z.min ec e)) (Zpos m * 2 ^ (e - Z.min ec e)))
    as [Heq|Hlt|Hgt]; try discriminate.
  pose proof (Zdigits2_mono (Zpos m * 2 ^ (e - Z.min ec e)) (Zpos mc * 2 ^ (ec - Z.min ec e))) as Hd.
  rewrite !Zdigits2_mul_pow2 in Hd by lia. cbn [Zdigits2] in Hd.
  pose proof (Z.pow_pos_nonneg 2 (e - Z.min ec e) ltac:(lia) ltac:(lia)).
  assert (0 <= Zpos m * 2 ^ (e - Z.min ec e)) by nia. lia.
Qed.

(** A non-negative valid value below a positive constant is no larger in
    size than it. *)
Lemma SFbelow_mag (mc : positive) (ec : Z) (x : spec_float) :
  valid_binary x = true ->
  valid_binary (S754_finite false mc ec) = true ->
  SFsigned false x ->
  SFltb x (S754_finite false mc ec) = true ->
  SFmag_le (Zpos (digits2_pos mc) + ec) x.
Proof.
  intros Hvx Hvc Hs Hlt. unfold SFltb in Hlt.
  destruct x as [s|s| |s m e]; cbn [SFsigned] in Hs; try contradiction; subst;
    cbn in Hlt; try discriminate; [exact I|]. cbn [SFmag_le].
  rewrite (compare_valid m mc e ec (Z.min ec e) Hvx Hvc) in Hlt by lia.
  destruct (Z.compare_spec (Zpos m * 2 ^ (e - Z.min ec e)) (Zpos mc * 2 ^ (ec - Z.min ec e)))
    as [Heq|Hlt'|Hgt]; try discriminate.
  pose proof (Zdigits2_mono (Zpos m * 2 ^ (e - Z.min ec e)) (Zpos mc * 2 ^ (ec - Z.min ec e))) as Hd.
  rewrite !Zdigits2_mul_pow2 in Hd by lia. cbn [Zdigits2] in Hd.
  pose proof (Z.pow_pos_nonneg 2 (e - Z.min ec e) ltac:(lia) ltac:(lia)).
  assert (0 <= Zpos m * 2 ^ (e - Z.min ec e)) by nia. lia.
Qed.

(** The quotient of two positive values is not negative and not NaN. *)
Lemma SFdiv_signed (mx my : positive) (ex ey : Z) :
  SFsigned false
    (SFdiv prec emax (S754_finite false mx ex) (S754_finite false my ey)).
Proof.
  cbn [SFdiv]. destruct (SFdiv_core_spec mx my ex ey) as (q & l & -> & Hq & _).
  by apply binary_round_aux_signed.
Qed.

(** *** Differences and quotients of ordered values *)

Lemma binary_round_le_finite (sx : bool) (mx : positive) (ex X : Z) :
  let f := fexp prec emax (Zpos (digits2_pos mx) + ex) in
  let ez := Z.min ex f in
  Zpos mx * 2 ^ (ex - ez) <= X -> (2 ^ (f - ez) | X) ->
  ez <= 1024 -> X < 2 ^ (1024 - ez) ->
  match binary_round prec emax sx mx ex with
  | S754_zero _ => True
  | S754_finite _ p e3 => ez <= e3 /\ Zpos p * 2 ^ (e3 - ez) <= X
  | _ => False
  end.
Proof.
  intros f ez Hle Hdiv Hez HX. unfold binary_round. fold f.
  destruct (shl_align_min mx ex f) as [Hmz Hez']. fold ez in Hmz, Hez'.
  destruct (shl_align mx ex f) as [mz ez']. cbn [fst snd] in Hmz, Hez'. subst ez'.
  assert (Hd : Zdigits2 (Zpos mz) + ez = Zpos (digits2_pos mx) + ex).
  { rewrite Hmz, Zdigits2_mul_pow2 by lia. cbn [Zdigits2]. lia. }
  apply binary_round_aux_le_finite; [lia|lia|done| | |exact Hez|exact HX].
  - rewrite Hd. fold f. replace (Z.max ez f) with f by lia. exact Hdiv.
  - rewrite Hd. fold f. lia.
Qed.

Lemma SFleb_finite (m1 m2 : positive) (e1 e2 e0 : Z) :
  valid_binary (S754_finite false m1 e1) = true ->
  valid_binary (S754_finite false m2 e2) = true ->
  e0 <= e1 -> e0 <= e2 ->
  SFleb (S754_finite false m1 e1) (S754_finite false m2 e2)
  = (Zpos m1 * 2 ^ (e1 - e0) <=? Zpos m2 * 2 ^ (e2 - e0)).
Proof.
  intros Hv1 Hv2 H1 H2. unfold SFleb. cbn [SFcompare].
  rewrite (compare_valid m1 m2 e1 e2 e0 Hv1 Hv2 H1 H2).
  unfold Z.leb. by destruct (_ ?= _).
Qed.

Lemma SFltb_finite (m1 m2 : positive) (e1 e2 e0 : Z) :
  valid_binary (S754_finite false m1 e1) = true ->
  valid_binary (S754_finite false m2 e2) = true ->
  e0 <= e1 -> e0 <= e2 ->
  SFltb (S754_finite false m1 e1) (S754_finite false m2 e2)
  = (Zpos m1 * 2 ^ (e1 - e0) <? Zpos m2 * 2 ^ (e2 - e0)).
Proof.
  intros Hv1 Hv2 H1 H2. unfold SFltb. cbn [SFcompare].
  rewrite (compare_valid m1 m2 e1 e2 e0 Hv1 Hv2 H1 H2).
  unfold Z.ltb. by destruct (_ ?= _).
Qed.

(** A value that a positive one is not below is at most it. *)
Lemma SFltb_false_leb (mh : positive) (eh : Z) (w : spec_float) :
  valid_binary (S754_finite false mh eh) = true -> valid_binary w = true ->
  SFmag_le 1024 w ->
  SFltb (S754_finite false mh eh) w = false ->
  SFleb w (S754_finite false mh eh) = true.
Proof.
  intros Hvh Hvw Hfin Hlt.
  destruct w as [s|s| |[|] m e]; cbn [SFmag_le] in Hfin; try contradiction; try reflexivity.
  rewrite (SFltb_finite mh m eh e (Z.min eh e) Hvh Hvw) in Hlt by lia.
  rewrite (SFleb_finite m mh e eh (Z.min eh e) Hvw Hvh) by lia.
  apply Z.ltb_ge in Hlt. by apply Z.leb_le.
Qed.

Lemma SFsigned_false_nonneg (r : spec_float) :
  SFsigned false r -> SFleb (S754_zero false) r = true.
Proof. destruct r as [s|s| |s m e]; cbn [SFsigned]; try done; by intros ->. Qed.

(** What is left of a positive value after taking away one that is at most
    it is not negative. *)
Lemma SFsub_nonneg (mx : positive) (ex : Z) (y : spec_float) :
  valid_binary (S754_finite false mx ex) = true -> valid_binary y = true ->
  SFmag_le 1024 y ->
  SFleb y (S754_finite false mx ex) = true ->
  SFsigned false (SFsub prec emax (S754_finite false mx ex) y).
Proof.
  intros Hvx Hvy Hfin Hle.
  destruct y as [s|s| |[|] my ey]; cbn [SFmag_le] in Hfin; try contradiction;
    cbn [SFsub]; [done| |].
  - cbn [cond_Zopp].
    generalize (fst (shl_align mx ex (Z.min ex ey))) (fst (shl_align my ey (Z.min ex ey))).
    intros px py.
    destruct (Zpos px - - Zpos py) as [|p|p] eqn:Hz; cbn [binary_normalize];
      [done|apply binary_round_signed|lia].
  - rewrite (SFleb_finite my mx ey ex (Z.min ex ey) Hvy Hvx) in Hle by lia.
    apply Z.leb_le in Hle.
    destruct (shl_align_spec mx ex (Z.min ex ey) ltac:(lia)) as [Hmx _].
    destruct (shl_align_spec my ey (Z.min ex ey) ltac:(lia)) as [Hmy _].
    rewrite <- Hmx, <- Hmy in Hle. clear Hmx Hmy. revert Hle. cbn [cond_Zopp].
    generalize (fst (shl_align mx ex (Z.min ex ey))) (fst (shl_align my ey (Z.min ex ey))).
    intros px py Hle.
    destruct (Zpos px - Zpos py) as [|p|p] eqn:Hz; cbn [binary_normalize];
      [done|apply binary_round_signed|lia].
Qed.

(** What is left of a positive value after taking away a part of it is at
    most the value, and finite. *)
Lemma SFsub_le (mx : positive) (ex : Z) (y : spec_float) :
  let x := S754_finite false mx ex in
  valid_binary x = true -> valid_binary y = true ->
  SFleb (S754_zero false) y = true -> SFmag_le 1024 y ->
  SFleb y x = true ->
  valid_binary (SFsub prec emax x y) = true ->
  SFmag_le 1024 (SFsub prec emax x y) /\ SFleb (SFsub prec emax x y) x = true.
Proof.
  intros x Hvx Hvy Hsign Hfin Hle Hvr.
  assert (Hxx : SFleb x x = true).
  { unfold x. rewrite (SFleb_finite mx mx ex ex ex Hvx Hvx) by lia. apply Z.leb_refl. }
  assert (Hmagx : SFmag_le 1024 x).
  { unfold x. cbn [SFmag_le]. destruct (valid_finite _ _ _ Hvx). lia. }
  destruct y as [s|s| |[|] my ey]; cbn [SFmag_le] in Hfin; try contradiction;
    [by split|discriminate Hsign|].
  unfold x in *. clear x. cbn [SFsub] in Hvr |- *.
  rewrite (SFleb_finite my mx ey ex (Z.min ex ey) Hvy Hvx) in Hle by lia.
  apply Z.leb_le in Hle.
  destruct (shl_align_spec mx ex (Z.min ex ey) ltac:(lia)) as [Hmx _].
  destruct (shl_align_spec my ey (Z.min ex ey) ltac:(lia)) as [Hmy _].
  rewrite <- Hmy in Hle. clear Hmy.
  revert Hvr Hmx Hle. cbn [cond_Zopp].
  generalize (fst (shl_align mx ex (Z.min ex ey))) (fst (shl_align my ey (Z.min ex ey))).
  intros px py Hvr Hmx Hle. revert Hvr.
  set (ez := Z.min ex ey) in *.
  destruct (Zpos px - Zpos py) as [|p|p] eqn:Hz; cbn [binary_normalize];
    [by split| |lia].
  intros Hvr.
  destruct (valid_finite _ _ _ Hvx) as [Hcx Hex].
  set (f := fexp prec emax (Zpos (digits2_pos p) + ez)).
  assert (Hpx : Zpos p <= Zpos mx * 2 ^ (ex - ez)) by lia.
  assert (Hf : f <= ex).
  { unfold f. rewrite fexp_binary64.
    pose proof (Zdigits2_mono (Zpos p) (Zpos mx * 2 ^ (ex - ez)) ltac:(lia)) as Hd.
    rewrite Zdigits2_mul_pow2 in Hd by (unfold ez; lia). cbn [Zdigits2] in Hd. lia. }
  pose proof (digits2_pos_bounds mx) as [_ Hmhi].
  assert (Hd53 : Zpos (digits2_pos mx) <= 53) by lia.
  pose proof (binary_round_le_finite false p ez (Zpos mx * 2 ^ (ex - Z.min ez f))) as Hround.
  cbn zeta in Hround. fold f in Hround.
  assert (Hez : Z.min ez f <= ez) by lia.
  assert (Hezx : ez <= ex) by (unfold ez; lia).
  specialize (Hround).
  assert (H1 : Zpos p * 2 ^ (ez - Z.min ez f) <= Zpos mx * 2 ^ (ex - Z.min ez f)).
  { replace (ex - Z.min ez f) with ((ex - ez) + (ez - Z.min ez f)) by lia.
    rewrite Z.pow_add_r, Z.mul_assoc by lia.
    apply Z.mul_le_mono_nonneg_r; [apply Z.pow_nonneg; lia|exact Hpx]. }
  assert (H2 : (2 ^ (f - Z.min ez f) | Zpos mx * 2 ^ (ex - Z.min ez f))).
  { exists (Zpos mx * 2 ^ (ex - f)).
    rewrite <- Z.mul_assoc, <- Z.pow_add_r by lia. do 2 f_equal. lia. }
  assert (H3 : Zpos mx * 2 ^ (ex - Z.min ez f) < 2 ^ (1024 - Z.min ez f)).
  { apply Z.lt_le_trans with (2 ^ Zpos (digits2_pos mx) * 2 ^ (ex - Z.min ez f)).
    - apply Z.mul_lt_mono_pos_r; [apply Z.pow_pos_nonneg; lia|exact Hmhi].
    - rewrite <- Z.pow_add_r by lia. apply Z.pow_le_mono_r; lia. }
  specialize (Hround H1 H2 ltac:(lia) H3).
  pose proof (binary_round_signed false p ez) as Hs.
  destruct (binary_round prec emax false p ez) as [s|s| |s m e3];
    cbn [SFsigned] in Hs; try contradiction; subst s; [by split|].
  destruct Hround as [He3 Hbound]. split.
  - cbn [SFmag_le]. destruct (valid_finite _ _ _ Hvr). lia.
  - rewrite (SFleb_finite m mx e3 ex (Z.min ez f) Hvr Hvx) by lia. by apply Z.leb_le.
Qed.

(** The quotient of a value that is not negative by a positive one is not
    negative. *)
Lemma SFdiv_nonneg (x : spec_float) (my : positive) (ey : Z) :
  SFsigned false x ->
  SFsigned false (SFdiv prec emax x (S754_finite false my ey)).
Proof.
  destruct x as [s|s| |s mx ex]; cbn [SFsigned]; try done; intros ->;
    [done|done|apply SFdiv_signed].
Qed.

(** The quotient of a value that is not negative by a positive one that is
    at least it is at most 1. *)
Lemma SFdiv_le_one (x : spec_float) (my : positive) (ey : Z) :
  let y := S754_finite false my ey in
  valid_binary x = true -> valid_binary y = true ->
  SFsigned false x -> SFmag_le 1024 x ->
  SFleb x y = true ->
  valid_binary (SFdiv prec emax x y) = true ->
  SFleb (SFdiv prec emax x y) (S754_finite false 4503599627370496 (-52)) = true.
Proof.
  intros y Hvx Hvy Hsign Hfin Hle Hvr. unfold y in *. clear y.
  destruct x as [s|s| |s mx ex]; cbn [SFmag_le SFsigned] in Hfin, Hsign; try contradiction;
    subst s; [reflexivity|].
  rewrite (SFleb_finite mx my ex ey (Z.min ex ey) Hvx Hvy) in Hle by lia.
  apply Z.leb_le in Hle.
  revert Hvr. cbn [SFdiv xorb].
  destruct (SFdiv_core_spec mx my ex ey) as (q & l & -> & Hq & Hqle & Hqlt).
  rewrite fexp_binary64 in *.
  set (d1 := Zpos (digits2_pos mx)) in *. set (d2 := Zpos (digits2_pos my)) in *.
  set (e' := Z.min (Z.max (d1 + ex - (d2 + ey) - 53) (-1074)) (ex - ey)) in *.
  set (e0 := Z.min ex ey) in *.
  assert (Hd : d1 + ex <= d2 + ey).
  { pose proof (Zdigits2_mono (Zpos mx * 2 ^ (ex - e0)) (Zpos my * 2 ^ (ey - e0))) as Hd.
    rewrite !Zdigits2_mul_pow2 in Hd by (unfold e0; lia). cbn [Zdigits2] in Hd.
    pose proof (Z.pow_pos_nonneg 2 (ex - e0) ltac:(lia) ltac:(unfold e0; lia)).
    fold d1 d2 in Hd. assert (0 <= Zpos mx * 2 ^ (ex - e0)) by nia. lia. }
  assert (He' : e' <= -53) by (unfold e'; lia).
  assert (Hs : 0 <= ex - ey - e') by (unfold e'; lia).
  pose proof (Z.pow_pos_nonneg 2 (- e') ltac:(lia) ltac:(lia)) as Hpe.
  pose proof (Z.pow_pos_nonneg 2 (ey - e0) ltac:(lia) ltac:(unfold e0; lia)) as Hpy.
  (* the dividend, scaled, is at most the divisor times 2^(-e') *)
  assert (Hxy : Zpos mx * 2 ^ (ex - ey - e') <= Zpos my * 2 ^ (- e')).
  { apply Z.mul_le_mono_pos_r with (2 ^ (ey - e0)); [exact Hpy|].
    rewrite <- !Z.mul_assoc, <- !Z.pow_add_r by (unfold e0; lia).
    replace (ex - ey - e' + (ey - e0)) with ((ex - e0) + - e') by lia.
    replace (- e' + (ey - e0)) with ((ey - e0) + - e') by lia.
    rewrite !Z.pow_add_r, !Z.mul_assoc by (unfold e0; lia).
    apply Z.mul_le_mono_nonneg_r; [lia|exact Hle]. }
  assert (Hq1 : q <= 2 ^ (- e')) by nia.
  assert (Hq2 : l <> loc_Exact -> q < 2 ^ (- e')).
  { intros Hl. specialize (Hqlt Hl). nia. }
  assert (Hdq : Zdigits2 q <= - e' + 1).
  { apply Zdigits2_le; [lia|]. split; [exact Hq|].
    rewrite Z.pow_add_r by lia. change (2 ^ 1) with 2. lia. }
  pose proof (binary_round_aux_le_small false q e' l (2 ^ (- e')) Hq Hq1 Hq2) as Hround.
  rewrite fexp_binary64 in Hround.
  assert (Hdiv : (2 ^ (Z.max e' (Z.max (Zdigits2 q + e' - 53) (-1074)) - e') | 2 ^ (- e'))).
  { set (k := Z.max e' (Z.max (Zdigits2 q + e' - 53) (-1074)) - e').
    assert (0 <= k <= - e') by (unfold k; lia).
    exists (2 ^ (- e' - k)). rewrite <- Z.pow_add_r by lia. f_equal. lia. }
  specialize (Hround Hdiv ltac:(lia)).
  assert (Hsmall : 2 ^ (- e') <= 2 ^ (971 - e')) by (apply Z.pow_le_mono_r; lia).
  specialize (Hround Hsmall).
  pose proof (binary_round_aux_signed false q e' l Hq) as Hsg.
  destruct (binary_round_aux prec emax false q e' l) as [s|s| |s m e3];
    cbn [SFsigned] in Hsg; try contradiction; subst s; [reflexivity|].
  intros Hvr. destruct Hround as [He3 Hbound].
  rewrite (SFleb_finite m 4503599627370496 e3 (-52) e' Hvr eq_refl) by lia.
  apply Z.leb_le. change 4503599627370496 with (2 ^ 52).
  rewrite <- Z.pow_add_r by lia. replace (52 + (-52 - e')) with (- e') by lia. exact Hbound.
Qed.

End Binary64Rounding.

(** ** The sizer and the ledger on binary64 *)

Section Binary64Ledger.
Local Open Scope num_scope.

Lemma mag_leb_le (K : Z) (x : float) : mag_leb K x = true -> mag_le K x.
Proof.
  unfold mag_leb, mag_le. destruct (Prim2SF x); cbn; try done. apply Z.leb_le.
Qed.

Lemma b64_mul_mag (x y : float) (Kx Ky : Z) :
  mag_le Kx x -> mag_le Ky y -> (-1074 <= Kx + Ky)%Z -> (Kx + Ky + 1 <= 1024)%Z ->
  mag_le (Kx + Ky + 1) (x * y).
Proof.
  intros Hx Hy Hlo Hhi. unfold mag_le. cbn [mul binary64]. rewrite FloatAxioms.mul_spec.
  apply SFmul_mag; try assumption; apply Prim2SF_valid.
Qed.

Lemma b64_sub_mag (x y : float) (K : Z) :
  mag_le K x -> mag_le K y -> (-1074 <= K + 1)%Z -> (K + 2 <= 1024)%Z ->
  mag_le (K + 2) (x - y).
Proof.
  intros Hx Hy Hlo Hhi. unfold mag_le. cbn [sub binary64]. rewrite FloatAxioms.sub_spec.
  by apply SFsub_mag.
Qed.

Lemma b64_div_mag (x y : float) (Kx Ly : Z) :
  mag_le Kx x -> SFmag_ge Ly (Prim2SF y) ->
  (-1074 <= Kx - Ly + 1)%Z -> (Kx - Ly + 2 <= 1024)%Z ->
  mag_le (Kx - Ly + 2) (x / y).
Proof.
  intros Hx Hy Hlo Hhi. unfold mag_le. cbn [div binary64]. rewrite FloatAxioms.div_spec.
  by apply SFdiv_mag.
Qed.

(** Zero times a finite value is not above zero: the test of line 117. *)
Lemma b64_zero_mul_le (x : float) (K : Z) :
  mag_le K x -> (of_int 0 * x <=? of_int 0) = true.
Proof.
  unfold mag_le. intros Hx. cbn [mul leb of_int binary64].
  rewrite FloatAxioms.leb_spec, FloatAxioms.mul_spec.
  change (Prim2SF (Binary64.of_Z 0)) with (S754_zero false).
  destruct (Prim2SF x) as [s|s| |s m e]; cbn in Hx |- *; try done.
Qed.

Lemma b64_to_Z_bound (x : float) (K : Z) :
  mag_le K x -> (0 <= K)%Z -> (Z.abs (trunc x) < 2 ^ K)%Z.
Proof.
  change (trunc x) with (Binary64.to_Z x).
  unfold mag_le, Binary64.to_Z. intros Hx HK.
  pose proof (Z.pow_pos_nonneg 2 K ltac:(lia) HK) as Hpow.
  destruct (Prim2SF x) as [s|s| |s m e]; cbn [SFmag_le] in Hx; try contradiction;
    try (cbn; lia).
  pose proof (digits2_pos_bounds m) as [_ Hm].
  set (d := Zpos (digits2_pos m)) in *.
  assert (Hv : (0 <= (if (0 <=? e)%Z then Z.shiftl (Zpos m) e else Z.shiftr (Zpos m) (- e))
                < 2 ^ K)%Z).
  { destruct (Z.leb_spec 0 e) as [He|He].
    - rewrite Z.shiftl_mul_pow2 by lia.
      pose proof (Z.pow_pos_nonneg 2 e ltac:(lia) He). split; [nia|].
      apply Z.lt_le_trans with (2 ^ d * 2 ^ e)%Z; [nia|].
      rewrite <- Z.pow_add_r by (unfold d; lia). apply Z.pow_le_mono_r; lia.
    - split; [apply Z.shiftr_nonneg; lia|].
      apply shiftr_lt_pow2; try lia.
      apply Z.lt_le_trans with (2 ^ d)%Z; [exact Hm|]. apply Z.pow_le_mono_r; lia. }
  cbn zeta. destruct s; lia.
Qed.

(** *** The factors of the sizer *)

Lemma b64_infinity_not_finite (x : float) :
  is_finite x = true -> forall s, Prim2SF x <> S754_infinity s.
Proof.
  cbn [is_finite binary64]. unfold PrimFloat.is_finite, is_nan, is_infinity.
  rewrite !FloatAxioms.eqb_spec, FloatAxioms.abs_spec.
  change (Prim2SF infinity) with (S754_infinity false).
  intros Hfin s Hx. rewrite Hx in Hfin. by destruct s.
Qed.

(** A finite float above zero. *)
Lemma b64_positive_finite (x : float) :
  is_finite x = true -> (x >? of_int 0) = true ->
  exists m e, Prim2SF x = S754_finite false m e.
Proof.
  intros Hfin Hpos. pose proof (b64_infinity_not_finite x Hfin) as Hinf.
  cbn [ltb of_int binary64] in Hpos. rewrite FloatAxioms.ltb_spec in Hpos.
  change (Prim2SF (Binary64.of_Z 0)) with (S754_zero false) in Hpos.
  destruct (Prim2SF x) as [s|s| |[|] m e]; cbn in Hpos; try discriminate.
  - by destruct (Hinf s).
  - by exists m, e.
Qed.

Lemma tier_factor_mag (z : Z) : (-127 <= z <= 128)%Z -> mag_le 6 (tier_factor z).
Proof.
  intros Hz. apply mag_leb_le.
  assert (Hall : forallb (fun n => mag_leb 6 (tier_factor (Z.of_nat n - 127)))
                   (seq 0 256) = true) by (vm_compute; reflexivity).
  rewrite forallb_forall in Hall.
  specialize (Hall (Z.to_nat (z + 127))).
  replace (Z.of_nat (Z.to_nat (z + 127)) - 127)%Z with z in Hall by lia.
  apply Hall, in_seq. lia.
Qed.

Lemma check_drawdown_factor_mag (state : @TradingState float) :
  mag_le 6 (fst (check_drawdown state)).
Proof.
  unfold check_drawdown.
  set (drawdown := current_drawdown (risk_metrics state)).
  destruct (drawdown >=? DRAWDOWN_HARD_STOP) eqn:Hstop;
    [apply mag_leb_le; vm_compute; reflexivity|].
  destruct (drawdown >=? DRAWDOWN_LEVEL_1) eqn:Hlevel;
    [|apply mag_leb_le; vm_compute; reflexivity].
  cbn [fst]. fold (tier_factor (trunc ((drawdown - DRAWDOWN_LEVEL_1) / lit (1 # 100)) + 1)).
  apply tier_factor_mag.
  assert (Hdd : mag_le (-3) drawdown).
  { cbn [leb binary64] in Hstop, Hlevel. rewrite FloatAxioms.leb_spec in Hstop, Hlevel.
    change (Prim2SF DRAWDOWN_HARD_STOP)
      with (S754_finite false 5764607523034235 (-56)) in Hstop.
    change (Prim2SF DRAWDOWN_LEVEL_1)
      with (S754_finite false 7205759403792794 (-57)) in Hlevel.
    apply (SFbetween_mag 7205759403792794 5764607523034235 (-57) (-56) _
             (Prim2SF_valid drawdown) eq_refl Hlevel Hstop). }
  assert (Hdiff : mag_le (-1) (drawdown - DRAWDOWN_LEVEL_1)).
  { apply (b64_sub_mag drawdown DRAWDOWN_LEVEL_1 (-3) Hdd); [|lia|lia].
    apply mag_leb_le. vm_compute. reflexivity. }
  assert (Hq : mag_le 7 ((drawdown - DRAWDOWN_LEVEL_1) / lit (1 # 100))).
  { apply (b64_div_mag _ _ (-1) (-6) Hdiff); [|lia|lia].
    change (Prim2SF (lit (1 # 100))) with (S754_finite false 5764607523034235 (-59)).
    cbn [SFmag_ge]. apply Z.leb_le. vm_compute. reflexivity. }
  match goal with |- context [trunc ?q] =>
    pose proof (b64_to_Z_bound q 7 Hq ltac:(lia)) as Hsteps end.
  change (2 ^ 7)%Z with 128%Z in Hsteps. lia.
Qed.

Lemma vol_adj_factor_mag (volatility : float) :
  is_finite volatility = true -> (volatility >? of_int 0) = true ->
  mag_le 1 (pymin (lit 1) (VOLATILITY_TARGET / volatility)).
Proof.
  intros Hfin Hpos. unfold pymin.
  destruct (VOLATILITY_TARGET / volatility <? lit 1) eqn:Hlt;
    [|apply mag_leb_le; vm_compute; reflexivity].
  destruct (b64_positive_finite volatility Hfin Hpos) as (m & e & Hv).
  unfold mag_le. cbn [ltb binary64] in Hlt. rewrite FloatAxioms.ltb_spec in Hlt.
  change (Prim2SF (lit 1)) with (S754_finite false 4503599627370496 (-52)) in Hlt.
  apply (SFbelow_mag 4503599627370496 (-52) _ (Prim2SF_valid _) eq_refl); [|exact Hlt].
  cbn [div binary64]. rewrite FloatAxioms.div_spec, Hv.
  change (Prim2SF VOLATILITY_TARGET) with (S754_finite false 5764607523034235 (-58)).
  apply SFdiv_signed.
Qed.

(** The guard of line 74: the volatility is finite and above zero whatever
    pandas returned. *)
Lemma realized_volatility_guarded (pct_change_dropna : list float -> list float)
    (rolling_std_last : nat -> list float -> float)
    (historical_data : gmap string (list float)) :
  let volatility :=
    _calculate_realized_volatility pct_change_dropna rolling_std_last historical_data in
  is_finite volatility = true /\ (volatility >? of_int 0) = true.
Proof.
  cbn zeta. unfold _calculate_realized_volatility.
  destruct (historical_data !! "1h") as [df|]; [|by split].
  destruct (bool_decide (df = [])); [by split|].
  destruct (_ <? VOLATILITY_PERIODS)%nat; [by split|].
  destruct (is_finite _ && _) eqn:Hguard; [|by split].
  by apply andb_true_iff in Hguard.
Qed.

(** C10: a ledger with fewer than 20 trades gets size 0 for every signal and
    every price, in binary64 and whatever pandas returns for the volatility.
    The default win rate 0.5 and odds 1.0 give a Kelly fraction
    (0.5 * 1.0 - 0.5) / 1.0 = 0.0, hence target risk 0.0; the drawdown factor
    is below 64 and the volatility factor at most 1, so their product is
    finite, 0.0 times it is a zero and line 117 returns 0.0. *)
Theorem position_size_zero_before_20_trades (pct_change_dropna : list float -> list float)
    (rolling_std_last : nat -> list float -> float) (state : @TradingState float)
    (signal : PredictionSignal) (price : float) :
  (length (trades state) < 20)%nat ->
  calculate_position_size pct_change_dropna rolling_std_last state signal price = lit 0.
Proof.
  intros Hlen. unfold calculate_position_size.
  pose proof (check_drawdown_factor_mag state) as Hdd.
  destruct (check_drawdown state) as [dd_factor hard_stop]. cbn [fst] in Hdd.
  destruct hard_stop; [reflexivity|].
  rewrite (win_rate_and_odds_default _ Hlen).
  destruct (realized_volatility_guarded pct_change_dropna rolling_std_last
              (historical_data state)) as [Hfin Hpos].
  pose proof (vol_adj_factor_mag _ Hfin Hpos) as Hvol.
  assert (Hfinal : forall in_recovery_mode : bool,
            pymin
              (pymax (of_int 0)
                 ((if lit 1 >? of_int 0
                   then (lit (5 # 10) * lit 1 - (of_int 1 - lit (5 # 10))) / lit 1
                   else lit 0) * lit (5 # 10)))
              (if in_recovery_mode then RECOVERY_MODE_RISK else MAX_RISK_PER_TRADE)
            = (of_int 0 : float)).
  { intros [|]; vm_compute; reflexivity. }
  rewrite Hfinal.
  rewrite (b64_zero_mul_le _ 8); [reflexivity|].
  apply (b64_mul_mag _ _ 6 1 Hdd Hvol); lia.
Qed.

(** The sizer on a ledger without trades. *)
Lemma position_size_zero_before_20_trades_witness :
  calculate_position_size (fun returns => returns) (fun _ _ => lit (1 # 100))
    (@fresh_state float _ 1000)
    {| signal_timestamp := 0; signal_symbol := "BTCUSDT"; fused_prediction_pct := lit 1;
       confidence := lit (9 # 10); decision := LONG_ENTRY; details := [] |}
    (lit 100)
  = lit 0.
Proof.
  apply (position_size_zero_before_20_trades (fun returns => returns)
           (fun _ _ => lit (1 # 100)) (fresh_state 1000)).
  cbn. lia.
Defined.

Lemma b64_finite_mag (x : float) : is_finite x = true -> mag_le 1024 x.
Proof.
  intros Hfin. pose proof (b64_infinity_not_finite x Hfin) as Hinf.
  pose proof (Prim2SF_valid x) as Hvalid. unfold mag_le.
  cbn [is_finite binary64] in Hfin. unfold PrimFloat.is_finite, is_nan in Hfin.
  rewrite FloatAxioms.eqb_spec in Hfin.
  destruct (Prim2SF x) as [s|s| |s m e]; cbn [SFmag_le]; [exact I|by destruct (Hinf s)|done|].
  destruct (valid_finite _ _ _ Hvalid). lia.
Qed.

Lemma b64_finite_number (x : float) : is_finite x = true -> Prim2SF x <> S754_nan.
Proof.
  intros Hfin Hx. pose proof (b64_finite_mag x Hfin) as Hm. unfold mag_le in Hm.
  by rewrite Hx in Hm.
Qed.

(** The result of [max] on line 54 is at least the balance. *)
Lemma b64_pymax_ge (h0 w : float) :
  is_finite w = true -> is_finite (pymax h0 w) = true -> (pymax h0 w >? zero) = true ->
  (w <=? pymax h0 w) = true.
Proof.
  intros Hw Hh Hpos. unfold pymax in *.
  destruct (h0 <? w) eqn:Hlt; [by apply binary64_leb_refl, b64_finite_number|].
  destruct (b64_positive_finite h0 Hh Hpos) as (mh & eh & Hh0).
  cbn [ltb leb binary64] in Hlt |- *.
  rewrite FloatAxioms.ltb_spec in Hlt. rewrite FloatAxioms.leb_spec.
  rewrite Hh0 in Hlt |- *.
  apply SFltb_false_leb; [rewrite <- Hh0|..]; try apply Prim2SF_valid; [|exact Hlt].
  by apply b64_finite_mag.
Qed.

(** Lines 54-55 on binary64: the drawdown is not negative, and at most 1
    for a balance that is not negative. *)
Lemma update_risk_metrics_drawdown (pre : @TradingState float) :
  drawdown_bounded (_update_risk_metrics pre).
Proof.
  unfold drawdown_bounded, _update_risk_metrics.
  cbn [risk_metrics set_risk_metrics high_water_mark current_drawdown wallet_balance].
  set (w := wallet_balance pre).
  set (h := pymax (high_water_mark (risk_metrics pre)) w).
  intros Hw Hh.
  destruct (h >? zero) eqn:Hpos;
    [|split; [|intros _]; vm_compute; reflexivity].
  pose proof (b64_pymax_ge _ _ Hw Hh Hpos) as Hle. fold h in Hle.
  destruct (b64_positive_finite h Hh Hpos) as (mh & eh & Hh').
  pose proof (Prim2SF_valid h) as Hvh. pose proof (Prim2SF_valid w) as Hvw.
  pose proof (Prim2SF_valid (h - w)) as Hvd.
  pose proof (Prim2SF_valid ((h - w) / h)) as Hvq.
  pose proof (b64_finite_mag w Hw) as Hmw. unfold mag_le in Hmw.
  cbn [leb sub div binary64] in *.
  rewrite FloatAxioms.leb_spec in Hle.
  rewrite !FloatAxioms.leb_spec.
  rewrite FloatAxioms.div_spec, FloatAxioms.sub_spec in Hvq |- *.
  rewrite FloatAxioms.sub_spec in Hvd.
  change (Prim2SF zero) with (S754_zero false).
  change (Prim2SF (lit 1)) with (S754_finite false 4503599627370496 (-52)).
  rewrite Hh' in *.
  pose proof (SFsub_nonneg mh eh (Prim2SF w) Hvh Hvw Hmw Hle) as Hdiff.
  split.
  - by apply SFsigned_false_nonneg, SFdiv_nonneg.
  - intros Hw0.
    destruct (SFsub_le mh eh (Prim2SF w) Hvh Hvw Hw0 Hmw Hle Hvd) as [Hmd Hdle].
    by apply SFdiv_le_one.
Qed.

(** C3, as the code has it, in binary64: along every run from a ledger whose
    high-water mark is not negative, the high-water mark never decreases,
    and the drawdown of each state returned (for a finite balance and mark)
    is not negative; it is at most 1 when the balance is not negative, and
    the balance can be negative. *)
Theorem risk_metrics_along_executions (steps : list (Clock * Order * MarketData))
    (state : @TradingState float) (trace : list TradingState) :
  (zero <=? high_water_mark (risk_metrics state)) = true ->
  execute_orders steps state = Ok trace ->
  hwm_non_decreasing state trace /\ Forall drawdown_bounded trace.
Proof.
  intros Hpos Hrun. split.
  - apply (hwm_non_decreasing_run steps state trace); [|exact Hrun].
    by apply leb_refl_right in Hpos.
  - clear Hpos. revert state trace Hrun.
    induction steps as [|[[clock order] market_data] steps IH]; intros state trace.
    + intros [= <-]. constructor.
    + cbn [execute_orders]. unfold bind at 1.
      destruct (execute_order clock order state market_data) as [state'| |] eqn:Hexec;
        try discriminate.
      unfold bind.
      destruct (execute_orders steps state') as [trace'| |] eqn:Hrest; try discriminate.
      intros [= <-].
      destruct (execute_order_updates_risk _ _ _ _ _ Hexec) as (pre & -> & _).
      constructor; [apply update_risk_metrics_drawdown|exact (IH _ _ Hrest)].
Qed.

(** The run that overdraws a balance of 1000 and closes again. *)
Lemma risk_metrics_along_executions_witness :
  hwm_non_decreasing (@fresh_state float _ 1000) overdrawn_trace
  /\ Forall drawdown_bounded (@overdrawn_trace float _).
Proof.
  apply (risk_metrics_along_executions overdrawn_steps (fresh_state 1000) overdrawn_trace);
    vm_compute; reflexivity.
Defined.

(** *** The round trip *)

(** A finite value less itself is +0.0. *)
Lemma b64_sub_diag (x : float) : is_finite x = true -> x - x = lit 0.
Proof.
  intros Hfin. pose proof (b64_finite_mag x Hfin) as Hm. unfold mag_le in Hm.
  apply Prim2SF_inj. cbn [sub binary64]. rewrite FloatAxioms.sub_spec.
  change (Prim2SF (lit 0)) with (S754_zero false).
  destruct (Prim2SF x) as [[|]|s| |s m e]; cbn [SFmag_le] in Hm; try contradiction;
    try reflexivity.
  unfold SF64sub, SFsub. cbv zeta. by rewrite Z.sub_diag.
Qed.

Lemma b64_add_0_r_positive (x : float) : (zero <? x) = true -> x + lit 0 = x.
Proof.
  intros Hpos. apply Prim2SF_inj. cbn [ltb add binary64] in *.
  rewrite FloatAxioms.ltb_spec in Hpos. rewrite FloatAxioms.add_spec.
  change (Prim2SF zero) with (S754_zero false) in Hpos.
  change (Prim2SF (lit 0)) with (S754_zero false).
  by destruct (Prim2SF x) as [[|]|[|]| |[|] m e].
Qed.

Lemma b64_ltb_irrefl (x : float) : (x <? x) = false.
Proof.
  cbn [ltb binary64]. rewrite FloatAxioms.ltb_spec. unfold SFltb.
  destruct (Prim2SF x) as [[|]|[|]| |[|] m e]; cbn; try done;
    by rewrite Z.compare_refl, Pos.compare_cont_refl.
Qed.

(** C1, as the code has it, in binary64: a position of size S opened at
    price p with no slippage and closed at once by the opposite order of the
    same size, with a finite notional N = S * p, realizes pnl 0 and is
    removed; the balance is left at ((B - (N + c)) + (0.0 - c)) with
    c = N * 0.0004 the commission of each fill, each operation rounded:
    the initial balance less the opening notional and two commissions.
    Closing credits pnl - commission and does not give the notional back. *)
Theorem round_trip_balance (clock1 clock2 : Clock) (state : @TradingState float)
    (market_data : MarketData) (symbol : string) (side : OrderSide) (ts1 ts2 : Z)
    (S p : float) :
  positions state !! symbol = None ->
  md_ask market_data = p -> md_bid market_data = p ->
  (zero <? p) = true -> (zero <? S) = true ->
  _calculate_slippage S market_data = lit 0 ->
  is_finite (S * p) = true ->
  let open_order :=
    {| order_timestamp := ts1; order_symbol := symbol; order_side := side;
       order_size := S; order_type := "MARKET" |} in
  let close_order :=
    {| order_timestamp := ts2; order_symbol := symbol; order_side := opposite side;
       order_size := S; order_type := "MARKET" |} in
  let notional := S * p in
  let commission := notional * TAKER_FEE in
  exists state1 state2 opening_trade closing_trade,
    execute_order clock1 open_order state market_data = Ok state1
    /\ execute_order clock2 close_order state1 market_data = Ok state2
    /\ trades state2 = trades state ++ [opening_trade; closing_trade]
    /\ trade_pnl closing_trade = lit 0
    /\ wallet_balance state2
       = (wallet_balance state - (notional + commission)) + (lit 0 - commission)
    /\ positions state2 !! symbol = None.
Proof.
  intros Hnone Hask Hbid Hp HS Hslip Hfin open_order close_order notional commission.
  assert (Hprice : forall sd ts,
            exec_price_of {| order_timestamp := ts; order_symbol := symbol; order_side := sd;
                             order_size := S; order_type := "MARKET" |} market_data
            = p).
  { intros sd ts. unfold exec_price_of. cbn [order_size order_side]. rewrite Hslip.
    destruct sd; [rewrite Hask; by apply b64_add_0_r_positive
                 |rewrite Hbid; apply binary64_sub_0_r]. }
  subst open_order close_order.
  eexists _, _, _, _. split.
  { unfold execute_order. apply execute_order_fuel_open. exact Hnone. }
  split.
  { apply execute_order_full_close with
      (existing_pos := {| pos_symbol := symbol;
                          pos_side := match side with BUY => LONG | SELL => SHORT end;
                          pos_size := S; pos_entry_price := p |}).
    - rewrite record_fill_positions, opened_positions, Hprice. apply lookup_insert_eq.
    - by destruct side.
    - cbn [order_size pos_size]. by apply (ltb_refl_right zero).
    - apply b64_ltb_irrefl. }
  rewrite !record_fill_trades, closed_trades, record_fill_trades, opened_trades.
  rewrite record_fill_wallet_balance, closed_wallet_balance, record_fill_wallet_balance,
    opened_wallet_balance, record_fill_positions, closed_positions, !Hprice.
  cbn [order_size order_symbol pos_size trade_pnl].
  assert (Hpnl : forall sd, realized_pnl
            {| pos_symbol := symbol; pos_side := sd; pos_size := S;
               pos_entry_price := p |} S p = lit 0).
  { intros sd. unfold realized_pnl. cbn [pos_side pos_entry_price].
    destruct sd; by apply b64_sub_diag. }
  rewrite Hpnl. split; [|split; [|split]].
  - by rewrite <- app_assoc.
  - reflexivity.
  - reflexivity.
  - apply lookup_delete_eq.
Qed.

(** Buying one unit at 100 from a balance of 1000 and selling it back. *)
Lemma round_trip_balance_witness :
  exists state1 state2 opening_trade closing_trade,
    execute_order (tick 1) (market_order BUY 1) (@fresh_state float _ 1000) (flat_market 100)
    = Ok state1
    /\ execute_order (tick 2) (market_order SELL 1) state1 (flat_market 100) = Ok state2
    /\ trades state2 = [opening_trade; closing_trade]
    /\ trade_pnl closing_trade = lit 0
    /\ wallet_balance state2
       = (lit 1000 - (lit 1 * lit 100 + lit 1 * lit 100 * TAKER_FEE))
         + (lit 0 - lit 1 * lit 100 * TAKER_FEE)
    /\ positions state2 !! "BTCUSDT" = None.
Proof.
  apply (round_trip_balance (tick 1) (tick 2) (fresh_state 1000) (flat_market 100)
           "BTCUSDT" BUY 0 0 (lit 1) (lit 100)); vm_compute; reflexivity.
Defined.

End Binary64Ledger.

(** ** Exact arithmetic: the ledger and the sizer before rounding *)

Section ExactFacts.
Local Open Scope num_scope.

Ltac xq_unfold :=
  cbn [lit of_int inf add sub mul div fabs ltb leb eqb is_finite trunc exact
       Exact.add Exact.sub Exact.opp Exact.mul Exact.div Exact.abs
       Exact.ltb Exact.leb Exact.eqb Exact.is_finite Exact.of_Z].

Lemma exact_sub_0_r (x : xq) : x - lit 0 = x.
Proof. destruct x; xq_unfold; [|reflexivity..]. f_equal. ring. Qed.

Lemma exact_leb_refl (q : Qc) : (Fin q <=? Fin q) = true.
Proof. xq_unfold. apply bool_decide_eq_true. apply Qcle_refl. Qed.

Lemma xq_same_eq (x y : xq) : xq_same x y = true -> x = y.
Proof.
  destruct x as [a| | |], y as [b| | |]; cbn; try done.
  intros H. f_equal. apply Qc_is_canon. by apply Qeq_bool_iff.
Qed.

Lemma check_drawdown_factor_finite (state : @TradingState xq) :
  exists q : Qc, fst (check_drawdown state) = Fin q.
Proof.
  unfold check_drawdown.
  destruct (_ >=? DRAWDOWN_HARD_STOP); [by eexists|].
  destruct (_ >=? DRAWDOWN_LEVEL_1); [|by eexists].
  cbn [fst]. unfold pymax, DRAWDOWN_REDUCTION_STEP. xq_unfold.
  destruct (bool_decide _); by eexists.
Qed.

Lemma realized_volatility_positive (pct_change_dropna : list xq -> list xq)
    (rolling_std_last : nat -> list xq -> xq) (historical_data : gmap string (list xq)) :
  exists v : Qc,
    _calculate_realized_volatility pct_change_dropna rolling_std_last historical_data = Fin v
    /\ (0 < v)%Qc.
Proof.
  assert (Htarget : exists v : Qc, @VOLATILITY_TARGET xq _ = Fin v /\ (0 < v)%Qc)
    by (by eexists).
  unfold _calculate_realized_volatility.
  destruct (historical_data !! "1h") as [df|]; [|exact Htarget].
  destruct (bool_decide (df = [])); [exact Htarget|].
  destruct (_ <? VOLATILITY_PERIODS)%nat; [exact Htarget|].
  destruct (rolling_std_last VOLATILITY_PERIODS (pct_change_dropna df)) as [v| | |];
    xq_unfold; try exact Htarget.
  case_bool_decide as Hv; [|exact Htarget].
  exists v. split; [reflexivity|exact Hv].
Qed.

(** The balance after an oversized SELL against a LONG position, without
    slippage and before rounding: the closing leg pays commission on the whole order S * p, and
    the residual pays its notional and commission on (S - P) * p again. *)
Lemma oversized_close_balance (clock : Clock) (state : @TradingState xq)
    (market_data : MarketData) (symbol : string) (ts : Z) (S P e p w : Qc) :
  positions state !! symbol
  = Some {| pos_symbol := symbol; pos_side := LONG; pos_size := Fin P;
            pos_entry_price := Fin e |} ->
  wallet_balance state = Fin w ->
  md_bid market_data = Fin p ->
  (P < S)%Qc ->
  (forall size : xq, _calculate_slippage size market_data = lit 0) ->
  exists state',
    execute_order clock
      {| order_timestamp := ts; order_symbol := symbol; order_side := SELL;
         order_size := Fin S; order_type := "MARKET" |} state market_data
    = Ok state'
    /\ positions state' !! symbol
       = Some {| pos_symbol := symbol; pos_side := SHORT; pos_size := Fin (S - P);
                 pos_entry_price := Fin p |}
    /\ wallet_balance state'
       = Fin (w + (P * p - P * e - S * p * Q2Qc (4 # 10000))
              - ((S - P) * p + (S - P) * p * Q2Qc (4 # 10000))).
Proof.
  intros Hpos Hw Hbid HPS Hslip.
  assert (Hprice : forall size ts',
            exec_price_of {| order_timestamp := ts'; order_symbol := symbol;
                             order_side := SELL; order_size := size;
                             order_type := "MARKET" |} market_data = Fin p).
  { intros size ts'. unfold exec_price_of. cbn [order_size order_side].
    rewrite Hslip, Hbid. apply exact_sub_0_r. }
  eexists. split.
  { apply execute_order_oversized with
      (existing_pos := {| pos_symbol := symbol; pos_side := LONG; pos_size := Fin P;
                          pos_entry_price := Fin e |}); [exact Hpos|reflexivity|..];
      cbn [order_size pos_size]; xq_unfold.
    - apply bool_decide_eq_true. by apply Qclt_le_weak.
    - by apply bool_decide_eq_true. }
  cbn zeta. unfold residual. cbn [order_timestamp order_symbol order_side order_size pos_size].
  rewrite record_fill_positions, opened_positions, record_fill_wallet_balance,
    opened_wallet_balance, closed_wallet_balance, !Hprice, Hw.
  cbn [order_symbol order_side order_size pos_size]. split.
  - rewrite lookup_insert_eq. xq_unfold. reflexivity.
  - unfold realized_pnl, TAKER_FEE. cbn [pos_side pos_entry_price]. xq_unfold.
    reflexivity.
Qed.

End ExactFacts.

(** ** Where the code departs from the claims *)

Section Departures.
Local Open Scope num_scope.

(** C1 as stated fails: buying 1 at 100 from a balance of 1000 and selling it
    back at 100 leaves 899.92, not 999.92, in binary64 and in exact
    arithmetic alike. *)
Lemma round_trip_not_two_commissions :
  @round_trip_loses_notional float binary64 /\ ~ @round_trip_keeps_notional float binary64
  /\ @round_trip_loses_notional xq exact /\ ~ @round_trip_keeps_notional xq exact.
Proof.
  assert (Hf : @round_trip_loses_notional float binary64).
  { eexists. split; [vm_compute; reflexivity|]. split; vm_compute; reflexivity. }
  assert (Hx : @round_trip_loses_notional xq exact).
  { eexists. split; [vm_compute; reflexivity|]. split; vm_compute; reflexivity. }
  split; [exact Hf|]. split.
  - intros (s2 & Hrun & Heq). destruct Hf as (s2' & Hrun' & Hne & _).
    rewrite Hrun in Hrun'. injection Hrun' as <-. congruence.
  - split; [exact Hx|].
    intros (s2 & Hrun & Heq). destruct Hx as (s2' & Hrun' & Hne & _).
    rewrite Hrun in Hrun'. injection Hrun' as <-. congruence.
Qed.

(** C2 as stated fails: an order of size 0 is executed, it leaves a position
    and a trade behind; an order of size -1 moreover changes the balance. *)
Lemma nonpositive_order_not_rejected :
  (exists state' : @TradingState float,
     execute_order (tick 1) (market_order BUY 0) (fresh_state 1000) (flat_market 100)
     = Ok state'
     /\ is_Some (positions state' !! "BTCUSDT")
     /\ length (trades state') = 1%nat)
  /\ (exists state' : @TradingState float,
        execute_order (tick 1) (market_order SELL (-1)) (fresh_state 1000) (flat_market 100)
        = Ok state'
        /\ is_Some (positions state' !! "BTCUSDT")
        /\ length (trades state') = 1%nat
        /\ (wallet_balance state' =? lit 1000) = false
        /\ (wallet_balance state' >? lit 1100) = true).
Proof.
  split.
  - eexists. split; [vm_compute; reflexivity|]. split; [by eexists|reflexivity].
  - eexists. split; [vm_compute; reflexivity|]. split; [by eexists|].
    repeat split; vm_compute; reflexivity.
Qed.

(** An order of size 0 on a fresh ledger, in binary64. *)
Lemma nonpositive_order_is_executed_witness :
  exists state' : @TradingState float,
    execute_order (tick 1) (market_order BUY 0) (fresh_state 1000) (flat_market 100)
    = Ok state'
    /\ positions state' !! "BTCUSDT"
       = Some {| pos_symbol := "BTCUSDT"; pos_side := LONG; pos_size := lit 0;
                 pos_entry_price := exec_price_of (market_order BUY 0) (flat_market 100) |}
    /\ wallet_balance state'
       = lit 1000
         - (lit 0 * exec_price_of (market_order BUY 0) (flat_market 100)
            + lit 0 * exec_price_of (market_order BUY 0) (flat_market 100) * TAKER_FEE)
    /\ trades state'
       = [] ++ [{| trade_timestamp := 1; trade_symbol := "BTCUSDT"; trade_side := BUY;
                   trade_exec_price := exec_price_of (market_order BUY 0) (flat_market 100);
                   trade_size := lit 0; trade_pnl := lit 0;
                   trade_commission :=
                     lit 0 * exec_price_of (market_order BUY 0) (flat_market 100)
                     * TAKER_FEE |}].
Proof.
  apply (nonpositive_order_is_executed (tick 1) (market_order BUY 0) (fresh_state 1000)
           (flat_market 100)); reflexivity.
Defined.

(** C3 as stated fails: buying 20 units at 100 from a balance of 1000 leaves
    the balance at -1000.8 and the drawdown at 2.0008. *)
Lemma drawdown_exceeds_one :
  @drawdown_above_one float binary64 /\ @drawdown_above_one xq exact.
Proof.
  split; (eexists; split; [vm_compute; reflexivity|];
          split; [vm_compute; reflexivity|]; split; vm_compute; reflexivity).
Qed.

(** C7 as stated fails: with a best ask of quantity zero and a positive
    spread the slippage is not 0 and the BUY price is not the ask. *)
Lemma zero_quantity_slippage_not_zero :
  @hollow_book_slips float binary64 /\ @hollow_book_slips xq exact.
Proof.
  split; (split; [vm_compute; reflexivity|]; split; [vm_compute; reflexivity|]; split;
          vm_compute; reflexivity).
Qed.

(** C5 fails on the code: the oversized close appends one trade, not two. *)
Theorem oversized_close_appends_one_trade :
  @oversized_close_one_trade float binary64 /\ @oversized_close_one_trade xq exact.
Proof.
  split; (eexists _, _, _; split; [vm_compute; reflexivity|];
          split; [vm_compute; reflexivity|]; split; [vm_compute; reflexivity|];
          repeat split; vm_compute; reflexivity).
Qed.

(** C4 fails on the code: the closing leg is charged commission on the whole
    order, 3 * 110 * 0.0004, and the residual is charged again on its own
    notional; in exact arithmetic the balance is short of the promised one by
    the residual's commission 2 * 110 * 0.0004 = 0.088. *)
Theorem oversized_close_double_commission :
  @oversized_close_overcharged float binary64
  /\ @oversized_close_overcharged xq exact
  /\ exists state1 state2 : @TradingState xq,
       long_one = Ok state1 /\ oversized_sell = Ok state2
       /\ (wallet_balance state2 + lit 2 * lit 110 * TAKER_FEE
           =? two_legs_promised (wallet_balance state1)) = true.
Proof.
  split; [|split].
  - eexists _, _, _; split; [vm_compute; reflexivity|];
      split; [vm_compute; reflexivity|]; split; [vm_compute; reflexivity|];
      repeat split; vm_compute; reflexivity.
  - eexists _, _, _; split; [vm_compute; reflexivity|];
      split; [vm_compute; reflexivity|]; split; [vm_compute; reflexivity|];
      repeat split; vm_compute; reflexivity.
  - eexists _, _; split; [vm_compute; reflexivity|];
      split; [vm_compute; reflexivity|]. vm_compute; reflexivity.
Qed.

(** The factor of C6 rests on the rounding of binary64: in exact arithmetic
    (0.06 - 0.05) / 0.01 is 1, [int] gives 1 step and the factor is 0.5. *)
Example check_drawdown_six_percent_exact :
  trunc ((current_drawdown (risk_metrics (@six_percent_down xq _)) - DRAWDOWN_LEVEL_1)
         / lit (1 # 100)) = 1%Z
  /\ xq_same (fst (check_drawdown (@six_percent_down xq _))) (lit (5 # 10)) = true.
Proof. split; vm_compute; reflexivity. Qed.

End Departures.

(** ** Further facts of the paper trader, for every arithmetic *)

Section LedgerFacts.
Context {F : Type} {A : Arith F}.
Local Open Scope num_scope.

(** The shape of every state [execute_order] returns, branch by branch. *)
Lemma execute_order_cases clock order state market_data state' :
  execute_order clock order state market_data = Ok state' ->
  let exec_price := exec_price_of order market_data in
  let commission := order_size order * exec_price * TAKER_FEE in
  match positions state !! order_symbol order with
  | None => state' = record_fill clock order exec_price (lit 0) commission
                       (opened order market_data state)
  | Some existing_pos =>
      if same_side existing_pos order then
        exists new_entry_price,
          pydiv (pos_entry_price existing_pos * pos_size existing_pos
                 + exec_price * order_size order)
            (pos_size existing_pos + order_size order) = Ok new_entry_price
          /\ state' = record_fill clock order exec_price (lit 0) commission
                        (added order market_data existing_pos new_entry_price state)
      else if order_size order >=? pos_size existing_pos then
        if order_size order >? pos_size existing_pos then
          let rem_order := residual order existing_pos in
          state' = record_fill clock rem_order (exec_price_of rem_order market_data) (lit 0)
                     (order_size rem_order * exec_price_of rem_order market_data * TAKER_FEE)
                     (opened rem_order market_data
                        (closed order market_data existing_pos state))
        else
          state' = record_fill clock order exec_price
                     (realized_pnl existing_pos (pos_size existing_pos) exec_price)
                     commission (closed order market_data existing_pos state)
      else
        state' = record_fill clock order exec_price
                   (realized_pnl existing_pos (order_size order) exec_price)
                   commission (reduced order market_data existing_pos state)
  end.
Proof.
  intros Hexec. cbn zeta.
  destruct (positions state !! order_symbol order) as [existing_pos|] eqn:Hpos.
  - destruct (same_side existing_pos order) eqn:Hside.
    + revert Hexec. unfold execute_order. cbn [execute_order_fuel].
      unfold execute_order_body at 1. rewrite Hpos.
      unfold same_side in Hside. rewrite Hside. unfold bind.
      destruct (pydiv _ _) as [new_entry_price| |]; try discriminate.
      intros [= <-]. by exists new_entry_price.
    + destruct (order_size order >=? pos_size existing_pos) eqn:Hge.
      * destruct (order_size order >? pos_size existing_pos) eqn:Hgt.
        -- rewrite (execute_order_oversized _ _ _ _ _ Hpos Hside Hge Hgt) in Hexec.
           by injection Hexec as <-.
        -- rewrite (execute_order_full_close _ _ _ _ _ Hpos Hside Hge Hgt) in Hexec.
           by injection Hexec as <-.
      * revert Hexec. unfold execute_order. cbn [execute_order_fuel].
        unfold execute_order_body at 1. rewrite Hpos.
        unfold same_side in Hside. rewrite Hside, Hge.
        by intros [= <-].
  - unfold execute_order in Hexec. rewrite execute_order_fuel_open in Hexec by done.
    by injection Hexec as <-.
Qed.

(** An order that needs a residual returns a state. *)
Lemma execute_order_residual_returns clock order state market_data existing_pos :
  needs_residual order state = Some existing_pos ->
  exists state', execute_order clock order state market_data = Ok state'.
Proof.
  intros Hres. unfold execute_order.
  change (execute_order_fuel 2 clock order state market_data)
    with (execute_order_body (execute_order_fuel 1 clock) clock order state market_data).
  rewrite (execute_order_body_residual _ _ _ _ _ _ Hres).
  rewrite execute_order_fuel_open by (cbn; apply lookup_delete_eq). by eexists.
Qed.

(** X1: an execution touches one symbol only.  Whatever the order does to
    the position of its own symbol, the positions of every other symbol and
    the price history are those of the state it started from. *)
Theorem execute_order_frame clock order state market_data state' :
  execute_order clock order state market_data = Ok state' ->
  historical_data state' = historical_data state
  /\ forall symbol, symbol <> order_symbol order ->
                    positions state' !! symbol = positions state !! symbol.
Proof.
  intros Hexec. pose proof (execute_order_cases _ _ _ _ _ Hexec) as Hcases.
  cbn zeta in Hcases.
  destruct (positions state !! order_symbol order) as [existing_pos|].
  - destruct (same_side existing_pos order).
    + destruct Hcases as (new_entry_price & _ & ->). split; [reflexivity|].
      intros symbol Hne. rewrite record_fill_positions. cbn.
      by rewrite lookup_insert_ne.
    + destruct (order_size order >=? pos_size existing_pos).
      * destruct (order_size order >? pos_size existing_pos); subst state';
          (split; [reflexivity|]); intros symbol Hne; rewrite record_fill_positions; cbn.
        -- rewrite lookup_insert_ne by done. by rewrite lookup_delete_ne.
        -- by rewrite lookup_delete_ne.
      * subst state'. split; [reflexivity|].
        intros symbol Hne. rewrite record_fill_positions. cbn.
        by rewrite lookup_insert_ne.
  - subst state'. split; [reflexivity|].
    intros symbol Hne. rewrite record_fill_positions. cbn.
    by rewrite lookup_insert_ne.
Qed.

(** X2: the only exception is the division of line 84.  [execute_order]
    raises exactly when the order has the side of the position it meets and
    their sizes add up to zero; every other order returns a state. *)
Theorem execute_order_raises_iff clock order state market_data :
  execute_order clock order state market_data = Raise ZeroDivisionError
  <-> exists existing_pos,
        positions state !! order_symbol order = Some existing_pos
        /\ same_side existing_pos order = true
        /\ (pos_size existing_pos + order_size order =? zero) = true.
Proof.
  destruct (needs_residual order state) as [pos|] eqn:Hres.
  - (* the residual opens a position: the call returns *)
    destruct (execute_order_residual_returns clock order state market_data pos Hres)
      as [state' Hok].
    rewrite Hok. split; [discriminate|].
    intros (existing_pos & Hpos & Hside & _). exfalso.
    unfold needs_residual in Hres. rewrite Hpos, Hside in Hres. discriminate.
  - unfold execute_order. cbn [execute_order_fuel]. unfold execute_order_body at 1.
    unfold needs_residual in Hres.
    destruct (positions state !! order_symbol order) as [existing_pos|] eqn:Hpos.
    + fold (same_side existing_pos order).
      destruct (same_side existing_pos order) eqn:Hside.
      * unfold bind, pydiv.
        destruct (pos_size existing_pos + order_size order =? zero) eqn:Hzero.
        -- split; [|reflexivity]. intros _. by exists existing_pos.
        -- split; [discriminate|].
           intros (pos' & [= <-] & _ & Hz). congruence.
      * cbn [negb andb] in Hres.
        destruct (order_size order >=? pos_size existing_pos); cbn [andb] in Hres.
        -- destruct (order_size order >? pos_size existing_pos); [discriminate|].
           split; [discriminate|]. intros (pos' & [= <-] & Hs & _). congruence.
        -- split; [discriminate|]. intros (pos' & [= <-] & Hs & _). congruence.
    + split; [discriminate|]. intros (pos' & [=] & _).
Qed.

(** The last element of a list that is not empty, whatever the default. *)
Lemma last_cons_default {B : Type} (l : list B) (x d : B) :
  List.last (x :: l) d = List.last l x.
Proof.
  revert x d. induction l as [|y l IH]; intros x d; [reflexivity|].
  change (List.last (y :: l) d = List.last (y :: l) x). by rewrite (IH y d), (IH y x).
Qed.

(** X3: the trade log is append-only along a run.  After any sequence of
    executions the trades the ledger started with are still there, in order
    and unchanged, followed by exactly one trade per executed order. *)
Theorem trades_append_only (steps : list (Clock * Order * MarketData))
    (state : TradingState) (trace : list TradingState) :
  execute_orders steps state = Ok trace ->
  exists appended,
    trades (List.last trace state) = trades state ++ appended
    /\ length appended = length steps.
Proof.
  revert state trace.
  induction steps as [|[[clock order] market_data] steps IH]; intros state trace.
  - intros [= <-]. exists []. by rewrite app_nil_r.
  - cbn [execute_orders]. unfold bind at 1.
    destruct (execute_order clock order state market_data) as [state1| |] eqn:Hexec;
      try discriminate.
    unfold bind.
    destruct (execute_orders steps state1) as [trace1| |] eqn:Hrest; try discriminate.
    intros [= <-].
    destruct (execute_order_appends_one_trade _ _ _ _ _ Hexec) as [trade Htrade].
    destruct (IH _ _ Hrest) as (appended & Hlast & Hlen).
    exists (trade :: appended). split; [|cbn; by rewrite Hlen].
    rewrite last_cons_default.
    rewrite Hlast, Htrade. by rewrite <- app_assoc.
Qed.

(** X4: every state [execute_order] returns has risk metrics that agree with
    its balance: the high-water mark is the larger of the previous mark and
    the new balance, and the drawdown is (HWM - balance) / HWM under a
    positive mark, 0 otherwise. *)
Theorem execute_order_risk_metrics_consistent clock order state market_data state' :
  execute_order clock order state market_data = Ok state' ->
  high_water_mark (risk_metrics state')
  = pymax (high_water_mark (risk_metrics state)) (wallet_balance state')
  /\ risk_metrics_consistent state'.
Proof.
  intros Hexec.
  destruct (execute_order_updates_risk _ _ _ _ _ Hexec) as (pre & -> & Hrisk).
  unfold risk_metrics_consistent, _update_risk_metrics.
  cbn [risk_metrics set_risk_metrics high_water_mark current_drawdown wallet_balance].
  by rewrite Hrisk.
Qed.

(** X5: unless the order is an oversized close, the trade a fill appends
    accounts for the fill: it has the order's size, the execution price and
    the commission on their product; a closing fill moves the balance by
    pnl - commission and [total_pnl] by pnl, any other fill has pnl 0, leaves
    [total_pnl] alone and takes notional + commission from the balance. *)
Theorem trade_explains_fill clock order state market_data state' :
  needs_residual order state = None ->
  execute_order clock order state market_data = Ok state' ->
  fill_explained order market_data state state'.
Proof.
  intros Hres Hexec. pose proof (execute_order_cases _ _ _ _ _ Hexec) as Hcases.
  cbn zeta in Hcases. unfold fill_explained, is_closing.
  unfold needs_residual in Hres.
  destruct (positions state !! order_symbol order) as [existing_pos|].
  - destruct (same_side existing_pos order); cbn [negb andb] in *.
    + destruct Hcases as (new_entry_price & _ & ->).
      eexists. split; [rewrite record_fill_trades; reflexivity|]. by repeat split.
    + destruct (order_size order >=? pos_size existing_pos); cbn [andb] in Hres.
      * destruct (order_size order >? pos_size existing_pos); [discriminate|].
        subst state'. eexists. split; [rewrite record_fill_trades; reflexivity|]. by repeat split.
      * subst state'. eexists. split; [rewrite record_fill_trades; reflexivity|]. by repeat split.
  - subst state'. eexists. split; [rewrite record_fill_trades; reflexivity|]. by repeat split.
Qed.

(** X6: closing a whole position at the mark price realizes exactly its
    unrealized pnl.  [calculate_unrealized_pnl] reports for the symbol the
    amount by which [total_pnl] grows when an order of the other side and of
    the position's size is filled at [market_data.price]; afterwards the
    symbol has no position and no unrealized pnl. *)
Theorem close_realizes_unrealized clock order state market_data existing_pos :
  positions state !! order_symbol order = Some existing_pos ->
  same_side existing_pos order = false ->
  (order_size order >=? pos_size existing_pos) = true ->
  (order_size order >? pos_size existing_pos) = false ->
  exec_price_of order market_data = md_price market_data ->
  exists state' unrealized,
    execute_order clock order state market_data = Ok state'
    /\ calculate_unrealized_pnl state market_data !! order_symbol order = Some unrealized
    /\ total_pnl state' = total_pnl state + unrealized
    /\ positions state' !! order_symbol order = None
    /\ calculate_unrealized_pnl state' market_data !! order_symbol order = None.
Proof.
  intros Hpos Hside Hge Hgt Hprice. eexists _, _. split.
  { by apply (execute_order_full_close _ _ _ _ existing_pos). }
  unfold calculate_unrealized_pnl.
  rewrite !lookup_fmap, record_fill_positions, closed_positions, record_fill_total_pnl,
    closed_total_pnl, lookup_delete_eq, Hpos, Hprice.
  cbn [fmap option_fmap option_map]. by repeat split.
Qed.

End LedgerFacts.

(** ** The further facts on sample ledgers, in binary64 *)

Section LedgerWitnesses.
Local Open Scope num_scope.

(** Buying BTCUSDT leaves the ETHUSDT position alone. *)
Lemma execute_order_frame_witness :
  historical_data (@two_symbol_bought float _) = historical_data two_symbol_state
  /\ forall symbol, symbol <> order_symbol (@market_order float _ BUY 1) ->
                    positions (@two_symbol_bought float _) !! symbol
                    = positions two_symbol_state !! symbol.
Proof.
  apply (execute_order_frame (tick 1) (market_order BUY 1) two_symbol_state
           (flat_market 100) two_symbol_bought).
  vm_compute; reflexivity.
Defined.

(** The run that overdraws and closes appends two trades. *)
Lemma trades_append_only_witness :
  exists appended,
    trades (List.last (@overdrawn_trace float _) (fresh_state 1000))
    = trades (@fresh_state float _ 1000) ++ appended
    /\ length appended = length (@overdrawn_steps float _).
Proof.
  apply (trades_append_only overdrawn_steps (fresh_state 1000) overdrawn_trace).
  vm_compute; reflexivity.
Defined.

(** The ledger after buying one unit at 100. *)
Lemma execute_order_risk_metrics_consistent_witness :
  high_water_mark (risk_metrics (@long_one_state float _))
  = pymax (high_water_mark (risk_metrics (fresh_state 1000)))
      (wallet_balance long_one_state)
  /\ risk_metrics_consistent (@long_one_state float _).
Proof.
  apply (execute_order_risk_metrics_consistent (tick 1) (market_order BUY 1)
           (fresh_state 1000) (flat_market 100) long_one_state).
  vm_compute; reflexivity.
Defined.

(** Selling the unit back at 100 is a closing fill the trade accounts for. *)
Lemma trade_explains_fill_witness :
  fill_explained (@market_order float _ SELL 1) (flat_market 100) long_one_state
    long_one_closed.
Proof.
  apply (trade_explains_fill (tick 2) (market_order SELL 1) long_one_state
           (flat_market 100) long_one_closed); vm_compute; reflexivity.
Defined.

(** Selling the unit back at a mark price of 110 realizes the unrealized 10. *)
Lemma close_realizes_unrealized_witness :
  exists (state' : @TradingState float) unrealized,
    execute_order (tick 2) (market_order SELL 1) long_one_state (flat_market 110)
    = Ok state'
    /\ calculate_unrealized_pnl long_one_state (flat_market 110) !! "BTCUSDT"
       = Some unrealized
    /\ total_pnl state' = total_pnl long_one_state + unrealized
    /\ positions state' !! "BTCUSDT" = None
    /\ calculate_unrealized_pnl state' (flat_market 110) !! "BTCUSDT" = None.
Proof.
  apply (close_realizes_unrealized (tick 2) (market_order SELL 1) long_one_state
           (flat_market 110)
           {| pos_symbol := "BTCUSDT"; pos_side := LONG; pos_size := lit 1;
              pos_entry_price := lit 100 |}); vm_compute; reflexivity.
Defined.

End LedgerWitnesses.

(** ** Further facts of the risk controller *)

Section SizingFacts.
Context {F : Type} {A : Arith F}.
Local Open Scope num_scope.

(** X7: two early exits of the sizer hold whatever the trade history, the
    signal and the volatility are: at or above the hard stop of 8% drawdown, and for
    a price that is zero or negative, the size is 0. *)
Theorem position_size_zero_when_stopped_or_unpriced
    (pct_change_dropna : list F -> list F) (rolling_std_last : nat -> list F -> F)
    (state : @TradingState F) (signal : PredictionSignal) (price : F) :
  (current_drawdown (risk_metrics state) >=? DRAWDOWN_HARD_STOP) = true
  \/ (price <=? of_int 0) = true ->
  calculate_position_size pct_change_dropna rolling_std_last state signal price = lit 0.
Proof.
  intros [Hstop | Hprice]; unfold calculate_position_size.
  - unfold check_drawdown. by rewrite Hstop.
  - destruct (check_drawdown state) as [dd_factor [|]]; [reflexivity|].
    destruct (_calculate_win_rate_and_odds (trades state)) as [win_rate odds].
    rewrite Hprice.
    match goal with |- (if ?c then _ else _) = _ => destruct c end; reflexivity.
Qed.

(** X8: the statistics behind the Kelly fraction, and with them the size,
    rest on the last 50 trades only: trades older than those change
    nothing. *)
Theorem sizing_uses_last_50_trades
    (pct_change_dropna : list F -> list F) (rolling_std_last : nat -> list F -> F)
    (state : @TradingState F) (signal : PredictionSignal) (price : F)
    (older recent : list Trade) :
  length recent = KELLY_HISTORY ->
  _calculate_win_rate_and_odds (older ++ recent) = _calculate_win_rate_and_odds recent
  /\ calculate_position_size pct_change_dropna rolling_std_last
       (set_trades (older ++ recent) state) signal price
     = calculate_position_size pct_change_dropna rolling_std_last
         (set_trades recent state) signal price.
Proof.
  intros Hlen.
  assert (Hstats : _calculate_win_rate_and_odds (older ++ recent)
                   = _calculate_win_rate_and_odds recent).
  { unfold _calculate_win_rate_and_odds.
    rewrite length_app, Hlen, Nat.add_sub, drop_app_length, Nat.sub_diag.
    reflexivity. }
  split; [exact Hstats|].
  unfold calculate_position_size, check_drawdown. cbn [trades set_trades risk_metrics
    wallet_balance historical_data]. by rewrite Hstats.
Qed.

End SizingFacts.

Section SizingFactsBinary64.
Local Open Scope num_scope.

(** X9: the volatility the sizer divides by is always a finite positive
    number, whatever pandas returns for the rolling deviation (NaN, an
    infinity, zero or a negative number give the 2% target), and the
    volatility factor min(1, target / volatility) never exceeds 1. *)
Theorem realized_volatility_usable (pct_change_dropna : list float -> list float)
    (rolling_std_last : nat -> list float -> float)
    (historical_data : gmap string (list float)) :
  let volatility :=
    _calculate_realized_volatility pct_change_dropna rolling_std_last historical_data in
  is_finite volatility = true
  /\ (volatility >? of_int 0) = true
  /\ (pymin (lit 1) (VOLATILITY_TARGET / volatility) <=? lit 1) = true.
Proof.
  cbn zeta. split; [|split].
  - unfold _calculate_realized_volatility.
    destruct (historical_data !! "1h") as [df|]; [|reflexivity].
    destruct (bool_decide (df = [])); [reflexivity|].
    destruct (_ <? VOLATILITY_PERIODS)%nat; [reflexivity|].
    destruct (is_finite _ && _) eqn:Hguard; [|reflexivity].
    by apply andb_true_iff in Hguard as [Hfin _].
  - unfold _calculate_realized_volatility.
    destruct (historical_data !! "1h") as [df|]; [|reflexivity].
    destruct (bool_decide (df = [])); [reflexivity|].
    destruct (_ <? VOLATILITY_PERIODS)%nat; [reflexivity|].
    destruct (is_finite _ && _) eqn:Hguard; [|reflexivity].
    by apply andb_true_iff in Hguard as [_ Hpos].
  - unfold pymin.
    destruct (VOLATILITY_TARGET / _ <? lit 1) eqn:Hlt; [|reflexivity].
    by apply ltb_leb.
Qed.

(** Fifty break-even trades. *)
Lemma sizing_uses_last_50_trades_witness :
  let trade : @Trade float :=
    {| trade_timestamp := 0; trade_symbol := "BTCUSDT"; trade_side := BUY;
       trade_exec_price := lit 100; trade_size := lit 1; trade_pnl := lit 0;
       trade_commission := lit (4 # 100) |} in
  _calculate_win_rate_and_odds ([trade] ++ replicate 50 trade)
  = _calculate_win_rate_and_odds (replicate 50 trade)
  /\ calculate_position_size (fun returns => returns) (fun _ _ => lit (1 # 100))
       (set_trades ([trade] ++ replicate 50 trade) (fresh_state 1000))
       {| signal_timestamp := 0; signal_symbol := "BTCUSDT"; fused_prediction_pct := lit 1;
          confidence := lit (9 # 10); decision := LONG_ENTRY; details := [] |} (lit 100)
     = calculate_position_size (fun returns => returns) (fun _ _ => lit (1 # 100))
         (set_trades (replicate 50 trade) (fresh_state 1000))
         {| signal_timestamp := 0; signal_symbol := "BTCUSDT"; fused_prediction_pct := lit 1;
            confidence := lit (9 # 10); decision := LONG_ENTRY; details := [] |} (lit 100).
Proof.
  cbn zeta.
  apply (sizing_uses_last_50_trades (fun returns => returns) (fun _ _ => lit (1 # 100))).
  vm_compute; reflexivity.
Defined.

(** A ledger at exactly 8% drawdown. *)
Lemma position_size_zero_when_stopped_or_unpriced_witness :
  calculate_position_size (fun returns => returns) (fun _ _ => lit (1 # 100))
    (set_risk_metrics
       {| high_water_mark := lit 1000; current_drawdown := lit (8 # 100) |}
       (@fresh_state float _ 920))
    {| signal_timestamp := 0; signal_symbol := "BTCUSDT"; fused_prediction_pct := lit 1;
       confidence := lit (9 # 10); decision := LONG_ENTRY; details := [] |} (lit 100)
  = lit 0.
Proof.
  apply (position_size_zero_when_stopped_or_unpriced (fun returns => returns)
           (fun _ _ => lit (1 # 100))).
  left. vm_compute; reflexivity.
Defined.

End SizingFactsBinary64.

(** ** The reconnection policy of the feed *)

Section ReconnectFacts.
Local Open Scope Z_scope.

Lemma run_websocket_bounded_from (passes : list Pass) (vars : Backoff) :
  1 <= reconnect_delay vars <= MAX_RECONNECT_DELAY ->
  0 <= url_index vars < URL_COUNT ->
  Forall (fun '(url, slept) =>
            0 <= url < URL_COUNT
            /\ match slept with
               | Some seconds => 1 <= seconds <= MAX_RECONNECT_DELAY
               | None => True
               end)
         (fst (_run_websocket passes vars)).
Proof.
  revert vars. induction passes as [|pass passes IH]; intros vars Hd Hu; [constructor|].
  cbn [_run_websocket].
  destruct (run_pass pass vars) as [slept vars'] eqn:Hpass.
  specialize (IH vars').
  destruct (_run_websocket passes vars') as [log final]. cbn [fst] in *.
  unfold run_pass in Hpass. unfold URL_COUNT, MAX_RECONNECT_DELAY in *.
  destruct (pass_connected pass), (pass_end pass); inversion Hpass; subst; clear Hpass;
    cbn [reconnect_delay url_index] in IH;
    (constructor; [split; [lia|try exact I; lia] | apply IH; try lia;
       try (pose proof (Z.mod_pos_bound (url_index vars + 1) 2); lia)]).
Qed.

(** X10: whatever happens on the connections, every wait between two
    attempts lasts between 1 and 60 seconds, and every attempt uses one of the
    two configured addresses. *)
Theorem run_websocket_waits_bounded (passes : list Pass) :
  Forall (fun '(url, slept) =>
            0 <= url < URL_COUNT
            /\ match slept with
               | Some seconds => 1 <= seconds <= MAX_RECONNECT_DELAY
               | None => True
               end)
         (fst (_run_websocket passes initial_backoff)).
Proof. apply run_websocket_bounded_from; cbn; unfold MAX_RECONNECT_DELAY, URL_COUNT; lia. Qed.

Lemma run_websocket_failures_from (n : nat) (k : nat) :
  fst (_run_websocket (replicate n failed_attempt)
         {| reconnect_delay := Z.min (2 ^ Z.of_nat k) MAX_RECONNECT_DELAY;
            url_index := Z.of_nat k mod URL_COUNT |})
  = map (fun i => (Z.of_nat i mod URL_COUNT,
                   Some (Z.min (2 ^ Z.of_nat i) MAX_RECONNECT_DELAY)))
        (seq k n).
Proof.
  revert k. induction n as [|n IH]; intros k; [reflexivity|].
  cbn [replicate _run_websocket seq map]. unfold run_pass at 1.
  cbn [failed_attempt pass_connected pass_end reconnect_delay url_index].
  specialize (IH (S k)).
  replace (Z.min (Z.min (2 ^ Z.of_nat k) MAX_RECONNECT_DELAY * 2) MAX_RECONNECT_DELAY)
    with (Z.min (2 ^ Z.of_nat (S k)) MAX_RECONNECT_DELAY).
  2:{ rewrite Nat2Z.inj_succ, Z.pow_succ_r by lia. unfold MAX_RECONNECT_DELAY. lia. }
  replace ((Z.of_nat k mod URL_COUNT + 1) mod URL_COUNT) with (Z.of_nat (S k) mod URL_COUNT).
  2:{ rewrite Nat2Z.inj_succ. unfold URL_COUNT, Z.succ.
      rewrite Zplus_mod_idemp_l. reflexivity. }
  destruct (_run_websocket (replicate n failed_attempt) _) as [log final].
  cbn [fst] in *. by rewrite IH.
Qed.

(** X11: while the connection attempts keep failing, the waits double from 1
    second up to the cap of 60 (1, 2, 4, 8, 16, 32, 60, 60, ...) and the two
    addresses alternate, the primary one first. *)
Theorem run_websocket_backoff_doubles (n : nat) :
  fst (_run_websocket (replicate n failed_attempt) initial_backoff)
  = map (fun i => (Z.of_nat i mod URL_COUNT,
                   Some (Z.min (2 ^ Z.of_nat i) MAX_RECONNECT_DELAY)))
        (seq 0 n).
Proof. apply (run_websocket_failures_from n 0). Qed.

End ReconnectFacts.

(** ** The snapshots of the feed, for every arithmetic *)

Section FeedFacts.
Context {F : Type} {A : Arith F}.
Local Open Scope num_scope.

(** Destructs the message and the values it carries. *)
Ltac message_cases message :=
  destruct message as [?| |[?|?] [?|?] [?|?]|[?|?] [?|?]|[?|?]|].

(** Whatever the exception, caught or not, the callback is not called. *)
Lemma handed_handle_exception (e : FeedError) : @handed F (handle_exception e) = [].
Proof. unfold handle_exception. by destruct (caught e). Qed.

Lemma handle_messages_no_price (symbol : string) (messages : list (Z * StreamMessage))
    (cache : @DataCache F) :
  cache_price cache = None ->
  Forall (fun m => is_ticker (snd m) = false) messages ->
  snd (handle_messages symbol messages cache) = [].
Proof.
  revert cache. induction messages as [|[now message] messages IH]; intros cache Hnone Hall;
    [reflexivity|].
  inversion Hall as [|? ? Hmsg Hrest]; subst. cbn [snd] in Hmsg.
  cbn [handle_messages].
  assert (Hcache : cache_price (fst (_handle_message symbol now message cache)) = None
                   /\ handed (snd (_handle_message symbol now message cache)) = []).
  { unfold _handle_message.
    message_cases message; try discriminate Hmsg;
      unfold snapshot_of_cache; cbn; rewrite ?Hnone, ?handed_handle_exception; by split. }
  destruct (_handle_message symbol now message cache) as [cache' outcome].
  cbn [fst snd] in Hcache. destruct Hcache as [Hnone' ->].
  specialize (IH cache' Hnone' Hrest).
  destruct (handle_messages symbol messages cache') as [final snapshots]. cbn [snd] in *.
  exact IH.
Qed.

(** X12: nothing reaches the callback before the first ticker has been
    read: depth updates, trades and other messages are cached or skipped. *)
Theorem feed_silent_before_first_ticker (symbol : string)
    (messages : list (Z * @StreamMessage F)) :
  Forall (fun m => is_ticker (snd m) = false) messages ->
  snd (handle_messages symbol messages empty_cache) = [].
Proof. by apply handle_messages_no_price. Qed.

Lemma handle_message_after_ticker (symbol : string) (now now' : Z) (c b a : F)
    (message : StreamMessage) (cache : DataCache) :
  cache_holds now c b a cache ->
  is_ticker message = false ->
  cache_holds now c b a (fst (_handle_message symbol now' message cache))
  /\ if parses message
     then exists snapshot,
            handed (snd (_handle_message symbol now' message cache)) = [snapshot]
            /\ repeats_ticker now c b a snapshot
     else handed (snd (_handle_message symbol now' message cache)) = [].
Proof.
  intros (Hc & Hb & Ha & Ht) Hmsg.
  unfold _handle_message.
  message_cases message; try discriminate Hmsg;
    unfold snapshot_of_cache, cache_holds, repeats_ticker;
    cbn [update_cache assign fst snd cache_price cache_bid cache_ask cache_timestamp
         set_cache_top_5_bids set_cache_top_5_asks set_cache_trade_volume parses handed];
    rewrite ?Hc, ?Ht, ?Hb, ?Ha, ?handed_handle_exception; cbn [handed fst snd]; try done;
    (split; [done|]); eexists; (split; [reflexivity|]); cbn; by rewrite ?Hb, ?Ha.
Qed.

Lemma handle_messages_after_ticker (symbol : string) (now : Z) (c b a : F)
    (messages : list (Z * StreamMessage)) (cache : DataCache) :
  cache_holds now c b a cache ->
  Forall (fun m => is_ticker (snd m) = false) messages ->
  length (snd (handle_messages symbol messages cache))
  = length (filter (fun m => parses (snd m) = true) messages)
  /\ Forall (repeats_ticker now c b a) (snd (handle_messages symbol messages cache)).
Proof.
  revert cache. induction messages as [|[now' message] messages IH];
    intros cache Hcache Hall; [by split|].
  inversion Hall as [|? ? Hmsg Hrest]; subst. cbn [snd] in Hmsg.
  destruct (handle_message_after_ticker symbol now now' c b a message cache Hcache Hmsg)
    as [Hcache' Hemit].
  cbn [handle_messages].
  destruct (_handle_message symbol now' message cache) as [cache' outcome].
  cbn [fst snd] in Hcache', Hemit.
  destruct (IH cache' Hcache' Hrest) as [IHlen IHall].
  destruct (handle_messages symbol messages cache') as [final snapshots]. cbn [snd] in *.
  destruct (parses message) eqn:Hparses.
  - destruct Hemit as (snapshot & -> & Hrepeat).
    rewrite filter_cons_True by exact Hparses. cbn. split; [by f_equal|].
    by constructor.
  - rewrite Hemit. rewrite filter_cons_False by (cbn [snd]; congruence). by split.
Qed.

(** X13: once a ticker has been read in full, every later message that has
    a stream name and a payload whose values parse hands one snapshot to the
    callback, and every other message hands none; until the next ticker
    message each snapshot repeats that ticker's price, bid, ask and time of
    reading, with the relative spread of that bid and ask: depth updates and
    trades do not refresh the timestamp. *)
Theorem feed_snapshots_follow_ticker (symbol : string) (now : Z) (c b a : F)
    (messages : list (Z * @StreamMessage F)) (cache : DataCache) :
  Forall (fun m => is_ticker (snd m) = false) messages ->
  let snapshots :=
    snd (handle_messages symbol
           ((now, TickerMessage (Parsed c) (Parsed b) (Parsed a)) :: messages) cache) in
  length snapshots = S (length (filter (fun m => parses (snd m) = true) messages))
  /\ Forall (repeats_ticker now c b a) snapshots.
Proof.
  intros Hall. cbn zeta.
  cbn [handle_messages _handle_message update_cache assign].
  unfold snapshot_of_cache at 1.
  cbn [cache_price cache_timestamp cache_bid cache_ask set_cache_timestamp set_cache_ask
       set_cache_bid set_cache_price].
  match goal with |- context [handle_messages symbol messages ?c0] =>
    destruct (handle_messages_after_ticker symbol now c b a messages c0) as [Hlen Hsnap];
      [done|exact Hall|];
    destruct (handle_messages symbol messages c0) as [final snapshots] end.
  cbn in *. split; [by f_equal|].
  constructor; [done|exact Hsnap].
Qed.

Lemma handle_message_no_depth (symbol : string) (now : Z) (message : StreamMessage)
    (cache : @DataCache F) :
  cache_top_5_asks cache = None ->
  is_depth message = false ->
  cache_top_5_asks (fst (_handle_message symbol now message cache)) = None
  /\ forall snapshot, In snapshot (handed (snd (_handle_message symbol now message cache))) ->
                      md_top_5_asks (snap_market snapshot) = [].
Proof.
  intros Hnone Hmsg.
  unfold _handle_message.
  message_cases message; try discriminate Hmsg;
    unfold snapshot_of_cache;
    cbn [update_cache assign fst snd cache_price cache_timestamp cache_top_5_asks
         set_cache_price set_cache_bid set_cache_ask set_cache_timestamp
         set_cache_trade_volume handed];
    rewrite ?handed_handle_exception;
    (split; [exact Hnone|]); intros snapshot Hin; try (by destruct Hin);
    destruct (cache_price cache); destruct (cache_timestamp cache);
    cbn [handed In] in Hin; try (by destruct Hin);
    destruct Hin as [<-|[]]; cbn; by rewrite ?Hnone.
Qed.

Lemma handle_messages_no_depth (symbol : string) (messages : list (Z * StreamMessage))
    (order_size : F) (cache : @DataCache F) :
  cache_top_5_asks cache = None ->
  Forall (fun m => is_depth (snd m) = false) messages ->
  Forall (fun snapshot =>
            md_top_5_asks (snap_market snapshot) = []
            /\ _calculate_slippage order_size (snap_market snapshot) = lit 0)
         (snd (handle_messages symbol messages cache)).
Proof.
  revert cache. induction messages as [|[now message] messages IH]; intros cache Hnone Hall;
    [constructor|].
  inversion Hall as [|? ? Hmsg Hrest]; subst. cbn [snd] in Hmsg.
  destruct (handle_message_no_depth symbol now message cache Hnone Hmsg) as [Hnone' Hbook].
  cbn [handle_messages].
  destruct (_handle_message symbol now message cache) as [cache' outcome].
  cbn [fst snd] in Hnone', Hbook.
  specialize (IH cache' Hnone' Hrest).
  destruct (handle_messages symbol messages cache') as [final snapshots]. cbn [snd] in *.
  apply Forall_app. split; [|exact IH].
  apply List.Forall_forall. intros snapshot Hin.
  split; [by apply Hbook|].
  apply slippage_no_spread_or_book. right. by apply Hbook.
Qed.

(** X14: until a depth update has been read, the snapshots carry an empty
    book, and the paper trader fills every order on them without slippage. *)
Theorem feed_no_depth_no_slippage (symbol : string)
    (messages : list (Z * @StreamMessage F)) (order_size : F) :
  Forall (fun m => is_depth (snd m) = false) messages ->
  Forall (fun snapshot =>
            md_top_5_asks (snap_market snapshot) = []
            /\ _calculate_slippage order_size (snap_market snapshot) = lit 0)
         (snd (handle_messages symbol messages empty_cache)).
Proof. by apply handle_messages_no_depth. Qed.

End FeedFacts.

(** ** Exact arithmetic: the confidence, crossed quotes and one-sided histories *)

Section ExactBounds.
Local Open Scope num_scope.

Ltac xq_unfold :=
  cbn [lit of_int inf add sub mul div fabs ltb leb eqb is_finite trunc exact
       Exact.add Exact.sub Exact.opp Exact.mul Exact.div Exact.abs
       Exact.ltb Exact.leb Exact.eqb Exact.is_finite Exact.of_Z].

(** Linear and polynomial goals over [Qc], read over [Q]. *)
Ltac qc_arith :=
  unfold Qcle, Qclt, Qcminus, Qcplus, Qcopp, Qcmult in *;
  cbn [this Q2Qc] in *; rewrite ?Qred_correct in *; nra.

(** [max(lo, min(hi, x))] of two literals is a number between them, whatever
    [x] is. *)
Lemma clamp_between (lo hi : Q) (x : xq) :
  (Q2Qc lo <= Q2Qc hi)%Qc ->
  exists q : Qc, pymax (lit lo) (pymin (lit hi) x) = Fin q
                 /\ (Q2Qc lo <= q)%Qc /\ (q <= Q2Qc hi)%Qc.
Proof.
  intros Hle. unfold pymax, pymin.
  destruct (x <? lit hi) eqn:Hcap.
  - destruct (lit lo <? x) eqn:Hfloor.
    + destruct x as [q| | |]; try discriminate.
      exists q. split; [reflexivity|].
      change (bool_decide (q < Q2Qc hi)%Qc = true) in Hcap.
      change (bool_decide (Q2Qc lo < q)%Qc = true) in Hfloor.
      apply bool_decide_eq_true in Hcap, Hfloor. split; by apply Qclt_le_weak.
    + exists (Q2Qc lo). split; [reflexivity|]. split; [apply Qcle_refl|exact Hle].
  - change (lit lo <? lit hi) with (bool_decide (Q2Qc lo < Q2Qc hi)%Qc).
    destruct (bool_decide (Q2Qc lo < Q2Qc hi)%Qc).
    + exists (Q2Qc hi). split; [reflexivity|]. split; [exact Hle|apply Qcle_refl].
    + exists (Q2Qc lo). split; [reflexivity|]. split; [apply Qcle_refl|exact Hle].
Qed.

(** X17 (exact arithmetic): for a volatility that is not negative the
    confidence of a timeframe lies between 0 and 1, whatever the forecast
    interval is (NaN included); from a volatility of 6% on it is at most 0.7,
    so the fusion never retains the timeframe. *)
Theorem adjusted_confidence_bounds (ci_width last_price : xq) (volatility : Qc)
    (timeframe : string) (prediction : xq) :
  (0 <= volatility)%Qc ->
  let adj_confidence := adjusted_confidence ci_width last_price (Fin volatility) in
  (lit 0 <=? adj_confidence) = true
  /\ (adj_confidence <=? lit 1) = true
  /\ ((Q2Qc (6 # 100) <= volatility)%Qc ->
      rejected (timeframe, prediction, adj_confidence)).
Proof.
  intros Hvol. cbn zeta. unfold adjusted_confidence, rejected. cbn [snd].
  destruct (clamp_between 0 1 (lit 1 - ci_width / last_price)) as (q & -> & Hq0 & Hq1);
    [done|].
  assert (Hfactor : exists m : Qc,
            pymin (Fin volatility * of_int 5) (lit (5 # 10)) = Fin m
            /\ (0 <= m)%Qc /\ (m <= Q2Qc (5 # 10))%Qc
            /\ ((Q2Qc (6 # 100) <= volatility)%Qc -> (Q2Qc (3 # 10) <= m)%Qc)).
  { unfold pymin.
    change (lit (5 # 10) <? Fin volatility * of_int 5)
      with (bool_decide (Q2Qc (5 # 10) < volatility * Q2Qc 5)%Qc).
    destruct (bool_decide (Q2Qc (5 # 10) < volatility * Q2Qc 5)%Qc) eqn:Hcap.
    - exists (Q2Qc (5 # 10)). by repeat split.
    - apply bool_decide_eq_false in Hcap. apply Qcnot_lt_le in Hcap.
      exists (volatility * Q2Qc 5)%Qc. split; [reflexivity|].
      split; [|split]; [| exact Hcap |intros H6]; clear Hcap; qc_arith. }
  destruct Hfactor as (m & -> & Hm0 & Hm1 & Hm6).
  change (Fin q * (lit 1 - Fin m)) with (Fin (q * (Q2Qc 1 - m))%Qc).
  unfold CONFIDENCE_THRESHOLD.
  change (lit 0 <=? Fin (q * (Q2Qc 1 - m))%Qc)
    with (bool_decide (Q2Qc 0 <= q * (Q2Qc 1 - m))%Qc).
  change (Fin (q * (Q2Qc 1 - m))%Qc <=? lit 1)
    with (bool_decide (q * (Q2Qc 1 - m) <= Q2Qc 1)%Qc).
  change (Fin (q * (Q2Qc 1 - m))%Qc >? lit (7 # 10))
    with (bool_decide (Q2Qc (7 # 10) < q * (Q2Qc 1 - m))%Qc).
  rewrite !bool_decide_eq_true, bool_decide_eq_false.
  split; [|split].
  - clear Hm6. qc_arith.
  - clear Hm6. qc_arith.
  - intros H6. specialize (Hm6 H6). apply Qcle_not_lt. clear H6 Hvol. qc_arith.
Qed.

(** The relative spread of quotes that are locked or crossed is not
    positive. *)
Lemma relative_spread_crossed (a b : Qc) :
  (a <= b)%Qc -> (calculate_relative_spread (Fin a) (Fin b) <=? zero) = true.
Proof.
  intros Hab. unfold calculate_relative_spread.
  change (Fin a <=? of_int 0) with (bool_decide (a <= 0)%Qc).
  change (Fin b <=? of_int 0) with (bool_decide (b <= 0)%Qc).
  destruct (bool_decide (a <= 0)%Qc) eqn:Ha; [reflexivity|].
  destruct (bool_decide (b <= 0)%Qc) eqn:Hb; [reflexivity|]. cbn [orb].
  apply bool_decide_eq_false in Ha, Hb. apply Qcnot_le_lt in Ha, Hb.
  assert (Hmid : (0 < (a + b) / Q2Qc 2)%Qc).
  { apply Qcnot_le_lt. intros Hle.
    assert (Hmul : ((a + b) / Q2Qc 2 * Q2Qc 2)%Qc = (a + b)%Qc) by (by field).
    revert Hle Hmul. generalize ((a + b) / Q2Qc 2)%Qc. intros mid Hle Hmul.
    assert (Hsum : (mid * Q2Qc 2 <= 0)%Qc) by (clear Hmul; qc_arith).
    rewrite Hmul in Hsum. clear Hmul. qc_arith. }
  change ((Fin a + Fin b) / of_int 2)
    with (if bool_decide (Q2Qc 2 = 0%Qc) then Exact.of_sgn (Exact.sgn (Fin (a + b)%Qc))
          else Fin ((a + b) / Q2Qc 2)%Qc).
  rewrite bool_decide_false by done.
  set (mid := ((a + b) / Q2Qc 2)%Qc) in *.
  assert (Hne : mid <> 0%Qc) by (intros Heq; rewrite Heq in Hmid; by apply Qclt_not_eq in Hmid).
  change (Fin mid =? of_int 0) with (bool_decide (mid = 0%Qc)).
  rewrite (bool_decide_false _ Hne).
  change ((Fin a - Fin b) / Fin mid)
    with (if bool_decide (mid = 0%Qc) then Exact.of_sgn (Exact.sgn (Fin (a - b)%Qc))
          else Fin ((a - b) / mid)%Qc).
  rewrite (bool_decide_false _ Hne).
  change (bool_decide ((a - b) / mid * Q2Qc 10000 <= 0)%Qc = true).
  apply bool_decide_eq_true.
  assert (Hmul : ((a - b) / mid * mid)%Qc = (a - b)%Qc) by (by field).
  revert Hmul. generalize ((a - b) / mid)%Qc. intros z Hmul.
  assert (Hz : (z * mid <= 0)%Qc) by (rewrite Hmul; clear Hmul Hne; qc_arith).
  clear Hmul Hne Ha Hb Hab. subst mid.
  revert Hmid Hz. generalize ((a + b) / Q2Qc 2)%Qc. intros mid Hmid Hz. qc_arith.
Qed.

(** X18 (exact arithmetic): a ticker whose ask is not above its bid (locked
    or crossed quotes) gives a snapshot on which every order is filled
    without slippage, whatever the cached book holds. *)
Theorem crossed_quotes_no_slippage (symbol : string) (now : Z) (c : xq) (a b : Qc)
    (cache : DataCache) (order_size : xq) :
  (a <= b)%Qc ->
  exists snapshot,
    snd (_handle_message symbol now
           (TickerMessage (Parsed c) (Parsed (Fin b)) (Parsed (Fin a))) cache)
    = Returned (Some snapshot)
    /\ md_ask (snap_market snapshot) = Fin a
    /\ md_bid (snap_market snapshot) = Fin b
    /\ _calculate_slippage order_size (snap_market snapshot) = lit 0.
Proof.
  intros Hab. eexists. split; [reflexivity|]. split; [reflexivity|]. split; [reflexivity|].
  apply slippage_no_spread_or_book. left. by apply relative_spread_crossed.
Qed.

(** The count of a non-empty list is a positive number. *)
Lemma len_positive {B : Type} (xs : list B) :
  xs <> [] -> exists n : Qc, @len xq _ B xs = Fin n /\ (0 < n)%Qc.
Proof.
  intros Hne. exists (Q2Qc (inject_Z (Z.of_nat (length xs)))). split; [reflexivity|].
  destruct xs as [|x xs]; [done|].
  unfold Qclt. cbn [this Q2Qc]. rewrite !Qred_correct.
  unfold Qlt. cbn [length Qnum Qden inject_Z]. lia.
Qed.

(** A sum of zeros is zero. *)
Lemma pysum_zeros (xs : list xq) :
  Forall (fun x => x = Fin 0%Qc) xs -> pysum xs = Fin 0%Qc.
Proof.
  unfold pysum. change (of_int 0) with (Fin 0%Qc).
  induction 1 as [|x xs -> _ IH]; [reflexivity|].
  cbn [fold_left]. exact IH.
Qed.

(** The statistics of a history without a winning trade, or without a trade
    that lost: the defaults, or a positive win rate with infinite odds. *)
Lemma win_rate_and_odds_one_sided (trades : list (@Trade xq)) :
  let recent_trades := drop (length trades - KELLY_HISTORY)%nat trades in
  Forall (fun t => (of_int 0 <=? trade_pnl t) = true) recent_trades
  \/ Forall (fun t => (trade_pnl t <=? of_int 0) = true) recent_trades ->
  _calculate_win_rate_and_odds trades = (lit (5 # 10), lit 1)
  \/ exists w : Qc, (0 < w)%Qc /\ _calculate_win_rate_and_odds trades = (Fin w, PInf).
Proof.
  cbn zeta. unfold _calculate_win_rate_and_odds.
  set (recent_trades := drop (length trades - KELLY_HISTORY)%nat trades).
  intros Hside.
  destruct (length recent_trades <? 20)%nat; [by left|].
  set (wins := map trade_pnl (List.filter (fun t => trade_pnl t >? of_int 0) recent_trades)).
  set (losses := map (fun t => fabs (trade_pnl t))
                   (List.filter (fun t => trade_pnl t <=? of_int 0) recent_trades)).
  destruct (bool_decide (wins = [])) eqn:Hwins; [by left|].
  destruct (bool_decide (losses = [])) eqn:Hlosses; [by left|]. cbn [orb].
  apply bool_decide_eq_false in Hwins, Hlosses.
  destruct Hside as [Hnonneg | Hnonpos].
  - right.
    assert (Hzero : Forall (fun x => x = Fin 0%Qc) losses).
    { subst losses. apply List.Forall_map, List.Forall_forall. intros t Ht.
      apply filter_In in Ht as [Hin Hle].
      pose proof (proj1 (List.Forall_forall _ _) Hnonneg t Hin) as Hge. cbn beta in Hge.
      destruct (trade_pnl t) as [q| | |]; try discriminate.
      change (bool_decide (0 <= q)%Qc = true) in Hge.
      change (bool_decide (q <= 0)%Qc = true) in Hle.
      apply bool_decide_eq_true in Hge, Hle.
      assert (q = 0%Qc) as -> by (by apply Qcle_antisym). reflexivity. }
    rewrite (pysum_zeros losses Hzero).
    destruct (len_positive losses Hlosses) as (n & -> & Hn).
    destruct (len_positive wins Hwins) as (k & -> & Hk).
    assert (Hrecent : recent_trades <> []).
    { intros Heq. apply Hwins. subst wins. by rewrite Heq. }
    destruct (len_positive recent_trades Hrecent) as (m & -> & Hm).
    assert (Hnz : forall x : Qc, (0 < x)%Qc -> x <> 0%Qc)
      by (intros x Hx ->; by apply Qclt_not_eq in Hx).
    change (Fin 0%Qc / Fin n) with (if bool_decide (n = 0%Qc) then Exact.of_sgn 0
                                    else Fin (0 / n)%Qc).
    rewrite (bool_decide_false _ (Hnz n Hn)).
    change (Fin (0 / n)%Qc >? of_int 0) with (bool_decide (0 < 0 / n)%Qc).
    rewrite bool_decide_false.
    2:{ replace (0 / n)%Qc with 0%Qc by (field; by apply Hnz). by intros H%Qclt_not_eq. }
    change (Fin k / Fin m) with (if bool_decide (m = 0%Qc) then Exact.of_sgn (Exact.sgn (Fin k))
                                 else Fin (k / m)%Qc).
    rewrite (bool_decide_false _ (Hnz m Hm)).
    exists (k / m)%Qc. split; [|reflexivity].
    apply Qcnot_le_lt. intros Hle.
    assert (Hmul : (k / m * m)%Qc = k) by (field; by apply Hnz).
    revert Hle Hmul. generalize (k / m)%Qc. intros z Hle Hmul.
    assert (Hprod : (z * m <= 0)%Qc) by (clear Hmul Hnz; qc_arith).
    rewrite Hmul in Hprod. by apply Qcle_not_lt in Hprod.
  - left. exfalso. apply Hwins. subst wins.
    destruct (List.filter (fun t => trade_pnl t >? of_int 0) recent_trades)
      as [|t ts] eqn:Hfilter; [reflexivity|].
    assert (Hin : In t (List.filter (fun t => trade_pnl t >? of_int 0) recent_trades))
      by (rewrite Hfilter; by left).
    apply filter_In in Hin as [Hin Hgt].
    pose proof (proj1 (List.Forall_forall _ _) Hnonpos t Hin) as Hle. cbn beta in Hle.
    destruct (trade_pnl t) as [q| | |]; try discriminate.
    change (bool_decide (0 < q)%Qc = true) in Hgt.
    change (bool_decide (q <= 0)%Qc = true) in Hle.
    apply bool_decide_eq_true in Hgt, Hle. by apply Qcle_not_lt in Hle.
Qed.

(** X21 (exact arithmetic): the sizer proposes nothing unless the last 50
    trades hold both a winning trade and a trade that lost money.  Without a
    winner, or without a trade of pnl <= 0, the statistics are the defaults
    and the Kelly fraction is 0; when every trade of pnl <= 0 broke even, as
    the trade of every opening fill does, the odds are infinite and the Kelly
    fraction is inf / inf, which max(0, .) turns into 0. *)
Theorem position_size_needs_win_and_loss
    (pct_change_dropna : list xq -> list xq) (rolling_std_last : nat -> list xq -> xq)
    (state : @TradingState xq) (signal : PredictionSignal) (price : xq) :
  let recent_trades :=
    drop (length (trades state) - KELLY_HISTORY)%nat (trades state) in
  Forall (fun t => (of_int 0 <=? trade_pnl t) = true) recent_trades
  \/ Forall (fun t => (trade_pnl t <=? of_int 0) = true) recent_trades ->
  calculate_position_size pct_change_dropna rolling_std_last state signal price = lit 0.
Proof.
  cbn zeta. intros Hside. unfold calculate_position_size.
  destruct (check_drawdown_factor_finite state) as [dd Hdd].
  destruct (check_drawdown state) as [dd_factor hard_stop]. cbn [fst] in Hdd. subst dd_factor.
  destruct hard_stop; [reflexivity|].
  destruct (realized_volatility_positive pct_change_dropna rolling_std_last
              (historical_data state)) as (v & -> & Hv).
  assert (Hvol : exists a : Qc, pymin (lit 1) (VOLATILITY_TARGET / Fin v) = Fin a).
  { unfold pymin, VOLATILITY_TARGET. xq_unfold.
    rewrite bool_decide_eq_false_2 by (intros ->; by apply Qclt_not_eq in Hv).
    xq_unfold. destruct (bool_decide _); eexists; reflexivity. }
  destruct Hvol as [a ->].
  assert (Htail : forall risk : xq, risk = Fin 0%Qc ->
            (if risk * (Fin dd * Fin a) <=? of_int 0 then lit 0
             else
               let position_size_usd := wallet_balance state * (risk * (Fin dd * Fin a)) in
               let position_size_usd :=
                 pymax MIN_ORDER_USD (pymin position_size_usd MAX_ORDER_USD) in
               let position_size_usd :=
                 if position_size_usd >? wallet_balance state then wallet_balance state
                 else position_size_usd in
               if price <=? of_int 0 then lit 0 else position_size_usd / price)
            = lit 0).
  { intros risk ->. xq_unfold.
    rewrite bool_decide_eq_true_2; [reflexivity|].
    replace (0 * (dd * a))%Qc with 0%Qc by ring. apply Qcle_refl. }
  destruct (win_rate_and_odds_one_sided (trades state) Hside) as [-> | (w & Hw & ->)].
  - apply Htail.
    destruct (wallet_balance state <? high_water_mark (risk_metrics state));
      apply xq_same_eq; vm_compute; reflexivity.
  - apply Htail.
    change (PInf >? of_int 0) with true. cbn match.
    assert (Hkelly : (Fin w * PInf - (of_int 1 - Fin w)) / PInf = NaN).
    { xq_unfold. unfold Exact.sgn. by rewrite (bool_decide_true _ Hw). }
    rewrite Hkelly.
    destruct (wallet_balance state <? high_water_mark (risk_metrics state));
      apply xq_same_eq; vm_compute; reflexivity.
Qed.

(** Twenty-five fills that broke even and one winner. *)
Lemma position_size_needs_win_and_loss_witness :
  calculate_position_size (fun returns => returns) (fun _ _ => lit (1 # 100))
    (@unbeaten_state xq _)
    {| signal_timestamp := 0; signal_symbol := "BTCUSDT"; fused_prediction_pct := lit 1;
       confidence := lit (9 # 10); decision := LONG_ENTRY; details := [] |} (lit 100)
  = lit 0.
Proof.
  apply (position_size_needs_win_and_loss (fun returns => returns)
           (fun _ _ => lit (1 # 100)) unbeaten_state).
  left. apply List.Forall_forall. intros t Ht. vm_compute in Ht.
  repeat (destruct Ht as [<- | Ht]; [reflexivity|]). destruct Ht.
Defined.

End ExactBounds.

(** ** The fusion on short histories, in binary64 *)

Section ShortHistory.
Local Open Scope num_scope.

(** X20: with fewer than 200 closes in every timeframe, the signal is
    WAITING with confidence 0, fused prediction 0 and no detail, whatever the
    model would forecast and in whatever order the futures complete. *)
Theorem short_history_waits (forecast : string -> list float -> option (float * float))
    (state : @TradingState float) (now : Z) (symbol : string)
    (completed : list (string * float * float)) :
  (forall timeframe df, historical_data state !! timeframe = Some df ->
                        (length df < HISTORICAL_WINDOW)%nat) ->
  completed ≡ₚ submitted forecast state ->
  let signal := predict_multi_timeframe now symbol completed in
  decision signal = WAITING
  /\ confidence signal = lit 0
  /\ fused_prediction_pct signal = lit 0
  /\ details signal = [].
Proof.
  intros Hshort Hperm. cbn zeta.
  assert (Hall : Forall rejected completed).
  { rewrite Hperm. unfold submitted. generalize TIME_FRAMES as timeframes.
    induction timeframes as [|timeframe timeframes IH]; [constructor|].
    csimpl. destruct (historical_data state !! timeframe) as [df|] eqn:Hdf; [|exact IH].
    destruct (bool_decide (df = [])); [exact IH|].
    constructor; [|exact IH].
    unfold _predict_single_timeframe.
    apply Hshort, Nat.ltb_lt in Hdf. by rewrite Hdf. }
  unfold predict_multi_timeframe. rewrite (retained_rejected completed Hall).
  repeat split; vm_compute; reflexivity.
Qed.

(** Two closes in the one-minute history, and a model that is certain. *)
Lemma short_history_waits_witness :
  let state := @short_history_state float _ in
  let forecast := fun (_ : string) (_ : list float) => Some (lit (1 # 100), lit 1) in
  let signal := predict_multi_timeframe 0 "BTCUSDT" (submitted forecast state) in
  decision signal = WAITING
  /\ confidence signal = lit 0
  /\ fused_prediction_pct signal = lit 0
  /\ details signal = [].
Proof.
  cbn zeta.
  apply (short_history_waits (fun _ _ => Some (lit (1 # 100), lit 1))
           short_history_state).
  - intros timeframe df Hdf. cbn [historical_data short_history_state] in Hdf.
    apply lookup_singleton_Some in Hdf as [_ <-]. cbn. unfold HISTORICAL_WINDOW. lia.
  - reflexivity.
Defined.

(** The run that overdraws and closes, from a high-water mark of 1000. *)
Lemma hwm_non_decreasing_binary64_witness :
  hwm_non_decreasing (@fresh_state float _ 1000) overdrawn_trace.
Proof.
  apply (hwm_non_decreasing_binary64 overdrawn_steps (fresh_state 1000) overdrawn_trace);
    vm_compute; reflexivity.
Defined.

End ShortHistory.

(** ** The further facts on sample inputs *)

Section FeedWitnesses.
Local Open Scope num_scope.

(** A depth update, a trade and text that is not JSON before any ticker. *)
Lemma feed_silent_before_first_ticker_witness :
  snd (handle_messages "BTCUSDT"
         [(1, DepthMessage (Parsed [(lit 99, lit 1)]) (Parsed [(lit 101, lit 2)]));
          (2, TradeMessage (Parsed (lit 3))); (3, Unreadable JSONDecodeError)]
         (@empty_cache float))
  = [].
Proof.
  apply (feed_silent_before_first_ticker "BTCUSDT"
           [(1, DepthMessage (Parsed [(lit 99, lit 1)]) (Parsed [(lit 101, lit 2)]));
            (2, TradeMessage (Parsed (lit 3))); (3, Unreadable JSONDecodeError)]).
  repeat constructor.
Defined.

(** A ticker read at time 1, then a depth update, a message without payload,
    a trade without its quantity, a trade whose quantity is no number and a
    trade. *)
Lemma feed_snapshots_follow_ticker_witness :
  let messages : list (Z * @StreamMessage float) :=
    [(2, DepthMessage (Parsed [(lit 99, lit 1)]) (Parsed [(lit 101, lit 2)]));
     (3, NoStreamOrPayload); (4, TradeMessage (Fails KeyError));
     (5, TradeMessage (Fails ValueError)); (6, TradeMessage (Parsed (lit 3)))] in
  let snapshots :=
    snd (handle_messages "BTCUSDT"
           ((1, TickerMessage (Parsed (lit 100)) (Parsed (lit 99)) (Parsed (lit 101)))
            :: messages) empty_cache) in
  length snapshots = S (length (filter (fun m => parses (snd m) = true) messages))
  /\ Forall (repeats_ticker 1 (lit 100) (lit 99) (lit 101)) snapshots.
Proof.
  cbn zeta.
  apply (feed_snapshots_follow_ticker "BTCUSDT" 1 (lit 100) (lit 99) (lit 101)
           [(2, DepthMessage (Parsed [(lit 99, lit 1)]) (Parsed [(lit 101, lit 2)]));
            (3, NoStreamOrPayload); (4, TradeMessage (Fails KeyError));
            (5, TradeMessage (Fails ValueError)); (6, TradeMessage (Parsed (lit 3)))]
           empty_cache).
  repeat constructor.
Defined.

(** A ticker and a trade, no depth update. *)
Lemma feed_no_depth_no_slippage_witness :
  Forall (fun snapshot =>
            md_top_5_asks (snap_market snapshot) = []
            /\ _calculate_slippage (lit 1) (snap_market snapshot) = (lit 0 : float))
         (snd (handle_messages "BTCUSDT"
                 [(1, TickerMessage (Parsed (lit 100)) (Parsed (lit 99)) (Parsed (lit 101)));
                  (2, TradeMessage (Parsed (lit 3)))]
                 empty_cache)).
Proof.
  apply (feed_no_depth_no_slippage "BTCUSDT"
           [(1, TickerMessage (Parsed (lit 100)) (Parsed (lit 99)) (Parsed (lit 101)));
            (2, TradeMessage (Parsed (lit 3)))]
           (lit 1)).
  repeat constructor.
Defined.

End FeedWitnesses.

Section ExactWitnesses.
Local Open Scope num_scope.

(** An interval of 5% of the last close, a volatility of 6%. *)
Lemma adjusted_confidence_bounds_witness :
  let adj_confidence :=
    adjusted_confidence (lit 5) (lit 100) (Fin (Q2Qc (6 # 100))) in
  (lit 0 <=? adj_confidence) = true
  /\ (adj_confidence <=? lit 1) = true
  /\ ((Q2Qc (6 # 100) <= Q2Qc (6 # 100))%Qc ->
      rejected ("1m", lit (1 # 100), adj_confidence)).
Proof.
  cbn zeta.
  apply (adjusted_confidence_bounds (lit 5) (lit 100) (Q2Qc (6 # 100)) "1m" (lit (1 # 100))).
  by vm_compute.
Defined.

(** Crossed quotes: ask 99 under bid 100. *)
Lemma crossed_quotes_no_slippage_witness :
  exists snapshot,
    snd (_handle_message "BTCUSDT" 1
           (TickerMessage (Parsed (lit 100)) (Parsed (Fin (Q2Qc 100)))
              (Parsed (Fin (Q2Qc 99)))) empty_cache)
    = Returned (Some snapshot)
    /\ md_ask (snap_market snapshot) = Fin (Q2Qc 99)
    /\ md_bid (snap_market snapshot) = Fin (Q2Qc 100)
    /\ _calculate_slippage (lit 1) (snap_market snapshot) = lit 0.
Proof.
  apply (crossed_quotes_no_slippage "BTCUSDT" 1 (lit 100) (Q2Qc 99) (Q2Qc 100) empty_cache
           (lit 1)).
  by vm_compute.
Defined.

End ExactWitnesses.
